(** * rviz point-cloud display: a shallow embedding of [PointCloudBase]

    Source: [src/rviz/displays/point_cloud_base.cpp].

    Modelling conventions.
    - [float] is modelled by the exact rationals [Q]: rounding, infinities
      and NaN are outside the model.  Equalities between computed floats are
      therefore stated with [==] ([Qeq]).
    - [int] is [Z]; the 32-bit object representation only matters in
      [transformRGB], where it is written out.
    - [std::vector] and [std::deque] are lists; [v[i]] is a checked read
      whose failure is [UndefinedBehaviour].
    - Member functions are functions on the object state [State]; the calls
      the object makes to its collaborators (property objects, render
      requests, the ROS log) are recorded, in order, in [trace_].
    - Locks ([RenderAutoLock], [clouds_mutex_]) are not modelled: every
      member function runs to completion without interleaving.
    - A message belongs to the buffer entry made for it: the [shared_ptr]
      is modelled by the value it points to. *)

From Stdlib Require Import ZArith QArith Qround Qabs Lqa Lia.
From stdpp Require Import base list strings.

Local Open Scope Z_scope.

(** ** Outcomes of a call *)

(** A member function either returns, stops on a failed [ROS_ASSERT], or
    runs into undefined behaviour (an out-of-range [operator[]], a call
    through a NULL pointer). *)
Inductive Outcome (A : Type) : Type :=
| Returns (a : A)
| AssertionFailed
| UndefinedBehaviour.

Arguments Returns {A} a.
Arguments AssertionFailed {A}.
Arguments UndefinedBehaviour {A}.

Global Instance Outcome_ret : MRet Outcome := fun A a => Returns a.
Global Instance Outcome_bind : MBind Outcome := fun A B k m =>
  match m with
  | Returns a => k a
  | AssertionFailed => AssertionFailed
  | UndefinedBehaviour => UndefinedBehaviour
  end.

(** [ROS_ASSERT(cond)] *)
Definition ROS_ASSERT (cond : bool) : Outcome unit :=
  if cond then Returns tt else AssertionFailed.

(** [v[i]] on a [std::vector] *)
Definition vec_at {A : Type} (v : list A) (i : nat) : Outcome A :=
  match v !! i with
  | Some x => Returns x
  | None => UndefinedBehaviour
  end.

(** [for (uint32_t i = start; i < start + count; i++) body(i)] *)
Fixpoint for_loop {A : Type} (count start : nat)
    (body : nat -> A -> Outcome A) (a : A) : Outcome A :=
  match count with
  | O => Returns a
  | S count' => a' ← body start a; for_loop count' (S start) body a'
  end.

(** ** Numbers *)

Definition float : Type := Q.
Bind Scope Q_scope with float.

Definition float_lt (a b : float) : bool := if Qlt_le_dec a b then true else false.
Definition float_gt (a b : float) : bool := float_lt b a.
Definition float_eq (a b : float) : bool := if Qeq_dec a b then true else false.

(** [std::min(a, b)] is [(b < a) ? b : a]; [std::max(a, b)] is
    [(a < b) ? b : a]. *)
Definition std_min (a b : float) : float := if float_lt b a then b else a.
Definition std_max (a b : float) : float := if float_lt a b then b else a.

(** ** Data *)

Module Color.
Record t : Type := mk { r_ : float; g_ : float; b_ : float }.
End Color.

(** [ogre_tools::PointCloud::Point] *)
Module Point.
Record t : Type := mk
  { x_ : float; y_ : float; z_ : float;
    r_ : float; g_ : float; b_ : float }.
(** a value-initialised element of [points.resize(n)] *)
Definition zero : t := mk 0 0 0 0 0 0.
End Point.

(** [Ogre::Vector3] *)
Module Vector3.
Record t : Type := mk { x : float; y : float; z : float }.
End Vector3.

(** [robot_msgs::Point32] *)
Module Point32.
Record t : Type := mk { x : float; y : float; z : float }.
End Point32.

(** [robot_msgs::ChannelFloat32] *)
Module ChannelFloat32.
Record t : Type := mk { name : string; vals : list float }.
End ChannelFloat32.

(** [robot_msgs::PointCloud]; of the header only [frame_id] is read. *)
Module PointCloud.
Record t : Type := mk
  { frame_id : string;
    pts : list Point32.t;
    chan : list ChannelFloat32.t }.
(** [get_pts_size()]; message arrays carry a 32-bit length, so the
    conversion to [uint32_t] never wraps. *)
Definition get_pts_size (c : t) : nat := length (pts c).
End PointCloud.

(** [PointCloudBase::CloudInfo]; [message_] is the shared message after the
    in-place changes made while it was ingested. *)
Module CloudInfo.
Record t : Type := mk
  { message_ : PointCloud.t;
    time_ : float;
    num_points_ : nat }.
End CloudInfo.

(** Modelled from the spec: the enumerations of [point_cloud_base.h], which
    is not part of [src/].  The specification numbers the styles and the
    channel roles from zero, in this order; each count closes its
    enumeration. *)
Definition Billboards : Z := 0.
Definition Points : Z := 1.
Definition StyleCount : Z := 2.

Definition Intensity : Z := 0.
Definition ColorRGBSpace : Z := 1.
Definition NormalSphere : Z := 2.
Definition Curvature : Z := 3.
Definition ChannelRenderCount : Z := 4.

(** ** Collaborators *)

(** Modelled from the spec: the renderer [ogre_tools::PointCloud], whose
    source is not part of [src/].  Points form a queue: [addPoints] appends
    at the tail, [popPoints n] drops the first [n], [clear] drops all. *)
Module OgrePointCloud.
Record t : Type := mk
  { points : list Point.t;
    alpha : float;
    use_points : bool;
    billboard_dimensions : float * float }.

Definition addPoints (ps : list Point.t) (c : t) : t :=
  mk (points c ++ ps) (alpha c) (use_points c) (billboard_dimensions c).
Definition popPoints (n : nat) (c : t) : t :=
  mk (drop n (points c)) (alpha c) (use_points c) (billboard_dimensions c).
Definition clear (c : t) : t :=
  mk [] (alpha c) (use_points c) (billboard_dimensions c).
Definition setAlpha (a : float) (c : t) : t :=
  mk (points c) a (use_points c) (billboard_dimensions c).
Definition setUsePoints (b : bool) (c : t) : t :=
  mk (points c) (alpha c) b (billboard_dimensions c).
Definition setBillboardDimensions (w h : float) (c : t) : t :=
  mk (points c) (alpha c) (use_points c) (w, h).
End OgrePointCloud.

(** The ten property pointers of the display. *)
Inductive PropertyPtr : Type :=
| billboard_size_property_
| alpha_property_
| min_color_property_
| max_color_property_
| auto_compute_intensity_bounds_property_
| min_intensity_property_
| max_intensity_property_
| style_property_
| channel_property_
| decay_time_property_.

(** What the object asks of its collaborators. *)
Inductive Event : Type :=
| PropertyChanged (p : PropertyPtr)      (* [p->changed()] *)
| CauseRender                            (* [causeRender()] *)
| RosErrorTransform (name frame_id fixed_frame : string)
| RosErrorChannelSize (name : string) (val_count point_count : nat)
| RosWarnNormals.

(** ** The object state *)

Record State : Type := mkState
  { name_ : string;
    fixed_frame_ : string;
    clouds_ : list CloudInfo.t;          (* [D_CloudInfo], front first *)
    new_cloud_ : bool;
    cloud_ : OgrePointCloud.t;
    min_color_ : Color.t;
    max_color_ : Color.t;
    min_intensity_ : float;
    max_intensity_ : float;
    auto_compute_intensity_bounds_ : bool;
    intensity_bounds_changed_ : bool;
    style_ : Z;
    channel_color_idx_ : Z;
    billboard_size_ : float;
    point_decay_time_ : float;
    alpha_ : float;
    non_null : PropertyPtr -> bool;      (* which property pointers are set *)
    channel_options_ : list (string * Z);(* options of [*channel_property_] *)
    trace_ : list Event }.

Definition set_clouds_ (v : list CloudInfo.t) (s : State) : State :=
  mkState (name_ s) (fixed_frame_ s) v (new_cloud_ s) (cloud_ s)
    (min_color_ s) (max_color_ s) (min_intensity_ s) (max_intensity_ s)
    (auto_compute_intensity_bounds_ s) (intensity_bounds_changed_ s)
    (style_ s) (channel_color_idx_ s) (billboard_size_ s)
    (point_decay_time_ s) (alpha_ s) (non_null s) (channel_options_ s)
    (trace_ s).
Definition set_new_cloud_ (v : bool) (s : State) : State :=
  mkState (name_ s) (fixed_frame_ s) (clouds_ s) v (cloud_ s)
    (min_color_ s) (max_color_ s) (min_intensity_ s) (max_intensity_ s)
    (auto_compute_intensity_bounds_ s) (intensity_bounds_changed_ s)
    (style_ s) (channel_color_idx_ s) (billboard_size_ s)
    (point_decay_time_ s) (alpha_ s) (non_null s) (channel_options_ s)
    (trace_ s).
Definition set_cloud_ (v : OgrePointCloud.t) (s : State) : State :=
  mkState (name_ s) (fixed_frame_ s) (clouds_ s) (new_cloud_ s) v
    (min_color_ s) (max_color_ s) (min_intensity_ s) (max_intensity_ s)
    (auto_compute_intensity_bounds_ s) (intensity_bounds_changed_ s)
    (style_ s) (channel_color_idx_ s) (billboard_size_ s)
    (point_decay_time_ s) (alpha_ s) (non_null s) (channel_options_ s)
    (trace_ s).
Definition set_min_color_ (v : Color.t) (s : State) : State :=
  mkState (name_ s) (fixed_frame_ s) (clouds_ s) (new_cloud_ s) (cloud_ s)
    v (max_color_ s) (min_intensity_ s) (max_intensity_ s)
    (auto_compute_intensity_bounds_ s) (intensity_bounds_changed_ s)
    (style_ s) (channel_color_idx_ s) (billboard_size_ s)
    (point_decay_time_ s) (alpha_ s) (non_null s) (channel_options_ s)
    (trace_ s).
Definition set_max_color_ (v : Color.t) (s : State) : State :=
  mkState (name_ s) (fixed_frame_ s) (clouds_ s) (new_cloud_ s) (cloud_ s)
    (min_color_ s) v (min_intensity_ s) (max_intensity_ s)
    (auto_compute_intensity_bounds_ s) (intensity_bounds_changed_ s)
    (style_ s) (channel_color_idx_ s) (billboard_size_ s)
    (point_decay_time_ s) (alpha_ s) (non_null s) (channel_options_ s)
    (trace_ s).
Definition set_min_intensity_ (v : float) (s : State) : State :=
  mkState (name_ s) (fixed_frame_ s) (clouds_ s) (new_cloud_ s) (cloud_ s)
    (min_color_ s) (max_color_ s) v (max_intensity_ s)
    (auto_compute_intensity_bounds_ s) (intensity_bounds_changed_ s)
    (style_ s) (channel_color_idx_ s) (billboard_size_ s)
    (point_decay_time_ s) (alpha_ s) (non_null s) (channel_options_ s)
    (trace_ s).
Definition set_max_intensity_ (v : float) (s : State) : State :=
  mkState (name_ s) (fixed_frame_ s) (clouds_ s) (new_cloud_ s) (cloud_ s)
    (min_color_ s) (max_color_ s) (min_intensity_ s) v
    (auto_compute_intensity_bounds_ s) (intensity_bounds_changed_ s)
    (style_ s) (channel_color_idx_ s) (billboard_size_ s)
    (point_decay_time_ s) (alpha_ s) (non_null s) (channel_options_ s)
    (trace_ s).
Definition set_auto_compute_intensity_bounds_ (v : bool) (s : State) : State :=
  mkState (name_ s) (fixed_frame_ s) (clouds_ s) (new_cloud_ s) (cloud_ s)
    (min_color_ s) (max_color_ s) (min_intensity_ s) (max_intensity_ s)
    v (intensity_bounds_changed_ s)
    (style_ s) (channel_color_idx_ s) (billboard_size_ s)
    (point_decay_time_ s) (alpha_ s) (non_null s) (channel_options_ s)
    (trace_ s).
Definition set_intensity_bounds_changed_ (v : bool) (s : State) : State :=
  mkState (name_ s) (fixed_frame_ s) (clouds_ s) (new_cloud_ s) (cloud_ s)
    (min_color_ s) (max_color_ s) (min_intensity_ s) (max_intensity_ s)
    (auto_compute_intensity_bounds_ s) v
    (style_ s) (channel_color_idx_ s) (billboard_size_ s)
    (point_decay_time_ s) (alpha_ s) (non_null s) (channel_options_ s)
    (trace_ s).
Definition set_style_ (v : Z) (s : State) : State :=
  mkState (name_ s) (fixed_frame_ s) (clouds_ s) (new_cloud_ s) (cloud_ s)
    (min_color_ s) (max_color_ s) (min_intensity_ s) (max_intensity_ s)
    (auto_compute_intensity_bounds_ s) (intensity_bounds_changed_ s)
    v (channel_color_idx_ s) (billboard_size_ s)
    (point_decay_time_ s) (alpha_ s) (non_null s) (channel_options_ s)
    (trace_ s).
Definition set_channel_color_idx_ (v : Z) (s : State) : State :=
  mkState (name_ s) (fixed_frame_ s) (clouds_ s) (new_cloud_ s) (cloud_ s)
    (min_color_ s) (max_color_ s) (min_intensity_ s) (max_intensity_ s)
    (auto_compute_intensity_bounds_ s) (intensity_bounds_changed_ s)
    (style_ s) v (billboard_size_ s)
    (point_decay_time_ s) (alpha_ s) (non_null s) (channel_options_ s)
    (trace_ s).
Definition set_billboard_size_ (v : float) (s : State) : State :=
  mkState (name_ s) (fixed_frame_ s) (clouds_ s) (new_cloud_ s) (cloud_ s)
    (min_color_ s) (max_color_ s) (min_intensity_ s) (max_intensity_ s)
    (auto_compute_intensity_bounds_ s) (intensity_bounds_changed_ s)
    (style_ s) (channel_color_idx_ s) v
    (point_decay_time_ s) (alpha_ s) (non_null s) (channel_options_ s)
    (trace_ s).
Definition set_point_decay_time_ (v : float) (s : State) : State :=
  mkState (name_ s) (fixed_frame_ s) (clouds_ s) (new_cloud_ s) (cloud_ s)
    (min_color_ s) (max_color_ s) (min_intensity_ s) (max_intensity_ s)
    (auto_compute_intensity_bounds_ s) (intensity_bounds_changed_ s)
    (style_ s) (channel_color_idx_ s) (billboard_size_ s)
    v (alpha_ s) (non_null s) (channel_options_ s)
    (trace_ s).
Definition set_alpha_ (v : float) (s : State) : State :=
  mkState (name_ s) (fixed_frame_ s) (clouds_ s) (new_cloud_ s) (cloud_ s)
    (min_color_ s) (max_color_ s) (min_intensity_ s) (max_intensity_ s)
    (auto_compute_intensity_bounds_ s) (intensity_bounds_changed_ s)
    (style_ s) (channel_color_idx_ s) (billboard_size_ s)
    (point_decay_time_ s) v (non_null s) (channel_options_ s)
    (trace_ s).
Definition set_non_null (v : PropertyPtr -> bool) (s : State) : State :=
  mkState (name_ s) (fixed_frame_ s) (clouds_ s) (new_cloud_ s) (cloud_ s)
    (min_color_ s) (max_color_ s) (min_intensity_ s) (max_intensity_ s)
    (auto_compute_intensity_bounds_ s) (intensity_bounds_changed_ s)
    (style_ s) (channel_color_idx_ s) (billboard_size_ s)
    (point_decay_time_ s) (alpha_ s) v (channel_options_ s)
    (trace_ s).
Definition set_channel_options_ (v : list (string * Z)) (s : State) : State :=
  mkState (name_ s) (fixed_frame_ s) (clouds_ s) (new_cloud_ s) (cloud_ s)
    (min_color_ s) (max_color_ s) (min_intensity_ s) (max_intensity_ s)
    (auto_compute_intensity_bounds_ s) (intensity_bounds_changed_ s)
    (style_ s) (channel_color_idx_ s) (billboard_size_ s)
    (point_decay_time_ s) (alpha_ s) (non_null s) v
    (trace_ s).
Definition set_trace_ (v : list Event) (s : State) : State :=
  mkState (name_ s) (fixed_frame_ s) (clouds_ s) (new_cloud_ s) (cloud_ s)
    (min_color_ s) (max_color_ s) (min_intensity_ s) (max_intensity_ s)
    (auto_compute_intensity_bounds_ s) (intensity_bounds_changed_ s)
    (style_ s) (channel_color_idx_ s) (billboard_size_ s)
    (point_decay_time_ s) (alpha_ s) (non_null s) (channel_options_ s)
    v.

(** Recording a call to a collaborator. *)
Definition emit (e : Event) (s : State) : State :=
  set_trace_ (trace_ s ++ [e]) s.

(** [causeRender()] *)
Definition causeRender (s : State) : State := emit CauseRender s.

(** [if ( p ) { p->changed(); }] *)
Definition changed_if_set (p : PropertyPtr) (s : State) : State :=
  if non_null s p then emit (PropertyChanged p) s else s.

(** ** Setters *)

Definition setAlpha (alpha : float) (s : State) : State :=
  let s := set_alpha_ alpha s in
  let s := set_cloud_ (OgrePointCloud.setAlpha (alpha_ s) (cloud_ s)) s in
  changed_if_set alpha_property_ s.

Definition setMaxColor (color : Color.t) (s : State) : State :=
  let s := set_max_color_ color s in
  let s := changed_if_set max_color_property_ s in
  causeRender s.

Definition setMinColor (color : Color.t) (s : State) : State :=
  let s := set_min_color_ color s in
  let s := changed_if_set min_color_property_ s in
  causeRender s.

Definition setMinIntensity (val : float) (s : State) : State :=
  let s := set_min_intensity_ val s in
  let s := if float_gt (min_intensity_ s) (max_intensity_ s)
           then set_min_intensity_ (max_intensity_ s) s else s in
  let s := changed_if_set min_intensity_property_ s in
  causeRender s.

Definition setMaxIntensity (val : float) (s : State) : State :=
  let s := set_max_intensity_ val s in
  let s := if float_lt (max_intensity_ s) (min_intensity_ s)
           then set_max_intensity_ (min_intensity_ s) s else s in
  let s := changed_if_set max_intensity_property_ s in
  causeRender s.

Definition setDecayTime (time : float) (s : State) : State :=
  let s := set_point_decay_time_ time s in
  let s := changed_if_set decay_time_property_ s in
  causeRender s.

Definition setAutoComputeIntensityBounds (compute : bool) (s : State) : State :=
  let s := set_auto_compute_intensity_bounds_ compute s in
  let s := changed_if_set auto_compute_intensity_bounds_property_ s in
  causeRender s.

Definition setStyle (style : Z) (s : State) : Outcome State :=
  _ ← ROS_ASSERT (style <? StyleCount);
  let s := set_style_ style s in
  let s := set_cloud_ (OgrePointCloud.setUsePoints (style =? Points) (cloud_ s)) s in
  let s := changed_if_set style_property_ s in
  Returns (causeRender s).

Definition setChannelColorIndex (channel_color_idx : Z) (s : State) : Outcome State :=
  _ ← ROS_ASSERT (channel_color_idx <? ChannelRenderCount);
  Returns (set_channel_color_idx_ channel_color_idx s).

Definition setBillboardSize (size : float) (s : State) : State :=
  let s := set_billboard_size_ size s in
  let s := set_cloud_ (OgrePointCloud.setBillboardDimensions size size (cloud_ s)) s in
  let s := changed_if_set billboard_size_property_ s in
  causeRender s.

Definition getChannelColorIndex (s : State) : Z := channel_color_idx_ s.

(** ** Construction, enabling, resetting *)

(** The member initialisers of the constructor.  [alpha_] has none; it is
    written by [setAlpha(1.0f)] before anything reads it. *)
Definition member_initialisers (name fixed_frame : string) : State :=
  {| name_ := name;
     fixed_frame_ := fixed_frame;
     clouds_ := [];
     new_cloud_ := false;
     cloud_ := OgrePointCloud.mk [] 1%Q false (0%Q, 0%Q);
     min_color_ := Color.mk 0 0 0;
     max_color_ := Color.mk 1 1 1;
     min_intensity_ := 0%Q;
     max_intensity_ := 4096%Q;
     auto_compute_intensity_bounds_ := true;
     intensity_bounds_changed_ := false;
     style_ := Billboards;
     channel_color_idx_ := -1;
     billboard_size_ := (1/100)%Q;
     point_decay_time_ := 0%Q;
     alpha_ := 0%Q;
     non_null := fun _ => false;
     channel_options_ := [];
     trace_ := [] |}.

(** The constructor. *)
Definition PointCloudBase (name fixed_frame : string) : Outcome State :=
  let s := member_initialisers name fixed_frame in
  s ← setStyle (style_ s) s;
  let s := setBillboardSize (billboard_size_ s) s in
  s ← setChannelColorIndex (channel_color_idx_ s) s;
  Returns (setAlpha 1%Q s).

(** [createProperties()]: every property pointer is set; the channel
    property starts without options. *)
Definition createProperties (s : State) : State :=
  set_channel_options_ [] (set_non_null (fun _ => true) s).

Definition onEnable (s : State) : State := s.

Definition onDisable (s : State) : State :=
  let s := set_clouds_ [] s in
  set_cloud_ (OgrePointCloud.clear (cloud_ s)) s.

Definition reset (s : State) : State :=
  let s := set_clouds_ [] s in
  set_cloud_ (OgrePointCloud.clear (cloud_ s)) s.

Definition fixedFrameChanged (s : State) : State := reset s.

(** ** The per-frame tick *)

(** [info->time_ += dt] *)
Definition add_time (dt : float) (info : CloudInfo.t) : CloudInfo.t :=
  CloudInfo.mk (CloudInfo.message_ info) (CloudInfo.time_ info + dt)%Q
    (CloudInfo.num_points_ info).

(** [while (!clouds_.empty() && clouds_.front()->time_ > point_decay_time_)]:
    every iteration pops the front, so the loop is a recursion on the
    deque. *)
Fixpoint pop_expired (decay : float) (clouds : list CloudInfo.t)
    (cloud : OgrePointCloud.t) (removed : bool)
  : list CloudInfo.t * OgrePointCloud.t * bool :=
  match clouds with
  | [] => (clouds, cloud, removed)
  | front :: rest =>
      if float_gt (CloudInfo.time_ front) decay
      then pop_expired decay rest
             (OgrePointCloud.popPoints (CloudInfo.num_points_ front) cloud) true
      else (clouds, cloud, removed)
  end.

(** A call through a property pointer: undefined when the pointer is NULL. *)
Definition through (p : PropertyPtr) (s : State) : Outcome unit :=
  if non_null s p then Returns tt else UndefinedBehaviour.

(** [channel_property_->clear()] *)
Definition channel_property_clear (s : State) : Outcome State :=
  _ ← through channel_property_ s;
  Returns (set_channel_options_ [] s).

(** [channel_property_->addOption(label, value)] *)
Definition channel_property_addOption (label : string) (value : Z) (s : State)
  : Outcome State :=
  _ ← through channel_property_ s;
  Returns (set_channel_options_ (channel_options_ s ++ [(label, value)]) s).

(** The loop over the channels of the front cloud. *)
Fixpoint offer_channels (chans : list ChannelFloat32.t) (channel_color_idx : Z)
    (s : State) : Outcome (Z * State) :=
  match chans with
  | [] => Returns (channel_color_idx, s)
  | chan :: rest =>
      let name := ChannelFloat32.name chan in
      '(channel_color_idx, s) ←
        (if String.eqb name "intensity" || String.eqb name "intensities" then
           let idx := if channel_color_idx =? -1 then Intensity
                      else channel_color_idx in
           s ← channel_property_addOption "Intensity" Intensity s;
           Returns (idx, s)
         else if String.eqb name "rgb" || String.eqb name "r" then
           let idx := if channel_color_idx =? -1 then ColorRGBSpace
                      else channel_color_idx in
           s ← channel_property_addOption "Color (RGB)" ColorRGBSpace s;
           Returns (idx, s)
         else if String.eqb name "nx" then
           let idx := if channel_color_idx =? -1 then NormalSphere
                      else channel_color_idx in
           s ← channel_property_addOption "Normal Sphere" NormalSphere s;
           Returns (idx, s)
         else if String.eqb name "curvature" || String.eqb name "curvatures" then
           let idx := if channel_color_idx =? -1 then Curvature
                      else channel_color_idx in
           s ← channel_property_addOption "Curvature" Curvature s;
           Returns (idx, s)
         else Returns (channel_color_idx, s));
      offer_channels rest channel_color_idx s
  end.

(** First block of [update]: re-apply the bounds after an automatic change. *)
Definition update_bounds (s : State) : State :=
  if intensity_bounds_changed_ s then
    let s := setMinIntensity (min_intensity_ s) s in
    let s := setMaxIntensity (max_intensity_ s) s in
    set_intensity_bounds_changed_ false s
  else s.

(** The loop adding [dt] to every [time_]. *)
Definition update_times (dt : float) (s : State) : State :=
  set_clouds_ (map (add_time dt) (clouds_ s)) s.

(** [if (point_decay_time_ > 0.0f) { ... }] *)
Definition update_decay (s : State) : State :=
  if float_gt (point_decay_time_ s) 0 then
    let '(clouds, cloud, removed) :=
      pop_expired (point_decay_time_ s) (clouds_ s) (cloud_ s) false in
    let s := set_cloud_ cloud (set_clouds_ clouds s) in
    if removed then causeRender s else s
  else s.

(** [if (new_cloud_ && !clouds_.empty()) { ... }] *)
Definition update_channels (s : State) : Outcome State :=
  match clouds_ s with
  | front :: _ =>
      if new_cloud_ s then
        let cloud := CloudInfo.message_ front in
        let channel_color_idx := getChannelColorIndex s in
        s ← channel_property_clear s;
        '(channel_color_idx, s) ←
          offer_channels (PointCloud.chan cloud) channel_color_idx s;
        let s := changed_if_set channel_property_ s in
        setChannelColorIndex channel_color_idx s
      else Returns s
  | [] => Returns s
  end.

Definition update (dt : float) (s : State) : Outcome State :=
  let s := update_bounds s in
  let s := update_times dt s in
  let s := update_decay s in
  s ← update_channels s;
  Returns (set_new_cloud_ false s).

(** ** Colorizers *)

Definition transformIntensity (val : float) (point : Point.t)
    (min_color : Color.t) (min_intensity max_intensity diff_intensity : float)
  : Point.t :=
  let normalized_intensity :=
    (if float_gt diff_intensity 0
     then (val - min_intensity) / diff_intensity else 1)%Q in
  let normalized_intensity := std_min 1 (std_max 0 normalized_intensity) in
  Point.mk (Point.x_ point) (Point.y_ point) (Point.z_ point)
    (Point.r_ point * normalized_intensity
       + Color.r_ min_color * (1 - normalized_intensity))%Q
    (Point.g_ point * normalized_intensity
       + Color.g_ min_color * (1 - normalized_intensity))%Q
    (Point.b_ point * normalized_intensity
       + Color.b_ min_color * (1 - normalized_intensity))%Q.

(** The object representation of a [float] is its IEEE-754 binary32
    encoding: one sign bit, eight bits of biased exponent, 23 bits of
    fraction.  Every finite magnitude is a multiple of [2^-149]. *)
Definition binary32_unit : float := inject_Z (2 ^ 149).

(** The float denoted by a 32-bit pattern (finite patterns). *)
Definition float_of_bits (w : Z) : float :=
  let biased := Z.land (Z.shiftr w 23) 255 in
  let fraction := Z.land w (2 ^ 23 - 1) in
  let significand := if biased =? 0 then fraction else 2 ^ 23 + fraction in
  let magnitude :=
    (inject_Z (significand * 2 ^ (Z.max biased 1 - 1)) / binary32_unit)%Q in
  if Z.testbit w 31 then (- magnitude)%Q else magnitude.

(** The 32-bit pattern of a float. *)
Definition bits_of_float (val : float) : Z :=
  let scaled := Qfloor (Qabs val * binary32_unit)%Q in
  let e := Z.max 0 (Z.log2 scaled - 23) in
  let magnitude :=
    if 254 <=? e then 255 * 2 ^ 23 else e * 2 ^ 23 + Z.shiftr scaled e in
  if float_lt val 0 then 2 ^ 31 + magnitude else magnitude.

(** [*reinterpret_cast<int*>(&val)]: the pattern read as a two's-complement
    [int]. *)
Definition reinterpret_as_int (val : float) : Z :=
  let w := bits_of_float val in
  if w <? 2 ^ 31 then w else w - 2 ^ 32.

Definition transformRGB (val : float) (point : Point.t)
    (_ : Color.t) (_ _ _ : float) : Point.t :=
  let rgb := reinterpret_as_int val in
  Point.mk (Point.x_ point) (Point.y_ point) (Point.z_ point)
    (inject_Z (Z.land (Z.shiftr rgb 16) 255) / 255)%Q
    (inject_Z (Z.land (Z.shiftr rgb 8) 255) / 255)%Q
    (inject_Z (Z.land rgb 255) / 255)%Q.

Definition transformR (val : float) (point : Point.t)
    (_ : Color.t) (_ _ _ : float) : Point.t :=
  Point.mk (Point.x_ point) (Point.y_ point) (Point.z_ point)
    val (Point.g_ point) (Point.b_ point).

Definition transformG (val : float) (point : Point.t)
    (_ : Color.t) (_ _ _ : float) : Point.t :=
  Point.mk (Point.x_ point) (Point.y_ point) (Point.z_ point)
    (Point.r_ point) val (Point.b_ point).

Definition transformB (val : float) (point : Point.t)
    (_ : Color.t) (_ _ _ : float) : Point.t :=
  Point.mk (Point.x_ point) (Point.y_ point) (Point.z_ point)
    (Point.r_ point) (Point.g_ point) val.

Inductive ChannelType : Type := CT_INTENSITY | CT_RGB | CT_R | CT_G | CT_B.

Definition TransformFunc : Type :=
  float -> Point.t -> Color.t -> float -> float -> float -> Point.t.

(** The table [funcs]. *)
Definition funcs (type : ChannelType) : TransformFunc :=
  match type with
  | CT_INTENSITY => transformIntensity
  | CT_RGB => transformRGB
  | CT_R => transformR
  | CT_G => transformG
  | CT_B => transformB
  end.

(** ** Ingest *)

Definition is_intensity_name (name : string) : bool :=
  String.eqb name "intensity" || String.eqb name "intensities".

Definition is_curvature_name (name : string) : bool :=
  String.eqb name "curvature" || String.eqb name "curvatures".

(** Modelled from the spec: [getROSCloudChannelIndex] of [common.h], which is
    not part of [src/]: the position of the channel with the given name, or
    [-1] when the cloud has none. *)
Fixpoint channel_index_from (chans : list ChannelFloat32.t) (name : string)
    (index : Z) : Z :=
  match chans with
  | [] => -1
  | chan :: rest =>
      if String.eqb (ChannelFloat32.name chan) name then index
      else channel_index_from rest name (index + 1)
  end.

Definition getROSCloudChannelIndex (cloud : PointCloud.t) (name : string) : Z :=
  channel_index_from (PointCloud.chan cloud) name 0.

(** Body of the loop that caps the values of a channel and widens the
    bounds; [vals] is [chan.vals]. *)
Definition bounds_body (i : nat) (a : list float * State)
  : Outcome (list float * State) :=
  let '(vals, s) := a in
  intensity ← vec_at vals i;
  let intensity := std_min intensity 4096 in
  let vals := <[i := intensity]> vals in
  let s := set_min_intensity_ (std_min (min_intensity_ s) intensity) s in
  let s := set_max_intensity_ (std_max (max_intensity_ s) intensity) s in
  Returns (vals, s).

(** The block shared, word for word, by the intensity and the curvature
    branch. *)
Definition compute_intensity_bounds (point_count : nat)
    (chan : ChannelFloat32.t) (s : State) : Outcome (ChannelFloat32.t * State) :=
  let s := set_min_intensity_ 999999 s in
  let s := set_max_intensity_ (-999999) s in
  '(vals, s) ← for_loop point_count 0 bounds_body (ChannelFloat32.vals chan, s);
  Returns (ChannelFloat32.mk (ChannelFloat32.name chan) vals,
           set_intensity_bounds_changed_ true s).

(** Body of the first loop over the channels: size, automatic bounds,
    normals.  The result starts with the value stored in
    [valid_channels[index]]. *)
Definition check_channel (point_count : nat) (chan : ChannelFloat32.t)
    (use_normals_as_coordinates : bool) (s : State)
  : Outcome (bool * ChannelFloat32.t * bool * State) :=
  let name := ChannelFloat32.name chan in
  let val_count := length (ChannelFloat32.vals chan) in
  let channel_size_correct := Nat.eqb val_count point_count in
  let s := if channel_size_correct then s
           else emit (RosErrorChannelSize (name_ s) val_count point_count) s in
  if auto_compute_intensity_bounds_ s && channel_size_correct
       && is_intensity_name name && (channel_color_idx_ s =? Intensity)
  then
    '(chan, s) ← compute_intensity_bounds point_count chan s;
    Returns (channel_size_correct, chan, use_normals_as_coordinates, s)
  else if auto_compute_intensity_bounds_ s && channel_size_correct
       && is_curvature_name name && (channel_color_idx_ s =? Curvature)
  then
    '(chan, s) ← compute_intensity_bounds point_count chan s;
    Returns (channel_size_correct, chan, use_normals_as_coordinates, s)
  else if String.eqb name "nx" && (channel_color_idx_ s =? NormalSphere)
  then Returns (channel_size_correct, chan, true, s)
  else Returns (channel_size_correct, chan, use_normals_as_coordinates, s).

(** First loop over the channels. *)
Fixpoint check_channels (point_count : nat) (chans : list ChannelFloat32.t)
    (use_normals_as_coordinates : bool) (s : State)
  : Outcome (list bool * list ChannelFloat32.t * bool * State) :=
  match chans with
  | [] => Returns ([], [], use_normals_as_coordinates, s)
  | chan :: rest =>
      '(valid, chan, use_normals_as_coordinates, s) ←
        check_channel point_count chan use_normals_as_coordinates s;
      '(valid_channels, chans, use_normals_as_coordinates, s) ←
        check_channels point_count rest use_normals_as_coordinates s;
      Returns (valid :: valid_channels, chan :: chans,
               use_normals_as_coordinates, s)
  end.

(** The name tests of the second loop over the channels. *)
Definition channel_type (name : string) : option ChannelType :=
  if is_intensity_name name || String.eqb name "curvatures"
     || String.eqb name "curvature" then Some CT_INTENSITY
  else if String.eqb name "rgb" then Some CT_RGB
  else if String.eqb name "r" then Some CT_R
  else if String.eqb name "g" then Some CT_G
  else if String.eqb name "b" then Some CT_B
  else None.

Definition colors_points (channel_color_idx : Z) (name : string) : bool :=
  ((channel_color_idx =? Intensity) && is_intensity_name name)
  || ((channel_color_idx =? Curvature) && is_curvature_name name)
  || ((channel_color_idx =? ColorRGBSpace)
      && (String.eqb name "rgb" || String.eqb name "r"
          || String.eqb name "g" || String.eqb name "b")).

(** Body of the loop "Color all points". *)
Definition color_body (chan : ChannelFloat32.t) (type : ChannelType)
    (s : State) (diff_intensity : float) (i : nat) (points : list Point.t)
  : Outcome (list Point.t) :=
  current_point ← vec_at points i;
  val ← vec_at (ChannelFloat32.vals chan) i;
  Returns (<[i := funcs type val current_point (min_color_ s)
                    (min_intensity_ s) (max_intensity_ s) diff_intensity]>
             points).

(** Body of the second loop over the channels. *)
Definition color_channel (point_count : nat) (chan : ChannelFloat32.t)
    (index : nat) (valid_channels : list bool) (s : State)
    (diff_intensity : float) (points : list Point.t) : Outcome (list Point.t) :=
  valid ← vec_at valid_channels index;
  if negb valid then Returns points
  else
    match channel_type (ChannelFloat32.name chan) with
    | None => Returns points
    | Some type =>
        if colors_points (channel_color_idx_ s) (ChannelFloat32.name chan)
        then for_loop point_count 0
               (color_body chan type s diff_intensity) points
        else Returns points
    end.

(** Second loop over the channels. *)
Fixpoint color_channels (point_count : nat) (chans : list ChannelFloat32.t)
    (index : nat) (valid_channels : list bool) (s : State)
    (diff_intensity : float) (points : list Point.t) : Outcome (list Point.t) :=
  match chans with
  | [] => Returns points
  | chan :: rest =>
      points ← color_channel point_count chan index valid_channels s
                 diff_intensity points;
      color_channels point_count rest (S index) valid_channels s
        diff_intensity points
  end.

Section Ingest.

(** [tf_->transformPointCloud(target_frame, cloud, cloud)]: the cloud as
    rewritten by the transform service, or [None] when it throws
    [tf::TransformException] and leaves the cloud as it was. *)
Variable transformPointCloud : string -> PointCloud.t -> option PointCloud.t.

(** [robotToOgre] of [common.h], which is not part of [src/]: any change
    of axes. *)
Variable robotToOgre : Vector3.t -> Vector3.t.

(** Body of the loop that fills [points]. *)
Definition coordinate_body (cloud : PointCloud.t)
    (use_normals_as_coordinates : bool) (nx_idx ny_idx nz_idx : Z)
    (max_color : Color.t) (i : nat) (points : list Point.t)
  : Outcome (list Point.t) :=
  _ ← vec_at points i;
  '(x, y, z) ←
    (if use_normals_as_coordinates && negb (nx_idx =? -1)
          && negb (ny_idx =? -1) && negb (nz_idx =? -1)
     then
       nx ← vec_at (PointCloud.chan cloud) (Z.to_nat nx_idx);
       x ← vec_at (ChannelFloat32.vals nx) i;
       ny ← vec_at (PointCloud.chan cloud) (Z.to_nat ny_idx);
       y ← vec_at (ChannelFloat32.vals ny) i;
       nz ← vec_at (PointCloud.chan cloud) (Z.to_nat nz_idx);
       z ← vec_at (ChannelFloat32.vals nz) i;
       Returns (x, y, z)
     else
       p ← vec_at (PointCloud.pts cloud) i;
       Returns (Point32.x p, Point32.y p, Point32.z p));
  let position := robotToOgre (Vector3.mk x y z) in
  Returns (<[i := Point.mk (Vector3.x position) (Vector3.y position)
                    (Vector3.z position)
                    (Color.r_ max_color) (Color.g_ max_color)
                    (Color.b_ max_color)]> points).

Definition transformCloud (info : CloudInfo.t) (s : State)
  : Outcome (CloudInfo.t * State) :=
  let cloud := CloudInfo.message_ info in
  let frame_id :=
    if String.eqb (PointCloud.frame_id cloud) EmptyString
    then fixed_frame_ s else PointCloud.frame_id cloud in
  let transformed := transformPointCloud (fixed_frame_ s) cloud in
  let s :=
    match transformed with
    | Some _ => s
    | None => emit (RosErrorTransform (name_ s) frame_id (fixed_frame_ s)) s
    end in
  let cloud :=
    match transformed with
    | Some transformed => transformed
    | None => cloud
    end in
  let point_count := PointCloud.get_pts_size cloud in
  '(valid_channels, chans, use_normals_as_coordinates, s) ←
    check_channels point_count (PointCloud.chan cloud) false s;
  let cloud :=
    PointCloud.mk (PointCloud.frame_id cloud) (PointCloud.pts cloud) chans in
  let nx_idx := getROSCloudChannelIndex cloud "nx" in
  let ny_idx := getROSCloudChannelIndex cloud "ny" in
  let nz_idx := getROSCloudChannelIndex cloud "nz" in
  let '(use_normals_as_coordinates, s) :=
    if use_normals_as_coordinates && ((ny_idx =? -1) || (nz_idx =? -1))
    then (false, emit RosWarnNormals s)
    else (use_normals_as_coordinates, s) in
  let diff_intensity := (max_intensity_ s - min_intensity_ s)%Q in
  points ← for_loop point_count 0
             (coordinate_body cloud use_normals_as_coordinates
                nx_idx ny_idx nz_idx (max_color_ s))
             (replicate point_count Point.zero);
  points ← color_channels point_count (PointCloud.chan cloud) 0
             valid_channels s diff_intensity points;
  let renderer :=
    if float_eq (point_decay_time_ s) 0
    then OgrePointCloud.clear (cloud_ s) else cloud_ s in
  let renderer :=
    match points with
    | [] => renderer
    | _ :: _ => OgrePointCloud.addPoints points renderer
    end in
  let s := set_cloud_ renderer s in
  Returns (CloudInfo.mk cloud (CloudInfo.time_ info) point_count,
           causeRender s).

Definition processMessage (cloud : PointCloud.t) (s : State) : Outcome State :=
  let info := CloudInfo.mk cloud 0 0 in
  '(info, s) ← transformCloud info s;
  let s := if float_eq (point_decay_time_ s) 0 then set_clouds_ [] s else s in
  let s := set_clouds_ (clouds_ s ++ [info]) s in
  Returns (set_new_cloud_ true s).

Definition addMessage (cloud : PointCloud.t) (s : State) : Outcome State :=
  processMessage cloud s.

End Ingest.

(** ** Sequences of calls *)

(** The public member functions, as calls with their arguments. *)
Inductive Call : Type :=
| CallCreateProperties
| CallSetStyle (style : Z)
| CallSetBillboardSize (size : float)
| CallSetAlpha (alpha : float)
| CallSetMinColor (color : Color.t)
| CallSetMaxColor (color : Color.t)
| CallSetDecayTime (time : float)
| CallSetAutoComputeIntensityBounds (compute : bool)
| CallSetMinIntensity (val : float)
| CallSetMaxIntensity (val : float)
| CallSetChannelColorIndex (channel_color_idx : Z)
| CallOnEnable
| CallOnDisable
| CallUpdate (dt : float)
| CallAddMessage (cloud : PointCloud.t)
| CallFixedFrameChanged
| CallReset.

Section Calls.

Variable transformPointCloud : string -> PointCloud.t -> option PointCloud.t.
Variable robotToOgre : Vector3.t -> Vector3.t.

Definition call (c : Call) (s : State) : Outcome State :=
  match c with
  | CallCreateProperties => Returns (createProperties s)
  | CallSetStyle style => setStyle style s
  | CallSetBillboardSize size => Returns (setBillboardSize size s)
  | CallSetAlpha alpha => Returns (setAlpha alpha s)
  | CallSetMinColor color => Returns (setMinColor color s)
  | CallSetMaxColor color => Returns (setMaxColor color s)
  | CallSetDecayTime time => Returns (setDecayTime time s)
  | CallSetAutoComputeIntensityBounds compute =>
      Returns (setAutoComputeIntensityBounds compute s)
  | CallSetMinIntensity val => Returns (setMinIntensity val s)
  | CallSetMaxIntensity val => Returns (setMaxIntensity val s)
  | CallSetChannelColorIndex idx => setChannelColorIndex idx s
  | CallOnEnable => Returns (onEnable s)
  | CallOnDisable => Returns (onDisable s)
  | CallUpdate dt => update dt s
  | CallAddMessage cloud => addMessage transformPointCloud robotToOgre cloud s
  | CallFixedFrameChanged => Returns (fixedFrameChanged s)
  | CallReset => Returns (reset s)
  end.

Fixpoint run (calls : list Call) (s : State) : Outcome State :=
  match calls with
  | [] => Returns s
  | c :: rest => s ← call c s; run rest s
  end.

End Calls.

(** ** Observations the properties are stated with *)

(** Number of points the renderer holds. *)
Definition renderer_total (s : State) : nat :=
  length (OgrePointCloud.points (cloud_ s)).

(** Sum of [num_points_] over the buffered clouds. *)
Definition buffer_total (clouds : list CloudInfo.t) : nat :=
  sum_list_with CloudInfo.num_points_ clouds.

Definition counts_aligned (s : State) : Prop :=
  renderer_total s = buffer_total (clouds_ s).

Definition bounds_ordered (s : State) : Prop :=
  (min_intensity_ s <= max_intensity_ s)%Q.

(** The events a call added to the trace. *)
Definition new_events (before after : State) : list Event :=
  drop (length (trace_ before)) (trace_ after).

(** What ingest leaves alone while it works on a cloud: everything but the
    intensity bounds, their flag and the trace. *)
Definition same_settings (s s' : State) : Prop :=
  clouds_ s' = clouds_ s
  /\ cloud_ s' = cloud_ s
  /\ point_decay_time_ s' = point_decay_time_ s
  /\ channel_color_idx_ s' = channel_color_idx_ s
  /\ auto_compute_intensity_bounds_ s' = auto_compute_intensity_bounds_ s
  /\ min_color_ s' = min_color_ s
  /\ max_color_ s' = max_color_ s
  /\ name_ s' = name_ s
  /\ new_cloud_ s' = new_cloud_ s
  /\ non_null s' = non_null s.

(** Same name, same number of values. *)
Definition same_shape (chan chan' : ChannelFloat32.t) : Prop :=
  ChannelFloat32.name chan' = ChannelFloat32.name chan
  /\ length (ChannelFloat32.vals chan') = length (ChannelFloat32.vals chan).

(** [valid_channels] as the first loop fills it. *)
Definition well_formed (point_count : nat) (chan : ChannelFloat32.t) : bool :=
  Nat.eqb (length (ChannelFloat32.vals chan)) point_count.

(** A channel all of whose values are [v]. *)
Definition constant_channel (v : float) (chan : ChannelFloat32.t) : Prop :=
  Forall (fun x => (x == v)%Q) (ChannelFloat32.vals chan).

(** A channel the automatic bounds are taken from under the intensity
    selection. *)
Definition intensity_source (point_count : nat) (chan : ChannelFloat32.t)
  : bool :=
  well_formed point_count chan && is_intensity_name (ChannelFloat32.name chan).

(** A channel has a value for every point. *)
Definition covers (point_count : nat) (chan : ChannelFloat32.t) : Prop :=
  (point_count <= length (ChannelFloat32.vals chan))%nat.

(** The channels the normal sphere reads. *)
Definition is_normal_name (name : string) : bool :=
  String.eqb name "nx" || String.eqb name "ny" || String.eqb name "nz".

(** The cloud ingest works on: the reprojected one, or the cloud as received
    when the transform service has thrown. *)
Definition reprojected
    (transformPointCloud : string -> PointCloud.t -> option PointCloud.t)
    (s : State) (cloud : PointCloud.t) : PointCloud.t :=
  match transformPointCloud (fixed_frame_ s) cloud with
  | Some transformed => transformed
  | None => cloud
  end.

(** The points of the renderer that ingest starts from. *)
Definition kept_points (s : State) : list Point.t :=
  if float_eq (point_decay_time_ s) 0 then []
  else OgrePointCloud.points (cloud_ s).

(** The buffer that ingest appends to. *)
Definition kept_clouds (s : State) : list CloudInfo.t :=
  if float_eq (point_decay_time_ s) 0 then [] else clouds_ s.


(** Same colour, component by component. *)
Definition has_color (c : Color.t) (p : Point.t) : Prop :=
  (Point.r_ p == Color.r_ c /\ Point.g_ p == Color.g_ c
   /\ Point.b_ p == Color.b_ c)%Q.

(** [clamp(x, 0, 1)] in the words of the specification. *)
Definition clamp01 (x : float) : float :=
  if Qlt_le_dec x 0 then 0%Q else if Qlt_le_dec 1 x then 1%Q else x.

(** [0x00RRGGBB] *)
Definition pack_rgb (r g b : Z) : Z :=
  Z.lor (Z.shiftl r 16) (Z.lor (Z.shiftl g 8) b).

(** The option a channel name adds to the channel property in [update]. *)
Definition offered_option (name : string) : option (string * Z) :=
  if is_intensity_name name then Some ("Intensity"%string, Intensity)
  else if String.eqb name "rgb" || String.eqb name "r"
  then Some ("Color (RGB)"%string, ColorRGBSpace)
  else if String.eqb name "nx" then Some ("Normal Sphere"%string, NormalSphere)
  else if is_curvature_name name then Some ("Curvature"%string, Curvature)
  else None.

(** The selection [update] ends with: a [-1] selection is replaced by the
    role of the first channel with an offered name. *)
Definition first_role (channel_color_idx : Z) (chans : list ChannelFloat32.t)
  : Z :=
  if channel_color_idx =? -1 then
    match omap (fun chan => offered_option (ChannelFloat32.name chan)) chans with
    | (_, role) :: _ => role
    | [] => -1
    end
  else channel_color_idx.

(** The registry as the specification words it: every one of [rgb], [r],
    [g], [b] stands for "Color (RGB)". *)
Definition registry_option (name : string) : option (string * Z) :=
  if is_intensity_name name then Some ("Intensity"%string, Intensity)
  else if String.eqb name "rgb" || String.eqb name "r"
          || String.eqb name "g" || String.eqb name "b"
  then Some ("Color (RGB)"%string, ColorRGBSpace)
  else if String.eqb name "nx" then Some ("Normal Sphere"%string, NormalSphere)
  else if is_curvature_name name then Some ("Curvature"%string, Curvature)
  else None.

(** The options the channel property would hold if they were rebuilt, by
    the registry of the specification, from the newest buffered cloud. *)
Definition offers_registry_of_newest (s : State) : Prop :=
  forall option : string * Z,
    In option (channel_options_ s) <->
    exists newest chan,
      last (clouds_ s) = Some newest
      /\ In chan (PointCloud.chan (CloudInfo.message_ newest))
      /\ registry_option (ChannelFloat32.name chan) = Some option.

(** Calls that clear the buffer. *)
Definition clears_buffer (c : Call) : bool :=
  match c with
  | CallReset | CallFixedFrameChanged | CallOnDisable => true
  | _ => false
  end.

(** Whether a message has been received since the last reset. *)
Fixpoint received_since_reset (calls : list Call) (received : bool) : bool :=
  match calls with
  | [] => received
  | CallAddMessage _ :: rest => received_since_reset rest true
  | c :: rest =>
      received_since_reset rest (if clears_buffer c then false else received)
  end.

(** Calls that neither clear the buffer nor move the decay time away
    from zero. *)
Definition keeps_latest (c : Call) : Prop :=
  clears_buffer c = false /\
  match c with
  | CallSetDecayTime time => (time == 0)%Q
  | _ => True
  end.

(** ** Concrete inputs *)

Module Sample.

(** A transform service that finds every frame and moves nothing. *)
Definition identity_transform (_ : string) (cloud : PointCloud.t)
  : option PointCloud.t := Some cloud.

(** An axis convention. *)
Definition axes (v : Vector3.t) : Vector3.t :=
  Vector3.mk (- Vector3.y v) (Vector3.z v) (- Vector3.x v).

(** The display after construction and [createProperties()]. *)
Definition ready : State :=
  createProperties (setAlpha 1 (setBillboardSize (1/100)
    (causeRender (member_initialisers "cloud" "map")))).

(** The same display with the intensity channel selected. *)
Definition ready_intensity : State := set_channel_color_idx_ Intensity ready.

(** The same display with the normal sphere selected. *)
Definition ready_normals : State := set_channel_color_idx_ NormalSphere ready.

(** Three points with an intensity ramp. *)
Definition ramp : PointCloud.t :=
  PointCloud.mk "base"
    [Point32.mk 0 0 0; Point32.mk 1 0 0; Point32.mk 2 0 0]
    [ChannelFloat32.mk "intensity" [0%Q; 2%Q; 4%Q]].

(** Two points of the same intensity. *)
Definition flat : PointCloud.t :=
  PointCloud.mk "base" [Point32.mk 0 0 0; Point32.mk 1 0 0]
    [ChannelFloat32.mk "intensity" [7%Q; 7%Q]].

(** No points, and an intensity channel without values: well-formed. *)
Definition empty_cloud : PointCloud.t :=
  PointCloud.mk "base" [] [ChannelFloat32.mk "intensity" []].

(** One point; [nx] has no value for it, [ny] and [nz] have. *)
Definition short_normals : PointCloud.t :=
  PointCloud.mk "base" [Point32.mk 1 2 3]
    [ChannelFloat32.mk "nx" [];
     ChannelFloat32.mk "ny" [0%Q];
     ChannelFloat32.mk "nz" [1%Q]].

(** One point with a green component only. *)
Definition green_only : PointCloud.t :=
  PointCloud.mk "base" [Point32.mk 0 0 0] [ChannelFloat32.mk "g" [1%Q]].

(** A display whose buffer holds [green_only], not yet offered. *)
Definition pending_green : State :=
  set_new_cloud_ true
    (set_cloud_ (OgrePointCloud.addPoints [Point.mk 0 0 0 1 1 1] (cloud_ ready))
       (set_clouds_ [CloudInfo.mk green_only 0 1] ready)).

(** A display whose buffer holds [ramp], not yet offered. *)
Definition pending_ramp : State :=
  set_new_cloud_ true
    (set_cloud_ (OgrePointCloud.addPoints
                   [Point.mk 0 0 0 1 1 1; Point.mk 0 0 (-1) 1 1 1;
                    Point.mk 0 0 (-2) 1 1 1] (cloud_ ready))
       (set_clouds_ [CloudInfo.mk ramp 0 3] ready)).

(** Accumulate two clouds, then set the decay time to zero. *)
Definition accumulate_then_zero : list Call :=
  [CallSetDecayTime 1; CallAddMessage ramp; CallAddMessage ramp;
   CallSetDecayTime 0].

(** Two points, a tenth of a second, three points, under a decay time of
    half a second. *)
Definition two_clouds : list Call :=
  [CallSetDecayTime (1/2); CallAddMessage flat; CallUpdate (1/10);
   CallAddMessage ramp].

(** Calls after which the buffer still holds the latest cloud only. *)
Definition quiet_calls : list Call :=
  [CallUpdate 1; CallSetAlpha (1/2); CallAddMessage ramp; CallUpdate 5;
   CallSetDecayTime 0].

End Sample.

(** ** The ingest pipeline, as functions of the cloud *)

(** [std::min( intensity, 4096.0f )] *)
Definition cap (intensity : float) : float := std_min intensity 4096.

(** The minimum and the maximum the loop over a channel arrives at, from the
    values it starts with. *)
Definition low_bound (vals : list float) (start : float) : float :=
  fold_left (fun m x => std_min m (cap x)) vals start.

Definition high_bound (vals : list float) (start : float) : float :=
  fold_left (fun m x => std_max m (cap x)) vals start.

(** The channels the automatic bounds are recomputed from. *)
Definition is_source (s : State) (point_count : nat) (chan : ChannelFloat32.t)
  : bool :=
  auto_compute_intensity_bounds_ s && well_formed point_count chan
  && ((is_intensity_name (ChannelFloat32.name chan)
       && (channel_color_idx_ s =? Intensity))
      || (is_curvature_name (ChannelFloat32.name chan)
          && (channel_color_idx_ s =? Curvature))).

(** A channel as the first loop leaves it in the message. *)
Definition checked_channel (s : State) (point_count : nat)
    (chan : ChannelFloat32.t) : ChannelFloat32.t :=
  if is_source s point_count chan
  then ChannelFloat32.mk (ChannelFloat32.name chan)
         (map cap (ChannelFloat32.vals chan))
  else chan.

(** What the first loop logs for a channel. *)
Definition size_errors (s : State) (point_count : nat)
    (chan : ChannelFloat32.t) : list Event :=
  if well_formed point_count chan then []
  else [RosErrorChannelSize (name_ s) (length (ChannelFloat32.vals chan))
          point_count].

(** The bounds and their flag after the first loop has seen a channel. *)
Definition checked_bounds (s : State) (point_count : nat)
    (chan : ChannelFloat32.t) (bounds : float * float * bool)
  : float * float * bool :=
  if is_source s point_count chan
  then (low_bound (ChannelFloat32.vals chan) 999999,
        high_bound (ChannelFloat32.vals chan) (-999999), true)
  else bounds.

(** Whether the first loop asks for the normals as coordinates. *)
Definition wants_normals (s : State) (chans : list ChannelFloat32.t) : bool :=
  (channel_color_idx_ s =? NormalSphere)
  && existsb (fun chan => String.eqb (ChannelFloat32.name chan) "nx") chans.

(** A state with other bounds and another flag. *)
Definition with_bounds (bounds : float * float * bool) (s : State) : State :=
  set_intensity_bounds_changed_ bounds.2
    (set_max_intensity_ bounds.1.2 (set_min_intensity_ bounds.1.1 s)).

(** The state after the first loop over the channels. *)
Definition checked_state (s : State) (point_count : nat)
    (chans : list ChannelFloat32.t) : State :=
  with_bounds
    (fold_left (fun bounds chan => checked_bounds s point_count chan bounds)
       chans (min_intensity_ s, max_intensity_ s, intensity_bounds_changed_ s))
    (set_trace_ (trace_ s ++ concat (map (size_errors s point_count) chans)) s).

(** The colorizer of the second loop, applied to a channel value and a
    point. *)
Definition colorize (type : ChannelType) (s : State) (diff_intensity : float)
    (val : float) (point : Point.t) : Point.t :=
  funcs type val point (min_color_ s) (min_intensity_ s) (max_intensity_ s)
    diff_intensity.

(** The colorizer the second loop applies for a channel, if any: the
    channel is well-formed, its name is known and goes with the selection. *)
Definition painter (s : State) (point_count : nat) (chan : ChannelFloat32.t)
  : option ChannelType :=
  if well_formed point_count chan
  then match channel_type (ChannelFloat32.name chan) with
       | Some type =>
           if colors_points (channel_color_idx_ s) (ChannelFloat32.name chan)
           then Some type else None
       | None => None
       end
  else None.

(** The points after the second loop has gone through a channel. *)
Definition paint_channel (s : State) (diff_intensity : float)
    (point_count : nat) (points : list Point.t) (chan : ChannelFloat32.t)
  : list Point.t :=
  match painter s point_count chan with
  | Some type =>
      zip_with (colorize type s diff_intensity) (ChannelFloat32.vals chan) points
  | None => points
  end.

(** One point after the second loop has gone through a channel. *)
Definition paint_point (s : State) (diff_intensity : float)
    (point_count : nat) (i : nat) (point : Point.t) (chan : ChannelFloat32.t)
  : Point.t :=
  match painter s point_count chan, ChannelFloat32.vals chan !! i with
  | Some type, Some val => colorize type s diff_intensity val point
  | _, _ => point
  end.

(** The first channel with a given name, as [getROSCloudChannelIndex] finds
    it. *)
Definition named (name : string) (chans : list ChannelFloat32.t)
  : option ChannelFloat32.t :=
  List.find (fun chan => String.eqb (ChannelFloat32.name chan) name) chans.

(** The three channels the coordinates are read from: the first [nx], [ny]
    and [nz] under the normal-sphere selection, when the cloud has all
    three. *)
Definition normal_channels (s : State) (chans : list ChannelFloat32.t)
  : option (ChannelFloat32.t * ChannelFloat32.t * ChannelFloat32.t) :=
  if channel_color_idx_ s =? NormalSphere then
    match named "nx" chans, named "ny" chans, named "nz" chans with
    | Some nx, Some ny, Some nz => Some (nx, ny, nz)
    | _, _, _ => None
    end
  else None.

(** What point [i] is placed from, before the change of axes; [None] when
    a read is out of range. *)
Definition coordinate_source (s : State) (cloud : PointCloud.t) (i : nat)
  : option Vector3.t :=
  match normal_channels s (PointCloud.chan cloud) with
  | Some (nx, ny, nz) =>
      match ChannelFloat32.vals nx !! i, ChannelFloat32.vals ny !! i,
            ChannelFloat32.vals nz !! i with
      | Some x, Some y, Some z => Some (Vector3.mk x y z)
      | _, _, _ => None
      end
  | None =>
      match PointCloud.pts cloud !! i with
      | Some p => Some (Vector3.mk (Point32.x p) (Point32.y p) (Point32.z p))
      | None => None
      end
  end.

(** A point as the first loop over the points leaves it. *)
Definition placed (robotToOgre : Vector3.t -> Vector3.t) (max_color : Color.t)
    (v : Vector3.t) : Point.t :=
  let position := robotToOgre v in
  Point.mk (Vector3.x position) (Vector3.y position) (Vector3.z position)
    (Color.r_ max_color) (Color.g_ max_color) (Color.b_ max_color).

(** Where a point is. *)
Definition position (point : Point.t) : Vector3.t :=
  Vector3.mk (Point.x_ point) (Point.y_ point) (Point.z_ point).

(** What the transform service makes ingest log. *)
Definition transform_errors
    (transformPointCloud : string -> PointCloud.t -> option PointCloud.t)
    (s : State) (cloud : PointCloud.t) : list Event :=
  match transformPointCloud (fixed_frame_ s) cloud with
  | Some _ => []
  | None =>
      [RosErrorTransform (name_ s)
         (if String.eqb (PointCloud.frame_id cloud) EmptyString
          then fixed_frame_ s else PointCloud.frame_id cloud)
         (fixed_frame_ s)]
  end.

(** The warning about normals: [nx] was asked for and [ny] or [nz] is
    missing. *)
Definition normals_warning (s : State) (chans : list ChannelFloat32.t)
  : list Event :=
  if wants_normals s chans then
    match named "ny" chans, named "nz" chans with
    | Some _, Some _ => []
    | _, _ => [RosWarnNormals]
    end
  else [].

(** What ingest logs before it requests a render. *)
Definition ingest_log
    (transformPointCloud : string -> PointCloud.t -> option PointCloud.t)
    (s : State) (cloud : PointCloud.t) : list Event :=
  let ingested := reprojected transformPointCloud s cloud in
  let point_count := length (PointCloud.pts ingested) in
  transform_errors transformPointCloud s cloud
  ++ concat (map (size_errors s point_count) (PointCloud.chan ingested))
  ++ normals_warning s (PointCloud.chan ingested).

(** The bounds, and their flag, after the first loop over the channels. *)
Definition ingest_bounds (s : State) (point_count : nat)
    (chans : list ChannelFloat32.t) : float * float * bool :=
  fold_left (fun bounds chan => checked_bounds s point_count chan bounds) chans
    (min_intensity_ s, max_intensity_ s, intensity_bounds_changed_ s).

(** The state the points are coloured in. *)
Definition ingest_state
    (transformPointCloud : string -> PointCloud.t -> option PointCloud.t)
    (s : State) (cloud : PointCloud.t) : State :=
  let ingested := reprojected transformPointCloud s cloud in
  let point_count := length (PointCloud.pts ingested) in
  set_trace_ (trace_ s ++ ingest_log transformPointCloud s cloud)
    (with_bounds (ingest_bounds s point_count (PointCloud.chan ingested)) s).

(** The cloud as ingest leaves it in the buffer. *)
Definition ingest_cloud
    (transformPointCloud : string -> PointCloud.t -> option PointCloud.t)
    (s : State) (cloud : PointCloud.t) : PointCloud.t :=
  let ingested := reprojected transformPointCloud s cloud in
  let point_count := length (PointCloud.pts ingested) in
  PointCloud.mk (PointCloud.frame_id ingested) (PointCloud.pts ingested)
    (map (checked_channel s point_count) (PointCloud.chan ingested)).

(** The points ingest hands to the renderer; [None] when a read is out of
    range. *)
Definition ingest_points
    (transformPointCloud : string -> PointCloud.t -> option PointCloud.t)
    (robotToOgre : Vector3.t -> Vector3.t)
    (s : State) (cloud : PointCloud.t) : option (list Point.t) :=
  let ingested := reprojected transformPointCloud s cloud in
  let point_count := length (PointCloud.pts ingested) in
  let s' := ingest_state transformPointCloud s cloud in
  match mapM (coordinate_source s ingested) (seq 0 point_count) with
  | Some sources =>
      Some (fold_left
              (paint_channel s' (max_intensity_ s' - min_intensity_ s')%Q
                 point_count)
              (PointCloud.chan (ingest_cloud transformPointCloud s cloud))
              (map (placed robotToOgre (max_color_ s)) sources))
  | None => None
  end.

(** The renderer after ingest. *)
Definition ingest_renderer (s : State) (points : list Point.t)
  : OgrePointCloud.t :=
  let renderer :=
    if float_eq (point_decay_time_ s) 0
    then OgrePointCloud.clear (cloud_ s) else cloud_ s in
  match points with
  | [] => renderer
  | _ :: _ => OgrePointCloud.addPoints points renderer
  end.

(** The colour of a point. *)
Definition color_of (point : Point.t) : Color.t :=
  Color.mk (Point.r_ point) (Point.g_ point) (Point.b_ point).

(** Calls a display can receive before its first message without a channel
    being chosen for it. *)
Definition before_first_message (c : Call) : Prop :=
  match c with
  | CallAddMessage _ | CallSetChannelColorIndex _ => False
  | _ => True
  end.

(** The display when [update] reaches its last block: the bounds applied
    again, the clouds aged, the expired clouds dropped. *)
Definition ticked (dt : float) (s : State) : State :=
  update_decay (update_times dt (update_bounds s)).

(** The channels [update] offers: those of the front cloud, when a cloud
    has come in since the last tick and the buffer is not empty. *)
Definition pending_channels (s : State) : option (list ChannelFloat32.t) :=
  match clouds_ s with
  | front :: _ =>
      if new_cloud_ s
      then Some (PointCloud.chan (CloudInfo.message_ front)) else None
  | [] => None
  end.

(** What [update] asks of its collaborators when it applies the bounds
    again. *)
Definition reapplied (s : State) : list Event :=
  if intensity_bounds_changed_ s then
    (if non_null s min_intensity_property_
     then [PropertyChanged min_intensity_property_] else [])
    ++ [CauseRender]
    ++ (if non_null s max_intensity_property_
        then [PropertyChanged max_intensity_property_] else [])
    ++ [CauseRender]
  else [].

(** Whether a tick of [dt] drops a cloud. *)
Definition evicts (dt : float) (s : State) : bool :=
  float_gt (point_decay_time_ s) 0
  && match clouds_ s with
     | front :: _ =>
         float_gt (CloudInfo.time_ front + dt)%Q (point_decay_time_ s)
     | [] => false
     end.

(** Calls whose argument passes the assertion of the callee. *)
Definition well_called (c : Call) : Prop :=
  match c with
  | CallSetStyle style => style < StyleCount
  | CallSetChannelColorIndex channel_color_idx =>
      channel_color_idx < ChannelRenderCount
  | _ => True
  end.

(** Calls other than [setChannelColorIndex]. *)
Definition keeps_selection (c : Call) : Prop :=
  match c with
  | CallSetChannelColorIndex _ => False
  | _ => True
  end.

(** Ticks that do not run backwards. *)
Definition forward_tick (c : Call) : Prop :=
  match c with
  | CallUpdate dt => (0 <= dt)%Q
  | _ => True
  end.

(** The buffer holds the oldest cloud first, and no cloud is younger than
    zero. *)
Fixpoint ages_in_order (clouds : list CloudInfo.t) : Prop :=
  match clouds with
  | [] => True
  | front :: rest =>
      (0 <= CloudInfo.time_ front)%Q
      /\ Forall (fun info => (CloudInfo.time_ info <= CloudInfo.time_ front)%Q)
           rest
      /\ ages_in_order rest
  end.

(** The component of a colour that a one-component colorizer writes. *)
Definition component (type : ChannelType) (point : Point.t) : float :=
  match type with
  | CT_R => Point.r_ point
  | CT_G => Point.g_ point
  | CT_B => Point.b_ point
  | _ => 0%Q
  end.

(** The channel name a one-component colorizer is chosen for. *)
Definition component_name (type : ChannelType) : string :=
  match type with
  | CT_R => "r"
  | CT_G => "g"
  | CT_B => "b"
  | CT_RGB => "rgb"
  | CT_INTENSITY => "intensity"
  end.

(** The settings of the renderer mirror those of the display. *)
Definition renderer_in_sync (s : State) : Prop :=
  OgrePointCloud.alpha (cloud_ s) = alpha_ s
  /\ OgrePointCloud.use_points (cloud_ s) = (style_ s =? Points)
  /\ OgrePointCloud.billboard_dimensions (cloud_ s)
     = (billboard_size_ s, billboard_size_ s).


(** ** More concrete inputs *)

Module Scene.

(** A transform service that knows no frame. *)
Definition lost_transform (_ : string) (_ : PointCloud.t)
  : option PointCloud.t := None.

(** One point without a frame id; [intensity] has no value for it, and
    [nx] comes without [ny] and [nz]. *)
Definition unframed : PointCloud.t :=
  PointCloud.mk EmptyString [Point32.mk 1 2 3]
    [ChannelFloat32.mk "intensity" []; ChannelFloat32.mk "nx" [1%Q]].

(** Two points with two channels of intensities; the first holds a value
    above 4096. *)
Definition two_sources : PointCloud.t :=
  PointCloud.mk "base" [Point32.mk 0 0 0; Point32.mk 1 0 0]
    [ChannelFloat32.mk "intensity" [5000%Q; 1%Q];
     ChannelFloat32.mk "intensities" [2%Q; 3%Q]].

(** Two points with normals. *)
Definition with_normals : PointCloud.t :=
  PointCloud.mk "base" [Point32.mk 7 8 9; Point32.mk 7 8 9]
    [ChannelFloat32.mk "nx" [1%Q; 0%Q];
     ChannelFloat32.mk "ny" [0%Q; 1%Q];
     ChannelFloat32.mk "nz" [0%Q; 0%Q]].

(** Two points with one channel for each component, and a channel of
    another name between them. *)
Definition separate_colours : PointCloud.t :=
  PointCloud.mk "base" [Point32.mk 0 0 0; Point32.mk 1 0 0]
    [ChannelFloat32.mk "r" [(1/4)%Q; (1/2)%Q];
     ChannelFloat32.mk "range" [9%Q; 9%Q];
     ChannelFloat32.mk "g" [(3/4)%Q; 2%Q];
     ChannelFloat32.mk "b" [0%Q; 1%Q]].

(** The display of [Sample.ready] with the colour selection. *)
Definition ready_colours : State :=
  set_channel_color_idx_ ColorRGBSpace Sample.ready.

(** The display of [Sample.ready_intensity] with the automatic bounds
    switched off. *)
Definition ready_manual : State :=
  set_auto_compute_intensity_bounds_ false Sample.ready_intensity.

(** A display whose buffer holds [Sample.ramp], not yet offered, with its
    bounds flagged as changed. *)
Definition pending_flagged : State :=
  set_intensity_bounds_changed_ true Sample.pending_ramp.

(** The same buffer in a display whose properties were never created. *)
Definition pending_without_properties : State :=
  set_non_null (fun _ => false) Sample.pending_ramp.

(** A display with a decay time of half a second whose buffer holds a
    cloud of two fifths of a second and a cloud that has just come in. *)
Definition two_ages : State :=
  set_point_decay_time_ (1/2)
    (set_cloud_ (OgrePointCloud.addPoints
                   [Point.mk 0 0 0 1 1 1; Point.mk 0 0 0 1 1 1;
                    Point.mk 0 0 (-1) 1 1 1]
                   (cloud_ Sample.ready))
       (set_clouds_ [CloudInfo.mk Sample.flat (2/5) 2;
                     CloudInfo.mk Sample.green_only 0 1] Sample.ready)).

(** Calls before the first message. *)
Definition settling : list Call :=
  [CallCreateProperties; CallUpdate 1; CallSetDecayTime 2;
   CallSetMaxColor (Color.mk 1 (1/2) 0); CallSetStyle Points].

(** A cloud without intensities comes in after the intensity was
    selected. *)
Definition other_cloud : list Call :=
  [CallAddMessage Sample.green_only; CallUpdate 0;
   CallAddMessage separate_colours; CallUpdate 1].

End Scene.

(** * Properties *)

(** ** Outcomes and loops *)

Lemma bind_Returns {A B : Type} (m : Outcome A) (k : A -> Outcome B) (b : B) :
  (m ≫= k) = Returns b <-> exists a, m = Returns a /\ k a = Returns b.
Proof.
  split.
  - destruct m as [a| |]; simpl; intros H; try discriminate. eauto.
  - intros (a & -> & H). exact H.
Qed.

Lemma vec_at_Returns {A : Type} (v : list A) (i : nat) (x : A) :
  vec_at v i = Returns x <-> v !! i = Some x.
Proof.
  unfold vec_at. destruct (v !! i); split; intros H; congruence.
Qed.

Lemma vec_at_in_range {A : Type} (v : list A) (i : nat) :
  (i < length v)%nat -> exists x, vec_at v i = Returns x.
Proof.
  intros H. destruct (lookup_lt_is_Some_2 v i H) as [x Hx].
  exists x. by apply vec_at_Returns.
Qed.

Lemma vec_at_out_of_range {A : Type} (v : list A) (i : nat) :
  (length v <= i)%nat -> vec_at v i = UndefinedBehaviour.
Proof.
  intros H. unfold vec_at. by rewrite (lookup_ge_None_2 v i H).
Qed.

(** Taking a bind apart in a hypothesis. *)
Ltac bind_inv H :=
  let a := fresh "a" in
  let Ha := fresh "Ha" in
  apply bind_Returns in H; destruct H as (a & Ha & H).

(** A loop that returns has maintained every invariant its body maintains. *)
Lemma for_loop_invariant {A : Type} (P : nat -> A -> Prop)
    (body : nat -> A -> Outcome A) (count : nat) :
  forall (start : nat) (a a' : A),
    (forall i x x', (start <= i < start + count)%nat ->
        P i x -> body i x = Returns x' -> P (S i) x') ->
    P start a ->
    for_loop count start body a = Returns a' ->
    P (start + count)%nat a'.
Proof.
  induction count as [|count IH]; intros start a a' Hstep Ha Hrun.
  - simpl in Hrun. injection Hrun as <-. by rewrite Nat.add_0_r.
  - simpl in Hrun. bind_inv Hrun.
    replace (start + S count)%nat with (S start + count)%nat by lia.
    apply (IH (S start) a0 a'); [| |exact Hrun].
    + intros i x x' Hi. apply Hstep. lia.
    + apply (Hstep start a a0); [lia|exact Ha|exact Ha0].
Qed.

(** A loop whose body returns under an invariant returns. *)
Lemma for_loop_returns {A : Type} (P : nat -> A -> Prop)
    (body : nat -> A -> Outcome A) (count : nat) :
  forall (start : nat) (a : A),
    (forall i x, (start <= i < start + count)%nat ->
        P i x -> exists x', body i x = Returns x' /\ P (S i) x') ->
    P start a ->
    exists a', for_loop count start body a = Returns a'
               /\ P (start + count)%nat a'.
Proof.
  induction count as [|count IH]; intros start a Hstep Ha.
  - exists a. simpl. by rewrite Nat.add_0_r.
  - destruct (Hstep start a) as (x' & Hx' & HP); [lia|exact Ha|].
    destruct (IH (S start) x') as (a' & Hrun & HP').
    + intros i x Hi. apply Hstep. lia.
    + exact HP.
    + exists a'. simpl. rewrite Hx'. simpl.
      replace (start + S count)%nat with (S start + count)%nat by lia.
      by split.
Qed.

(** ** Comparisons *)

Lemma float_lt_true (a b : float) : float_lt a b = true <-> (a < b)%Q.
Proof.
  unfold float_lt. destruct (Qlt_le_dec a b) as [H|H]; split; intros H';
    try done. exfalso. by apply (Qle_not_lt _ _ H).
Qed.

Lemma float_lt_false (a b : float) : float_lt a b = false <-> (b <= a)%Q.
Proof.
  unfold float_lt. destruct (Qlt_le_dec a b) as [H|H]; split; intros H';
    try done. exfalso. by apply (Qle_not_lt _ _ H').
Qed.

Lemma float_eq_true (a b : float) : float_eq a b = true <-> (a == b)%Q.
Proof. unfold float_eq. destruct (Qeq_dec a b); split; intros; done. Qed.

Lemma std_min_le_l (a b : float) : (std_min a b <= a)%Q.
Proof.
  unfold std_min. destruct (float_lt b a) eqn:E.
  - apply float_lt_true in E. lra.
  - lra.
Qed.

Lemma std_min_le_r (a b : float) : (std_min a b <= b)%Q.
Proof.
  unfold std_min. destruct (float_lt b a) eqn:E.
  - lra.
  - apply float_lt_false in E. lra.
Qed.

Lemma std_max_ge_l (a b : float) : (a <= std_max a b)%Q.
Proof.
  unfold std_max. destruct (float_lt a b) eqn:E.
  - apply float_lt_true in E. lra.
  - lra.
Qed.

Lemma std_max_ge_r (a b : float) : (b <= std_max a b)%Q.
Proof.
  unfold std_max. destruct (float_lt a b) eqn:E.
  - lra.
  - apply float_lt_false in E. lra.
Qed.

Lemma std_min_cases (a b : float) :
  (std_min a b <= a /\ std_min a b <= b
   /\ (std_min a b == a \/ std_min a b == b))%Q.
Proof.
  split; [apply std_min_le_l|]. split; [apply std_min_le_r|].
  unfold std_min. destruct (float_lt b a); [by right|by left].
Qed.

Lemma std_max_cases (a b : float) :
  (a <= std_max a b /\ b <= std_max a b
   /\ (std_max a b == a \/ std_max a b == b))%Q.
Proof.
  split; [apply std_max_ge_l|]. split; [apply std_max_ge_r|].
  unfold std_max. destruct (float_lt a b); [by right|by left].
Qed.

Lemma std_min_max_clamp01 (x : float) :
  (std_min 1 (std_max 0 x) == clamp01 x)%Q.
Proof.
  unfold std_min, std_max, clamp01, float_lt.
  destruct (Qlt_le_dec 0 x), (Qlt_le_dec x 0), (Qlt_le_dec 1 x);
    try (exfalso; lra);
    repeat match goal with
           | |- context [Qlt_le_dec ?a ?b] => destruct (Qlt_le_dec a b)
           end; lra.
Qed.

(** ** Setters *)

Lemma new_events_app (before after : State) (events : list Event) :
  trace_ after = trace_ before ++ events -> new_events before after = events.
Proof. unfold new_events. intros ->. apply drop_app_length. Qed.

Lemma trace_changed_if_set (p : PropertyPtr) (s : State) :
  trace_ (changed_if_set p s)
  = trace_ s ++ (if non_null s p then [PropertyChanged p] else []).
Proof.
  unfold changed_if_set. destruct (non_null s p); simpl; [done|].
  by rewrite app_nil_r.
Qed.

(** Unfolding a setter down to the fields of its result. *)
Ltac unfold_setters :=
  unfold setAlpha, setMaxColor, setMinColor, setMinIntensity, setMaxIntensity,
    setDecayTime, setAutoComputeIntensityBounds, setBillboardSize,
    causeRender, changed_if_set, emit in *.

Lemma setMinIntensity_bounds (val : float) (s : State) :
  max_intensity_ (setMinIntensity val s) = max_intensity_ s /\
  min_intensity_ (setMinIntensity val s)
  = (if float_gt val (max_intensity_ s) then max_intensity_ s else val).
Proof.
  unfold_setters. simpl.
  destruct (float_gt val (max_intensity_ s));
    destruct (non_null _ min_intensity_property_) eqn:E; simpl in *;
    rewrite ?E; simpl; done.
Qed.

Lemma setMaxIntensity_bounds (val : float) (s : State) :
  min_intensity_ (setMaxIntensity val s) = min_intensity_ s /\
  max_intensity_ (setMaxIntensity val s)
  = (if float_lt val (min_intensity_ s) then min_intensity_ s else val).
Proof.
  unfold_setters. simpl.
  destruct (float_lt val (min_intensity_ s));
    destruct (non_null _ max_intensity_property_) eqn:E; simpl in *;
    rewrite ?E; simpl; done.
Qed.

(** Whatever the state, a bounds setter leaves the bounds ordered when the
    other bound is the one it meets. *)
Lemma setMinIntensity_ordered (val : float) (s : State) :
  bounds_ordered (setMinIntensity val s).
Proof.
  unfold bounds_ordered. destruct (setMinIntensity_bounds val s) as [-> ->].
  unfold float_gt. destruct (float_lt _ val) eqn:E.
  - lra.
  - by apply float_lt_false in E.
Qed.

Lemma setMaxIntensity_ordered (val : float) (s : State) :
  bounds_ordered (setMaxIntensity val s).
Proof.
  unfold bounds_ordered. destruct (setMaxIntensity_bounds val s) as [-> ->].
  destruct (float_lt val _) eqn:E.
  - lra.
  - by apply float_lt_false in E.
Qed.

Lemma bounds_ordered_flag (changed : bool) (s : State) :
  bounds_ordered s -> bounds_ordered (set_intensity_bounds_changed_ changed s).
Proof. done. Qed.

Lemma update_bounds_restores_order (s : State) :
  intensity_bounds_changed_ s = true -> bounds_ordered (update_bounds s).
Proof.
  unfold update_bounds. intros ->. cbv zeta.
  apply bounds_ordered_flag, setMaxIntensity_ordered.
Qed.

Lemma update_bounds_ordered (s : State) :
  bounds_ordered s -> bounds_ordered (update_bounds s).
Proof.
  intros Hb. destruct (intensity_bounds_changed_ s) eqn:E.
  - by apply update_bounds_restores_order.
  - unfold update_bounds. by rewrite E.
Qed.

(** ** The tick *)

(** What the eviction loop removes is a prefix of the deque, every element
    of which has expired; the loop stops at the first front that has not;
    the renderer loses as many leading points as the prefix recorded. *)
Lemma pop_expired_prefix (decay : float) (clouds : list CloudInfo.t) :
  forall (cloud : OgrePointCloud.t) (removed : bool),
  exists evicted kept cloud' removed',
    pop_expired decay clouds cloud removed = (kept, cloud', removed')
    /\ clouds = evicted ++ kept
    /\ Forall (fun info => (decay < CloudInfo.time_ info)%Q) evicted
    /\ match kept with
       | [] => True
       | front :: _ => (CloudInfo.time_ front <= decay)%Q
       end
    /\ OgrePointCloud.points cloud'
       = drop (buffer_total evicted) (OgrePointCloud.points cloud)
    /\ removed' = removed || negb (Nat.eqb (length evicted) 0).
Proof.
  induction clouds as [|front rest IH]; intros cloud removed.
  - exists [], [], cloud, removed. simpl. rewrite orb_false_r. by repeat split.
  - simpl. destruct (float_gt (CloudInfo.time_ front) decay) eqn:E.
    + destruct (IH (OgrePointCloud.popPoints (CloudInfo.num_points_ front) cloud)
                  true) as (evicted & kept & cloud' & removed' & Hrun & Happ
                            & Hall & Hhead & Hpts & Hrem).
      exists (front :: evicted), kept, cloud', removed'.
      repeat split; try done.
      * simpl. by rewrite Happ.
      * constructor; [|done]. by apply float_lt_true in E.
      * rewrite Hpts. simpl. unfold buffer_total. simpl.
        by rewrite drop_drop.
      * rewrite Hrem. simpl. by rewrite orb_true_r.
    + exists [], (front :: rest), cloud, removed. simpl.
      rewrite orb_false_r. repeat split; try done.
      by apply float_lt_false in E.
Qed.

(** Fields the first three blocks of [update] leave alone or set. *)
Lemma update_bounds_frame (s : State) :
  clouds_ (update_bounds s) = clouds_ s
  /\ cloud_ (update_bounds s) = cloud_ s
  /\ point_decay_time_ (update_bounds s) = point_decay_time_ s
  /\ new_cloud_ (update_bounds s) = new_cloud_ s
  /\ non_null (update_bounds s) = non_null s
  /\ channel_color_idx_ (update_bounds s) = channel_color_idx_ s.
Proof.
  unfold update_bounds. destruct (intensity_bounds_changed_ s); [|done].
  unfold_setters. simpl.
  repeat match goal with
         | |- context [if ?b then _ else _] => destruct b; simpl
         end; done.
Qed.

Lemma update_decay_frame (s : State) :
  point_decay_time_ (update_decay s) = point_decay_time_ s
  /\ new_cloud_ (update_decay s) = new_cloud_ s
  /\ non_null (update_decay s) = non_null s
  /\ channel_color_idx_ (update_decay s) = channel_color_idx_ s
  /\ min_intensity_ (update_decay s) = min_intensity_ s
  /\ max_intensity_ (update_decay s) = max_intensity_ s.
Proof.
  unfold update_decay. destruct (float_gt _ 0); [|done].
  destruct (pop_expired _ _ _ _) as [[clouds cloud] removed].
  destruct removed; done.
Qed.

(** The buffer and the renderer after the first three blocks. *)
Lemma update_decay_buffers (dt : float) (s : State) :
  let aged := map (add_time dt) (clouds_ s) in
  let decay := point_decay_time_ s in
  let s' := update_decay (update_times dt (update_bounds s)) in
  exists evicted,
    aged = evicted ++ clouds_ s'
    /\ (evicted <> [] -> (0 < decay)%Q)
    /\ Forall (fun info => (decay < CloudInfo.time_ info)%Q) evicted
    /\ ((0 < decay)%Q ->
        match clouds_ s' with
        | [] => True
        | front :: _ => (CloudInfo.time_ front <= decay)%Q
        end)
    /\ OgrePointCloud.points (cloud_ s')
       = drop (buffer_total evicted) (OgrePointCloud.points (cloud_ s)).
Proof.
  intros aged decay s'.
  destruct (update_bounds_frame s) as (Hc & Hr & Hd & _).
  subst s'. unfold update_decay, update_times. simpl. rewrite Hd, Hc, Hr.
  fold decay. fold aged.
  destruct (float_gt decay 0) eqn:E.
  - destruct (pop_expired_prefix decay aged (cloud_ s) false)
      as (evicted & kept & cloud' & removed' & Hrun & Happ & Hall & Hhead
          & Hpts & _).
    rewrite Hrun. exists evicted.
    assert (0 < decay)%Q by (by apply float_lt_true in E).
    destruct removed'; simpl; repeat split; done.
  - exists []. simpl. rewrite Hr.
    apply float_lt_false in E.
    repeat split; try done. intros Hpos. exfalso. lra.
Qed.

Lemma offered_option_role (name label : string) (role : Z) :
  offered_option name = Some (label, role) -> 0 <= role < ChannelRenderCount.
Proof.
  unfold offered_option.
  repeat match goal with
         | |- context [if ?b then _ else _] => destruct b
         end; intros H; inversion H; done.
Qed.

(** [offer_channels] appends one option per channel with an offered name and
    replaces a [-1] selection by the role of the first of them. *)
Lemma offer_channels_spec (chans : list ChannelFloat32.t) :
  forall (channel_color_idx : Z) (s : State),
    non_null s channel_property_ = true ->
    exists s',
      offer_channels chans channel_color_idx s
      = Returns (first_role channel_color_idx chans, s')
      /\ channel_options_ s'
         = channel_options_ s
           ++ omap (fun chan => offered_option (ChannelFloat32.name chan)) chans
      /\ s' = set_channel_options_ (channel_options_ s') s.
Proof.
  induction chans as [|chan rest IH]; intros idx s Hnn.
  - exists s. simpl. unfold first_role. simpl.
    rewrite app_nil_r. destruct (idx =? -1) eqn:E; repeat split; try done.
    + apply Z.eqb_eq in E. by subst.
    + by destruct s.
    + by destruct s.
  - simpl. unfold channel_property_addOption, through. rewrite Hnn. simpl.
    unfold first_role, offered_option, is_intensity_name, is_curvature_name.
    simpl.
    repeat match goal with
           | |- context [if (String.eqb ?a ?b || String.eqb ?c ?d) then _ else _] =>
               destruct (String.eqb a b || String.eqb c d); simpl
           | |- context [if String.eqb ?a ?b then _ else _] =>
               destruct (String.eqb a b); simpl
           end;
      match goal with
      | |- context [offer_channels rest ?i ?t] =>
          destruct (IH i t) as (s' & Hrun & Hopt & Hs'); [by simpl|]
      end;
      exists s'; rewrite Hrun; simpl in Hopt, Hs'; rewrite Hopt;
      rewrite <- ?app_assoc; simpl; unfold first_role;
      destruct (idx =? -1) eqn:E; simpl; rewrite ?E; repeat split; try done;
      try (rewrite Hs' at 1; by rewrite Hopt, <- ?app_assoc).
Qed.

Lemma first_role_bound (channel_color_idx : Z) (chans : list ChannelFloat32.t) :
  channel_color_idx < ChannelRenderCount ->
  first_role channel_color_idx chans < ChannelRenderCount.
Proof.
  intros H. unfold first_role. destruct (channel_color_idx =? -1); [|done].
  induction chans as [|chan rest IH]; [done|].
  simpl. destruct (offered_option (ChannelFloat32.name chan)) as [[label role]|] eqn:E.
  - simpl. apply offered_option_role in E. lia.
  - simpl. exact IH.
Qed.

(** The fourth block of [update], when it has something to do. *)
Lemma update_channels_refresh (s : State) (front : CloudInfo.t)
    (rest : list CloudInfo.t) :
  clouds_ s = front :: rest ->
  new_cloud_ s = true ->
  non_null s channel_property_ = true ->
  let chans := PointCloud.chan (CloudInfo.message_ front) in
  let options :=
    omap (fun chan => offered_option (ChannelFloat32.name chan)) chans in
  update_channels s
  = setChannelColorIndex (first_role (channel_color_idx_ s) chans)
      (emit (PropertyChanged channel_property_)
         (set_channel_options_ options s)).
Proof.
  intros Hc Hn Hnn chans options. unfold update_channels.
  rewrite Hc, Hn. unfold channel_property_clear, through. rewrite Hnn. simpl.
  destruct (offer_channels_spec chans (getChannelColorIndex s)
              (set_channel_options_ [] s)) as (s' & Hrun & Hopt & Hs');
    [done|].
  fold chans. rewrite Hrun. simpl. simpl in Hopt, Hs'.
  rewrite Hs', Hopt. unfold changed_if_set. simpl. rewrite Hnn. done.
Qed.

(** The fourth block only touches the channel property, the selection and
    the trace. *)
Lemma offer_channels_frame (chans : list ChannelFloat32.t) :
  forall (idx idx' : Z) (s s' : State),
    offer_channels chans idx s = Returns (idx', s') ->
    s' = set_channel_options_ (channel_options_ s') s.
Proof.
  induction chans as [|chan rest IH]; intros idx idx' s s' Hrun.
  - simpl in Hrun. injection Hrun as _ <-. by destruct s.
  - simpl in Hrun. bind_inv Hrun. destruct a as [idx1 s1].
    apply IH in Hrun. rewrite Hrun.
    assert (s1 = set_channel_options_ (channel_options_ s1) s) as ->.
    { unfold channel_property_addOption, through in Ha.
      destruct (non_null s channel_property_); simpl in Ha;
        repeat match type of Ha with
               | context [if ?b then _ else _] => destruct b; simpl in Ha
               end;
        try discriminate; injection Ha as _ <-; by destruct s. }
    done.
Qed.

Lemma update_channels_frame (s s' : State) :
  update_channels s = Returns s' ->
  clouds_ s' = clouds_ s /\ cloud_ s' = cloud_ s
  /\ point_decay_time_ s' = point_decay_time_ s
  /\ min_intensity_ s' = min_intensity_ s
  /\ max_intensity_ s' = max_intensity_ s.
Proof.
  unfold update_channels. destruct (clouds_ s) as [|front rest] eqn:Hc.
  - intros H. injection H as <-. by rewrite Hc.
  - destruct (new_cloud_ s).
    + intros H. bind_inv H. bind_inv H. destruct a0 as [idx s2].
      unfold setChannelColorIndex in H. bind_inv H. injection H as <-.
      apply offer_channels_frame in Ha0. rewrite Ha0.
      unfold channel_property_clear in Ha. bind_inv Ha. injection Ha as <-.
      unfold changed_if_set. simpl. destruct (non_null s channel_property_);
        simpl; by rewrite Hc.
    + intros H. injection H as <-. by rewrite Hc.
Qed.

Lemma update_Returns (dt : float) (s s' : State) :
  update dt s = Returns s' <->
  exists s1, update_channels (update_decay (update_times dt (update_bounds s)))
             = Returns s1 /\ s' = set_new_cloud_ false s1.
Proof.
  unfold update. rewrite bind_Returns. split.
  - intros (a & Ha & H). injection H as <-. eauto.
  - intros (s1 & Ha & ->). eauto.
Qed.

(** [update] returns once the channel property exists and the selection is
    one the setter accepts. *)
Lemma update_returns (dt : float) (s : State) :
  non_null s channel_property_ = true ->
  channel_color_idx_ s < ChannelRenderCount ->
  exists s', update dt s = Returns s'.
Proof.
  intros Hnn Hidx.
  set (s3 := update_decay (update_times dt (update_bounds s))).
  assert (non_null s3 channel_property_ = true /\ channel_color_idx_ s3
          = channel_color_idx_ s) as [Hnn3 Hidx3].
  { subst s3. destruct (update_decay_frame (update_times dt (update_bounds s)))
      as (_ & _ & -> & -> & _).
    unfold update_times. simpl.
    destruct (update_bounds_frame s) as (_ & _ & _ & _ & -> & ->). done. }
  assert (exists s1, update_channels s3 = Returns s1) as [s1 Hs1].
  { destruct (clouds_ s3) as [|front rest] eqn:Hc.
    - exists s3. unfold update_channels. by rewrite Hc.
    - destruct (new_cloud_ s3) eqn:Hn.
      + rewrite (update_channels_refresh s3 front rest Hc Hn Hnn3).
        unfold setChannelColorIndex, ROS_ASSERT.
        pose proof (first_role_bound (channel_color_idx_ s3)
                      (PointCloud.chan (CloudInfo.message_ front))) as Hb.
        rewrite Hidx3 in Hb. specialize (Hb Hidx).
        apply Z.ltb_lt in Hb. rewrite Hidx3, Hb. simpl. eauto.
      + exists s3. unfold update_channels. by rewrite Hc, Hn. }
  exists (set_new_cloud_ false s1). apply update_Returns. eauto.
Qed.

(** The buffer and the renderer after a returning [update]. *)
Lemma update_buffers (dt : float) (s : State) :
  let aged := map (add_time dt) (clouds_ s) in
  let decay := point_decay_time_ s in
  exists evicted kept,
    aged = evicted ++ kept
    /\ (evicted <> [] -> (0 < decay)%Q)
    /\ Forall (fun info => (decay < CloudInfo.time_ info)%Q) evicted
    /\ ((0 < decay)%Q ->
        match kept with
        | [] => True
        | front :: _ => (CloudInfo.time_ front <= decay)%Q
        end)
    /\ (forall s', update dt s = Returns s' ->
          clouds_ s' = kept
          /\ OgrePointCloud.points (cloud_ s')
             = drop (buffer_total evicted) (OgrePointCloud.points (cloud_ s))
          /\ point_decay_time_ s' = decay).
Proof.
  intros aged decay.
  destruct (update_decay_buffers dt s)
    as (evicted & Happ & Hpos & Hall & Hhead & Hpts).
  exists evicted, (clouds_ (update_decay (update_times dt (update_bounds s)))).
  repeat split; try done.
  - apply update_Returns in H. destruct H as (s1 & Hs1 & ->).
    apply update_channels_frame in Hs1. destruct Hs1 as (Hc & _).
    simpl. by rewrite Hc.
  - apply update_Returns in H. destruct H as (s1 & Hs1 & ->).
    apply update_channels_frame in Hs1. destruct Hs1 as (_ & Hr & _).
    simpl. by rewrite Hr, Hpts.
  - apply update_Returns in H. destruct H as (s1 & Hs1 & ->).
    apply update_channels_frame in Hs1. destruct Hs1 as (_ & _ & Hd & _).
    simpl. rewrite Hd.
    destruct (update_decay_frame (update_times dt (update_bounds s)))
      as (-> & _).
    unfold update_times. simpl.
    by destruct (update_bounds_frame s) as (_ & _ & -> & _).
Qed.

(** C3.  [update(dt)] adds [dt] to the age of every buffered cloud; then the
    buffer it leaves is the aged buffer without a prefix [evicted], which is
    non-empty only if the decay time is positive, consists of clouds whose
    age exceeds the decay time, and stops at the first front whose age does
    not (so nothing but the front is ever removed); the renderer has lost
    exactly the points those clouds recorded.  [update] returns whenever the
    channel property exists and the selection is a valid one. *)
Theorem update_ages_then_evicts_head (dt : float) (s : State) :
  let aged := map (add_time dt) (clouds_ s) in
  let decay := point_decay_time_ s in
  exists evicted kept,
    aged = evicted ++ kept
    /\ (evicted <> [] -> (0 < decay)%Q)
    /\ Forall (fun info => (decay < CloudInfo.time_ info)%Q) evicted
    /\ ((0 < decay)%Q ->
        match kept with
        | [] => True
        | front :: _ => (CloudInfo.time_ front <= decay)%Q
        end)
    /\ (forall s', update dt s = Returns s' ->
          clouds_ s' = kept
          /\ OgrePointCloud.points (cloud_ s')
             = drop (buffer_total evicted) (OgrePointCloud.points (cloud_ s)))
    /\ (non_null s channel_property_ = true ->
        channel_color_idx_ s < ChannelRenderCount ->
        exists s', update dt s = Returns s').
Proof.
  intros aged decay.
  destruct (update_buffers dt s)
    as (evicted & kept & Happ & Hpos & Hall & Hhead & Hrun).
  exists evicted, kept. repeat split; try done.
  - by destruct (Hrun s' H) as (? & _).
  - by destruct (Hrun s' H) as (_ & ? & _).
  - apply update_returns.
Qed.

(** C8, as the code has it.  When [update] runs with a pending new cloud and
    leaves a buffer of exactly one cloud, the options of the channel
    property are rebuilt from the channels of that cloud, in input order:
    "Intensity" for [intensity] and [intensities], "Color (RGB)" for [rgb]
    and [r] (and nothing for [g] or [b]), "Normal Sphere" for [nx],
    "Curvature" for [curvature] and [curvatures]; a selection of [-1]
    becomes the role of the first channel that added an option. *)
Theorem update_offers_channels_of_single_cloud (dt : float) (s s' : State)
    (entry : CloudInfo.t) :
  new_cloud_ s = true ->
  update dt s = Returns s' ->
  clouds_ s' = [entry] ->
  let chans := PointCloud.chan (CloudInfo.message_ entry) in
  channel_options_ s'
  = omap (fun chan => offered_option (ChannelFloat32.name chan)) chans
  /\ channel_color_idx_ s' = first_role (channel_color_idx_ s) chans
  /\ new_cloud_ s' = false.
Proof.
  intros Hnew Hrun Hone chans.
  apply update_Returns in Hrun. destruct Hrun as (s1 & Hs1 & ->).
  set (s3 := update_decay (update_times dt (update_bounds s))) in *.
  assert (new_cloud_ s3 = true /\ channel_color_idx_ s3 = channel_color_idx_ s)
    as [Hnew3 Hidx3].
  { subst s3. destruct (update_decay_frame (update_times dt (update_bounds s)))
      as (_ & -> & _ & -> & _).
    unfold update_times. simpl.
    destruct (update_bounds_frame s) as (_ & _ & _ & -> & _ & ->). done. }
  pose proof (update_channels_frame s3 s1 Hs1) as (Hc & _).
  simpl in Hone. rewrite Hc in Hone.
  destruct (non_null s3 channel_property_) eqn:Hnn.
  - rewrite (update_channels_refresh s3 entry [] Hone Hnew3 Hnn) in Hs1.
    unfold setChannelColorIndex in Hs1. bind_inv Hs1. injection Hs1 as <-.
    simpl. by rewrite Hidx3.
  - exfalso. unfold update_channels in Hs1. rewrite Hone, Hnew3 in Hs1.
    unfold channel_property_clear, through in Hs1. rewrite Hnn in Hs1.
    discriminate.
Qed.

Lemma update_offers_channels_of_single_cloud_witness :
  exists s', update 0 Sample.pending_ramp = Returns s'
             /\ channel_options_ s' = [("Intensity"%string, Intensity)]
             /\ channel_color_idx_ s' = Intensity.
Proof.
  eexists. split; [vm_compute; reflexivity|].
  destruct (update_offers_channels_of_single_cloud 0 Sample.pending_ramp _
              (CloudInfo.mk Sample.ramp 0 3) eq_refl eq_refl eq_refl)
    as (Hopt & Hidx & _).
  split; [exact Hopt|exact Hidx].
Defined.

(** C8, as the specification words it, fails: a cloud whose only channel is
    [g] adds no option, although the registry counts [g] as "Color (RGB)". *)
Lemma green_channel_offers_nothing :
  ~ (forall s', update 0 Sample.pending_green = Returns s' ->
       new_cloud_ Sample.pending_green = true ->
       clouds_ s' <> [] ->
       offers_registry_of_newest s').
Proof.
  intros Hclaim.
  assert (exists s', update 0 Sample.pending_green = Returns s'
                     /\ clouds_ s' = [CloudInfo.mk Sample.green_only 0 1]
                     /\ channel_options_ s' = []) as (s' & Hrun & Hc & Hopt).
  { eexists. split; [vm_compute; reflexivity|]. split; reflexivity. }
  specialize (Hclaim s' Hrun eq_refl).
  assert (clouds_ s' <> []) as Hne by (rewrite Hc; discriminate).
  specialize (Hclaim Hne ("Color (RGB)"%string, ColorRGBSpace)).
  rewrite Hopt, Hc in Hclaim. apply Hclaim.
  exists (CloudInfo.mk Sample.green_only 0 1), (ChannelFloat32.mk "g" [1%Q]).
  repeat split; try reflexivity. simpl. by left.
Qed.

(** ** Ingest: the first loop over the channels *)

Lemma same_settings_refl (s : State) : same_settings s s.
Proof. by repeat split. Qed.

Lemma same_settings_trans (s1 s2 s3 : State) :
  same_settings s1 s2 -> same_settings s2 s3 -> same_settings s1 s3.
Proof.
  unfold same_settings. intuition congruence.
Qed.

Lemma bounds_body_spec (i : nat) (vals vals' : list float) (s s' : State) :
  bounds_body i (vals, s) = Returns (vals', s') ->
  length vals' = length vals
  /\ same_settings s s'
  /\ intensity_bounds_changed_ s' = intensity_bounds_changed_ s
  /\ bounds_ordered s'.
Proof.
  unfold bounds_body. intros H. bind_inv H. injection H as <- <-.
  split; [apply length_insert|]. split; [by repeat split|]. split; [done|].
  unfold bounds_ordered. simpl.
  pose proof (std_min_le_r (min_intensity_ s) (std_min a 4096)).
  pose proof (std_max_ge_r (max_intensity_ s) (std_min a 4096)).
  lra.
Qed.

Lemma bounds_loop_spec (point_count : nat) (vals vals' : list float)
    (s s' : State) :
  for_loop point_count 0 bounds_body (vals, s) = Returns (vals', s') ->
  length vals' = length vals
  /\ same_settings s s'
  /\ intensity_bounds_changed_ s' = intensity_bounds_changed_ s
  /\ ((0 < point_count)%nat -> bounds_ordered s')
  /\ (point_count = 0%nat -> s' = s).
Proof.
  intros H.
  apply (for_loop_invariant
           (fun i a => length a.1 = length vals
                       /\ same_settings s a.2
                       /\ intensity_bounds_changed_ a.2
                          = intensity_bounds_changed_ s
                       /\ ((0 < i)%nat -> bounds_ordered a.2)
                       /\ (i = 0%nat -> a.2 = s))) in H.
  - simpl in H. exact H.
  - intros i [v t] [v' t'] _ (Hlen & Hsame & Hflag & _) Hbody. simpl in *.
    apply bounds_body_spec in Hbody.
    destruct Hbody as (Hlen' & Hsame' & Hflag' & Hord).
    pose proof (same_settings_trans s t t' Hsame Hsame') as Hst.
    split; [congruence|]. split; [exact Hst|]. split; [congruence|].
    split; [done|]. intros Hi. discriminate.
  - simpl. split; [done|]. split; [apply same_settings_refl|].
    split; [done|]. split; [lia|done].
Qed.

Lemma bounds_loop_returns (point_count : nat) (vals : list float) (s : State) :
  length vals = point_count ->
  exists r, for_loop point_count 0 bounds_body (vals, s) = Returns r.
Proof.
  intros Hlen.
  destruct (for_loop_returns (fun _ a => length a.1 = point_count) bounds_body
              point_count 0 (vals, s)) as (r & Hr & _).
  - intros i [v t] Hi Hv. simpl in *. unfold bounds_body.
    destruct (vec_at_in_range v i) as [x Hx]; [lia|].
    rewrite Hx. simpl. eexists. split; [done|]. simpl.
    by rewrite length_insert.
  - done.
  - by exists r.
Qed.

Lemma compute_intensity_bounds_spec (point_count : nat)
    (chan chan' : ChannelFloat32.t) (s s' : State) :
  compute_intensity_bounds point_count chan s = Returns (chan', s') ->
  same_shape chan chan'
  /\ same_settings s s'
  /\ ((0 < point_count)%nat -> bounds_ordered s').
Proof.
  unfold compute_intensity_bounds. intros H. bind_inv H.
  destruct a as [vals t]. injection H as <- <-.
  apply bounds_loop_spec in Ha. simpl in Ha.
  destruct Ha as (Hlen & Hsame & _ & Hord & _).
  split; [by split|]. split; [|exact Hord].
  unfold same_settings in *. simpl. intuition congruence.
Qed.

Lemma check_channel_spec (point_count : nat) (chan chan' : ChannelFloat32.t)
    (use use' valid : bool) (s s' : State) :
  check_channel point_count chan use s = Returns (valid, chan', use', s') ->
  valid = well_formed point_count chan
  /\ same_shape chan chan'
  /\ same_settings s s'
  /\ (bounds_ordered s -> (0 < point_count)%nat -> bounds_ordered s')
  /\ (use' = true -> use = true \/ channel_color_idx_ s = NormalSphere).
Proof.
  unfold check_channel, well_formed.
  set (size_ok := Nat.eqb (length (ChannelFloat32.vals chan)) point_count).
  set (s1 := if size_ok then s else emit _ s).
  assert (same_settings s s1 /\ min_intensity_ s1 = min_intensity_ s
          /\ max_intensity_ s1 = max_intensity_ s) as (Hs1 & Hmin & Hmax).
  { subst s1. destruct size_ok; by repeat split. }
  assert (bounds_ordered s -> bounds_ordered s1) as Hord1.
  { unfold bounds_ordered. by rewrite Hmin, Hmax. }
  assert (channel_color_idx_ s1 = channel_color_idx_ s) as Hidx
    by (by destruct Hs1 as (_&_&_&->&_)).
  intros H.
  destruct (_ && _ && is_intensity_name _ && _).
  { bind_inv H. destruct a as [c t]. injection H as <- <- <- <-.
    apply compute_intensity_bounds_spec in Ha. destruct Ha as (Hsh & Hst & Ho).
    split; [done|]. split; [done|].
    split; [by apply (same_settings_trans s s1 t)|]. split; [auto|auto]. }
  destruct (_ && _ && is_curvature_name _ && _).
  { bind_inv H. destruct a as [c t]. injection H as <- <- <- <-.
    apply compute_intensity_bounds_spec in Ha. destruct Ha as (Hsh & Hst & Ho).
    split; [done|]. split; [done|].
    split; [by apply (same_settings_trans s s1 t)|]. split; [auto|auto]. }
  destruct (String.eqb _ "nx" && _) eqn:Enx.
  { injection H as <- <- <- <-. split; [done|]. split; [done|].
    split; [done|]. split; [auto|]. intros _. right.
    apply andb_prop in Enx. destruct Enx as [_ Enx].
    apply Z.eqb_eq in Enx. by rewrite <- Hidx. }
  injection H as <- <- <- <-. split; [done|]. split; [done|].
  split; [done|]. split; [auto|auto].
Qed.

Lemma check_channel_returns (point_count : nat) (chan : ChannelFloat32.t)
    (use : bool) (s : State) :
  exists r, check_channel point_count chan use s = Returns r.
Proof.
  unfold check_channel.
  set (size_ok := Nat.eqb (length (ChannelFloat32.vals chan)) point_count).
  set (s1 := if size_ok then s else emit _ s).
  assert (forall t, size_ok = true ->
            exists r, compute_intensity_bounds point_count chan t = Returns r)
    as Hcompute.
  { intros t Hok. apply Nat.eqb_eq in Hok.
    unfold compute_intensity_bounds.
    destruct (bounds_loop_returns point_count (ChannelFloat32.vals chan)
                (set_max_intensity_ (-999999) (set_min_intensity_ 999999 t)) Hok)
      as [[vals t'] Hr].
    rewrite Hr. simpl. eauto. }
  destruct (_ && _ && is_intensity_name _ && _) eqn:E1.
  { destruct size_ok; [|by rewrite andb_false_r in E1].
    destruct (Hcompute s1 eq_refl) as [[c t] Hr]. rewrite Hr. simpl. eauto. }
  destruct (_ && _ && is_curvature_name _ && _) eqn:E2.
  { destruct size_ok; [|by rewrite andb_false_r in E2].
    destruct (Hcompute s1 eq_refl) as [[c t] Hr]. rewrite Hr. simpl. eauto. }
  destruct (String.eqb _ "nx" && _); eauto.
Qed.

Lemma check_channels_spec (point_count : nat) (chans : list ChannelFloat32.t) :
  forall (use use' : bool) (s s' : State) (valid_channels : list bool)
         (chans' : list ChannelFloat32.t),
    check_channels point_count chans use s
    = Returns (valid_channels, chans', use', s') ->
    valid_channels = map (well_formed point_count) chans
    /\ Forall2 same_shape chans chans'
    /\ same_settings s s'
    /\ (bounds_ordered s -> (0 < point_count)%nat -> bounds_ordered s')
    /\ (use' = true -> use = true \/ channel_color_idx_ s = NormalSphere).
Proof.
  induction chans as [|chan rest IH];
    intros use use' s s' valid_channels chans' H.
  - simpl in H. injection H as <- <- <- <-.
    split; [done|]. split; [constructor|].
    split; [apply same_settings_refl|]. split; auto.
  - simpl in H. bind_inv H. destruct a as [[[valid chan1] use1] s1].
    bind_inv H. destruct a as [[[valids chans1] use2] s2].
    injection H as <- <- <- <-.
    apply check_channel_spec in Ha.
    destruct Ha as (Hv & Hsh & Hst & Hord & Huse).
    apply IH in Ha0. destruct Ha0 as (Hvs & Hshs & Hsts & Hords & Huses).
    split; [simpl; congruence|]. split; [by constructor|].
    split; [by apply (same_settings_trans s s1 s2)|]. split; [auto|].
    intros Hu. destruct (Huses Hu) as [Hu1|Hn].
    + auto.
    + right. destruct Hst as (_&_&_&<-&_). done.
Qed.

Lemma check_channels_returns (point_count : nat)
    (chans : list ChannelFloat32.t) :
  forall (use : bool) (s : State),
    exists r, check_channels point_count chans use s = Returns r.
Proof.
  induction chans as [|chan rest IH]; intros use s.
  - simpl. eauto.
  - simpl.
    destruct (check_channel_returns point_count chan use s)
      as [[[[valid chan1] use1] s1] Hr].
    rewrite Hr. simpl.
    destruct (IH use1 s1) as [[[[valids chans1] use2] s2] Hrs].
    rewrite Hrs. simpl. eauto.
Qed.

(** Under automatic bounds and the intensity selection, constant sources
    make the bounds meet. *)
Lemma bounds_loop_constant (v : float) (point_count : nat) (vals vals' : list float)
    (s s' : State) :
  (-999999 <= v)%Q -> (0 < point_count)%nat ->
  Forall (fun x => (x == v)%Q) vals ->
  min_intensity_ s = 999999%Q -> max_intensity_ s = (-999999)%Q ->
  for_loop point_count 0 bounds_body (vals, s) = Returns (vals', s') ->
  (min_intensity_ s' == std_min v 4096 /\ max_intensity_ s' == std_min v 4096)%Q.
Proof.
  intros Hv Hn Hall Hmin Hmax H.
  set (c := std_min v 4096).
  destruct (std_min_cases v 4096) as (Hc1 & Hc2 & Hc3). fold c in Hc1, Hc2, Hc3.
  assert (-999999 <= c)%Q as Hc4 by (destruct Hc3; lra).
  apply (for_loop_invariant
           (fun i a =>
              Forall (fun x => (std_min x 4096 == c)%Q) a.1
              /\ (i = 0%nat -> min_intensity_ a.2 = 999999%Q
                               /\ max_intensity_ a.2 = (-999999)%Q)
              /\ ((0 < i)%nat -> (min_intensity_ a.2 == c
                                  /\ max_intensity_ a.2 == c)%Q))) in H.
  - destruct H as (_ & _ & H). apply H. lia.
  - intros i [ws t] [ws' t'] _ (Hws & Hzero & Hpos) Hbody. simpl in *.
    unfold bounds_body in Hbody. bind_inv Hbody. injection Hbody as <- <-.
    apply vec_at_Returns in Ha.
    pose proof (Forall_lookup_1 _ _ _ _ Hws Ha) as Hcap. simpl in Hcap.
    destruct (std_min_cases a 4096) as (Hk1 & Hk2 & Hk3).
    split; [|split; [lia|intros _; simpl]].
    + apply Forall_insert; [done|].
      destruct (std_min_cases (std_min a 4096) 4096) as (? & ? & [?|?]); lra.
    + destruct (std_min_cases (min_intensity_ t) (std_min a 4096))
        as (Hm1 & Hm2 & Hm3).
      destruct (std_max_cases (max_intensity_ t) (std_min a 4096))
        as (Hx1 & Hx2 & Hx3).
      destruct (Nat.eq_dec i 0%nat) as [->|Hi].
      * destruct (Hzero eq_refl) as [Hz1 Hz2]. rewrite Hz1 in *. rewrite Hz2 in *.
        split; [destruct Hm3; lra|destruct Hx3; lra].
      * destruct Hpos as [Hp1 Hp2]; [lia|].
        split; [destruct Hm3; lra|destruct Hx3; lra].
  - simpl. split; [|split; [done|lia]].
    eapply Forall_impl; [exact Hall|]. intros x Hx. simpl in Hx.
    destruct (std_min_cases x 4096) as (? & ? & [?|?]); subst c;
      destruct Hc3; lra.
Qed.

Lemma check_channel_constant (v : float) (point_count : nat)
    (chan chan' : ChannelFloat32.t) (use use' valid : bool) (s s' : State) :
  (-999999 <= v)%Q -> (0 < point_count)%nat ->
  auto_compute_intensity_bounds_ s = true ->
  channel_color_idx_ s = Intensity ->
  (intensity_source point_count chan = true -> constant_channel v chan) ->
  check_channel point_count chan use s = Returns (valid, chan', use', s') ->
  let met t := (min_intensity_ t == std_min v 4096
                /\ max_intensity_ t == std_min v 4096)%Q in
  (intensity_source point_count chan = true -> met s') /\ (met s -> met s').
Proof.
  intros Hv Hn Hauto Hidx Hconst. unfold check_channel, intensity_source in *.
  unfold well_formed in *.
  set (size_ok := Nat.eqb (length (ChannelFloat32.vals chan)) point_count) in *.
  set (s1 := if size_ok then s else emit _ s).
  assert (auto_compute_intensity_bounds_ s1 = true
          /\ channel_color_idx_ s1 = Intensity
          /\ min_intensity_ s1 = min_intensity_ s
          /\ max_intensity_ s1 = max_intensity_ s) as (-> & -> & Hmin & Hmax).
  { subst s1. by destruct size_ok. }
  change (Intensity =? Intensity) with true.
  change (Intensity =? Curvature) with false.
  rewrite !andb_true_r, !andb_false_r. simpl.
  destruct (size_ok && is_intensity_name (ChannelFloat32.name chan)) eqn:E.
  - intros H. bind_inv H. destruct a as [c t]. injection H as <- <- <- <-.
    unfold compute_intensity_bounds in Ha. bind_inv Ha.
    destruct a as [vals t']. injection Ha as <- <-.
    assert (constant_channel v chan) as Hcc by (by apply Hconst).
    pose proof (bounds_loop_constant v point_count _ _
                  (set_max_intensity_ (-999999) (set_min_intensity_ 999999 s1))
                  _ Hv Hn Hcc eq_refl eq_refl Ha0) as Hmet.
    by split.
  - intros H.
    assert (s' = s1) as -> by (by injection H as <- <- <- <-).
    split; [done|]. by rewrite Hmin, Hmax.
Qed.

Lemma check_channels_constant (v : float) (point_count : nat)
    (chans : list ChannelFloat32.t) :
  forall (use use' : bool) (s s' : State) (valid : list bool)
         (chans' : list ChannelFloat32.t),
    (-999999 <= v)%Q -> (0 < point_count)%nat ->
    auto_compute_intensity_bounds_ s = true ->
    channel_color_idx_ s = Intensity ->
    Forall (fun chan => intensity_source point_count chan = true ->
                        constant_channel v chan) chans ->
    check_channels point_count chans use s = Returns (valid, chans', use', s') ->
    let met t := (min_intensity_ t == std_min v 4096
                  /\ max_intensity_ t == std_min v 4096)%Q in
    met s \/ Exists (fun chan => intensity_source point_count chan = true) chans ->
    met s'.
Proof.
  induction chans as [|chan rest IH];
    intros use use' s s' valid chans' Hv Hn Hauto Hidx Hconst H met Hsome.
  - simpl in H. injection H as <- <- <- <-.
    destruct Hsome as [Hmet|Hex]; [done|by inversion Hex].
  - simpl in H. bind_inv H. destruct a as [[[valid1 chan1] use1] s1].
    bind_inv H. destruct a as [[[valids chans1] use2] s2].
    injection H as <- <- <- <-.
    inversion Hconst as [|? ? Hc Hcs]; subst.
    pose proof (check_channel_spec _ _ _ _ _ _ _ _ Ha) as (_ & _ & Hsame & _).
    destruct (check_channel_constant v point_count chan chan1 use use1 valid1
                s s1 Hv Hn Hauto Hidx Hc Ha) as [Hnew Hkeep].
    apply (IH use1 use2 s1 s2 valids chans1); try done.
    + destruct Hsame as (_&_&_&_&->&_). done.
    + destruct Hsame as (_&_&_&->&_). done.
    + destruct Hsome as [Hmet|Hex].
      * left. by apply Hkeep.
      * inversion Hex as [? ? Hhere|? ? Hthere]; subst.
        -- left. by apply Hnew.
        -- by right.
Qed.

(** ** Ingest: the loops over the points *)

(** The intensity colorizer leaves a point as it is once the bounds have
    met. *)
Lemma transformIntensity_flat (val : float) (point : Point.t)
    (min_color : Color.t) (min_intensity max_intensity diff_intensity : float) :
  (diff_intensity <= 0)%Q ->
  let point' := transformIntensity val point min_color min_intensity
                  max_intensity diff_intensity in
  (Point.r_ point' == Point.r_ point /\ Point.g_ point' == Point.g_ point
   /\ Point.b_ point' == Point.b_ point)%Q
  /\ Point.x_ point' = Point.x_ point /\ Point.y_ point' = Point.y_ point
  /\ Point.z_ point' = Point.z_ point.
Proof.
  intros Hdiff. simpl. unfold float_gt.
  apply float_lt_false in Hdiff. rewrite Hdiff.
  replace (std_min 1 (std_max 0 1)) with 1%Q by reflexivity.
  repeat split; ring.
Qed.

Lemma color_body_spec (chan : ChannelFloat32.t) (type : ChannelType)
    (s : State) (diff : float) (i : nat) (points points' : list Point.t) :
  color_body chan type s diff i points = Returns points' ->
  exists point val,
    points !! i = Some point
    /\ ChannelFloat32.vals chan !! i = Some val
    /\ points' = <[i := funcs type val point (min_color_ s) (min_intensity_ s)
                           (max_intensity_ s) diff]> points.
Proof.
  unfold color_body. intros H. bind_inv H. bind_inv H. injection H as <-.
  apply vec_at_Returns in Ha, Ha0. eauto.
Qed.

(** The loop "Color all points" keeps the number of points, and keeps every
    property of points that the colorizer of the channel keeps. *)
Lemma color_loop_spec (chan : ChannelFloat32.t) (type : ChannelType)
    (s : State) (diff : float) (Q : Point.t -> Prop) (point_count : nat)
    (points points' : list Point.t) :
  (forall val point, Q point ->
     Q (funcs type val point (min_color_ s) (min_intensity_ s)
          (max_intensity_ s) diff)) ->
  for_loop point_count 0 (color_body chan type s diff) points
  = Returns points' ->
  length points' = length points /\ (Forall Q points -> Forall Q points').
Proof.
  intros Hkeep H.
  apply (for_loop_invariant
           (fun _ ps => length ps = length points
                        /\ (Forall Q points -> Forall Q ps))) in H; [done| |done].
  intros i ps ps' _ [Hlen HQ] Hbody.
  apply color_body_spec in Hbody.
  destruct Hbody as (point & val & Hp & _ & ->).
  split; [by rewrite length_insert|]. intros Hall. specialize (HQ Hall).
  apply Forall_insert; [done|]. apply Hkeep.
  by apply (Forall_lookup_1 Q ps i point).
Qed.

Lemma color_loop_returns (chan : ChannelFloat32.t) (type : ChannelType)
    (s : State) (diff : float) (point_count : nat) (points : list Point.t) :
  length points = point_count ->
  length (ChannelFloat32.vals chan) = point_count ->
  exists points',
    for_loop point_count 0 (color_body chan type s diff) points
    = Returns points'.
Proof.
  intros Hp Hv.
  destruct (for_loop_returns (fun _ ps => length ps = point_count)
              (color_body chan type s diff) point_count 0 points)
    as (points' & Hr & _); [|done|by exists points'].
  intros i ps Hi Hps. unfold color_body.
  destruct (vec_at_in_range ps i) as [p Hpi]; [lia|].
  destruct (vec_at_in_range (ChannelFloat32.vals chan) i) as [v Hvi]; [lia|].
  rewrite Hpi. simpl. rewrite Hvi. simpl. eexists. split; [done|].
  by rewrite length_insert.
Qed.

(** The channels that colour points under the intensity or the curvature
    selection all go through the intensity colorizer. *)
Lemma colors_points_intensity (idx : Z) (name : string) :
  idx = Intensity \/ idx = Curvature ->
  colors_points idx name = true ->
  channel_type name = Some CT_INTENSITY.
Proof.
  unfold colors_points, channel_type, is_intensity_name, is_curvature_name.
  intros [-> | ->]; simpl; rewrite ?orb_false_r;
    destruct (String.eqb name "intensity"), (String.eqb name "intensities"),
      (String.eqb name "curvature"), (String.eqb name "curvatures");
    simpl; done.
Qed.

Lemma color_channel_spec (point_count : nat) (chan : ChannelFloat32.t)
    (index : nat) (valid_channels : list bool) (s : State) (diff : float)
    (points points' : list Point.t) :
  color_channel point_count chan index valid_channels s diff points
  = Returns points' ->
  length points' = length points
  /\ forall c, (channel_color_idx_ s = Intensity
                \/ channel_color_idx_ s = Curvature) ->
               (diff <= 0)%Q ->
               Forall (has_color c) points -> Forall (has_color c) points'.
Proof.
  unfold color_channel. intros H. bind_inv H.
  destruct (negb a); [by injection H as <-|].
  destruct (channel_type _) as [type|] eqn:Etype; [|by injection H as <-].
  destruct (colors_points _ _) eqn:Ecol; [|by injection H as <-].
  split.
  - destruct (color_loop_spec chan type s diff (fun _ => True) point_count
                points points') as [Hlen _]; done.
  - intros c Hidx Hdiff.
    rewrite (colors_points_intensity _ _ Hidx Ecol) in Etype.
    injection Etype as <-.
    destruct (color_loop_spec chan CT_INTENSITY s diff (has_color c)
                point_count points points') as [_ Hall]; [|done|done].
    intros val point (Hr & Hg & Hb). simpl funcs.
    destruct (transformIntensity_flat val point (min_color_ s)
                (min_intensity_ s) (max_intensity_ s) diff Hdiff)
      as ((Hr' & Hg' & Hb') & _).
    unfold has_color. rewrite Hr', Hg', Hb'. done.
Qed.

Lemma color_channels_spec (point_count : nat) (chans : list ChannelFloat32.t) :
  forall (index : nat) (valid_channels : list bool) (s : State) (diff : float)
         (points points' : list Point.t),
    color_channels point_count chans index valid_channels s diff points
    = Returns points' ->
    length points' = length points
    /\ forall c, (channel_color_idx_ s = Intensity
                  \/ channel_color_idx_ s = Curvature) ->
                 (diff <= 0)%Q ->
                 Forall (has_color c) points -> Forall (has_color c) points'.
Proof.
  induction chans as [|chan rest IH];
    intros index valid_channels s diff points points' H.
  - simpl in H. by injection H as <-.
  - simpl in H. bind_inv H. apply color_channel_spec in Ha.
    apply IH in H. destruct Ha as [Hl1 Hc1], H as [Hl2 Hc2].
    split; [congruence|]. intros c Hidx Hdiff Hall. auto.
Qed.

Lemma color_channels_returns (point_count : nat)
    (chans : list ChannelFloat32.t) :
  forall (index : nat) (valid_channels : list bool) (s : State) (diff : float)
         (points : list Point.t),
    length points = point_count ->
    (forall k chan, chans !! k = Some chan ->
       valid_channels !! (index + k)%nat = Some (well_formed point_count chan)) ->
    exists points',
      color_channels point_count chans index valid_channels s diff points
      = Returns points'.
Proof.
  induction chans as [|chan rest IH];
    intros index valid_channels s diff points Hlen Hvalid.
  - simpl. eauto.
  - simpl.
    assert (exists points1,
              color_channel point_count chan index valid_channels s diff points
              = Returns points1) as [points1 H1].
    { unfold color_channel. unfold vec_at.
      specialize (Hvalid 0%nat chan eq_refl). rewrite Nat.add_0_r in Hvalid.
      rewrite Hvalid. simpl.
      destruct (well_formed point_count chan) eqn:Ewf; simpl; [|eauto].
      destruct (channel_type _); [|eauto].
      destruct (colors_points _ _); [|eauto].
      apply color_loop_returns; [done|]. by apply Nat.eqb_eq in Ewf. }
    rewrite H1. simpl.
    apply IH.
    + apply color_channel_spec in H1 as [H1 _]. congruence.
    + intros k c Hk. replace (S index + k)%nat with (index + S k)%nat by lia.
      by apply Hvalid.
Qed.

(** ** Ingest: a whole cloud *)

Lemma channel_index_from_spec (name : string) (chans : list ChannelFloat32.t) :
  forall index : Z,
    0 <= index ->
    let found := channel_index_from chans name index in
    found = -1
    \/ (index <= found
        /\ exists chan, chans !! Z.to_nat (found - index) = Some chan
                        /\ ChannelFloat32.name chan = name).
Proof.
  induction chans as [|chan rest IH]; intros index Hindex; simpl.
  - by left.
  - destruct (String.eqb (ChannelFloat32.name chan) name) eqn:E.
    + right. split; [lia|]. exists chan. rewrite Z.sub_diag. simpl.
      split; [done|]. by apply String.eqb_eq.
    + destruct (IH (index + 1)) as [Hnone | (Hle & c & Hc & Hname)]; [lia|by left|].
      right. split; [lia|]. exists c. split; [|done].
      replace (Z.to_nat (channel_index_from rest name (index + 1) - index))
        with (S (Z.to_nat (channel_index_from rest name (index + 1)
                           - (index + 1)))) by lia.
      done.
Qed.

Lemma getROSCloudChannelIndex_spec (cloud : PointCloud.t) (name : string) :
  let found := getROSCloudChannelIndex cloud name in
  found = -1
  \/ exists chan, PointCloud.chan cloud !! Z.to_nat found = Some chan
                  /\ ChannelFloat32.name chan = name.
Proof.
  unfold getROSCloudChannelIndex.
  destruct (channel_index_from_spec name (PointCloud.chan cloud) 0)
    as [H | (_ & chan & Hc & Hn)]; [lia|by left|].
  right. exists chan. by rewrite Z.sub_0_r in Hc.
Qed.

Section IngestProperties.

Variable transformPointCloud : string -> PointCloud.t -> option PointCloud.t.
Variable robotToOgre : Vector3.t -> Vector3.t.

Lemma coordinate_body_spec (cloud : PointCloud.t) (use : bool)
    (nx_idx ny_idx nz_idx : Z) (max_color : Color.t) (i : nat)
    (points points' : list Point.t) :
  coordinate_body robotToOgre cloud use nx_idx ny_idx nz_idx max_color i points
  = Returns points' ->
  (i < length points)%nat
  /\ exists point, points' = <[i := point]> points /\ has_color max_color point.
Proof.
  unfold coordinate_body. intros H. bind_inv H.
  apply vec_at_Returns in Ha. apply lookup_lt_Some in Ha.
  bind_inv H. destruct a0 as [[x y] z]. injection H as <-.
  split; [done|]. eexists. split; [done|]. by repeat split.
Qed.

Lemma coordinate_loop_spec (cloud : PointCloud.t) (use : bool)
    (nx_idx ny_idx nz_idx : Z) (max_color : Color.t) (point_count : nat)
    (points : list Point.t) :
  for_loop point_count 0
    (coordinate_body robotToOgre cloud use nx_idx ny_idx nz_idx max_color)
    (replicate point_count Point.zero) = Returns points ->
  length points = point_count /\ Forall (has_color max_color) points.
Proof.
  intros H.
  apply (for_loop_invariant
           (fun i ps => length ps = point_count
                        /\ forall j p, (j < i)%nat -> ps !! j = Some p ->
                                       has_color max_color p)) in H.
  - destruct H as [Hlen Hall]. split; [done|].
    apply Forall_lookup_2. intros j p Hj. apply (Hall j p); [|done].
    apply lookup_lt_Some in Hj. lia.
  - intros i ps ps' _ [Hlen Hall] Hbody.
    apply coordinate_body_spec in Hbody.
    destruct Hbody as (Hi & point & -> & Hcol).
    split; [by rewrite length_insert|].
    intros j p Hj Hp. destruct (decide (j = i)) as [->|Hne].
    + rewrite list_lookup_insert_eq in Hp; [|done]. by injection Hp as <-.
    + rewrite list_lookup_insert_ne in Hp; [|done].
      apply (Hall j p); [lia|done].
  - split; [by rewrite length_replicate|]. intros j p Hj. lia.
Qed.

(** The loop over the points reads in range when the three normal
    channels, if they are the coordinate source, have a value for every
    point. *)
Lemma coordinate_loop_returns (cloud : PointCloud.t) (use : bool)
    (nx_idx ny_idx nz_idx : Z) (max_color : Color.t) (point_count : nat) :
  length (PointCloud.pts cloud) = point_count ->
  (use && negb (nx_idx =? -1) && negb (ny_idx =? -1) && negb (nz_idx =? -1)
   = true ->
   forall idx, idx = nx_idx \/ idx = ny_idx \/ idx = nz_idx ->
     exists chan, PointCloud.chan cloud !! Z.to_nat idx = Some chan
                  /\ covers point_count chan) ->
  exists points,
    for_loop point_count 0
      (coordinate_body robotToOgre cloud use nx_idx ny_idx nz_idx max_color)
      (replicate point_count Point.zero) = Returns points.
Proof.
  intros Hpts Hnormals.
  destruct (for_loop_returns (fun _ ps => length ps = point_count)
              (coordinate_body robotToOgre cloud use nx_idx ny_idx nz_idx
                 max_color) point_count 0 (replicate point_count Point.zero))
    as (points & Hr & _); [| by rewrite length_replicate | by exists points].
  intros i ps Hi Hps. unfold coordinate_body.
  destruct (vec_at_in_range ps i) as [p Hp]; [lia|]. rewrite Hp. simpl.
  destruct (use && _ && _ && _) eqn:E.
  - destruct (Hnormals eq_refl nx_idx) as (cx & Hcx & Hx); [by left|].
    destruct (Hnormals eq_refl ny_idx) as (cy & Hcy & Hy); [by right; left|].
    destruct (Hnormals eq_refl nz_idx) as (cz & Hcz & Hz); [by right; right|].
    unfold covers in *.
    apply vec_at_Returns in Hcx, Hcy, Hcz. rewrite Hcx, Hcy, Hcz. simpl.
    destruct (vec_at_in_range (ChannelFloat32.vals cx) i) as [x Hvx]; [lia|].
    destruct (vec_at_in_range (ChannelFloat32.vals cy) i) as [y Hvy]; [lia|].
    destruct (vec_at_in_range (ChannelFloat32.vals cz) i) as [z Hvz]; [lia|].
    rewrite Hvx. simpl. rewrite Hvy. simpl. rewrite Hvz. simpl.
    eexists. split; [done|]. by rewrite length_insert.
  - destruct (vec_at_in_range (PointCloud.pts cloud) i) as [q Hq]; [lia|].
    rewrite Hq. simpl. eexists. split; [done|]. by rewrite length_insert.
Qed.

(** What a returning [transformCloud] has done. *)
Lemma transformCloud_spec (info info' : CloudInfo.t) (s s' : State) :
  transformCloud transformPointCloud robotToOgre info s = Returns (info', s') ->
  let cloud := reprojected transformPointCloud s (CloudInfo.message_ info) in
  let point_count := length (PointCloud.pts cloud) in
  (CloudInfo.num_points_ info' = point_count
   /\ CloudInfo.time_ info' = CloudInfo.time_ info
   /\ PointCloud.pts (CloudInfo.message_ info') = PointCloud.pts cloud
   /\ Forall2 same_shape (PointCloud.chan cloud)
        (PointCloud.chan (CloudInfo.message_ info')))
  /\ (clouds_ s' = clouds_ s
      /\ point_decay_time_ s' = point_decay_time_ s
      /\ channel_color_idx_ s' = channel_color_idx_ s
      /\ max_color_ s' = max_color_ s
      /\ new_cloud_ s' = new_cloud_ s
      /\ non_null s' = non_null s)
  /\ (exists points,
        length points = point_count
        /\ OgrePointCloud.points (cloud_ s') = kept_points s ++ points
        /\ ((channel_color_idx_ s = Intensity
             \/ channel_color_idx_ s = Curvature) ->
            (max_intensity_ s' <= min_intensity_ s')%Q ->
            Forall (has_color (max_color_ s)) points))
  /\ (bounds_ordered s -> (0 < point_count)%nat -> bounds_ordered s').
Proof.
  unfold transformCloud, reprojected. cbv zeta.
  set (s0 := match transformPointCloud _ _ with
             | Some _ => s
             | None => emit _ s
             end).
  set (cloud := match transformPointCloud _ _ with
                | Some t => t
                | None => CloudInfo.message_ info
                end).
  assert (same_settings s s0 /\ min_intensity_ s0 = min_intensity_ s
          /\ max_intensity_ s0 = max_intensity_ s)
    as (Hs0 & Hmin0 & Hmax0).
  { subst s0. destruct (transformPointCloud _ _); by repeat split. }
  unfold PointCloud.get_pts_size.
  intros H. bind_inv H. destruct a as [[[valid chans] use] s1].
  pose proof (check_channels_spec _ _ _ _ _ _ _ _ Ha)
    as (Hvalid & Hshape & Hs1 & Hord & _).
  set (warned := if use && _ then _ else _) in H.
  assert (same_settings s1 warned.2 /\ min_intensity_ warned.2 = min_intensity_ s1
          /\ max_intensity_ warned.2 = max_intensity_ s1) as (Hs2 & Hmin2 & Hmax2).
  { subst warned. destruct (use && _); by repeat split. }
  destruct warned as [use2 s2]. simpl in Hs2, Hmin2, Hmax2.
  bind_inv H. bind_inv H. injection H as <- <-.
  apply coordinate_loop_spec in Ha0. destruct Ha0 as [Hlen0 Hcol0].
  apply color_channels_spec in Ha1. destruct Ha1 as [Hlen1 Hcol1].
  pose proof (same_settings_trans _ _ _ Hs0
                (same_settings_trans _ _ _ Hs1 Hs2))
    as (Hc & Hr & Hd & Hi & _ & _ & Hmc & _ & Hnew & Hnn).
  split; [by repeat split|]. split; [by repeat split|]. split.
  - exists a0. split; [congruence|]. split.
    + simpl. unfold kept_points. rewrite Hr, Hd.
      destruct (float_eq (point_decay_time_ s) 0), a0; simpl;
        by rewrite ?app_nil_r.
    + simpl. rewrite Hmin2, Hmax2. intros Hidx Hflat.
      rewrite <- Hmc. apply Hcol1; [by rewrite Hi| |done].
      rewrite Hmin2, Hmax2. lra.
  - unfold bounds_ordered. simpl. rewrite Hmin2, Hmax2. intros Hb Hn.
    apply Hord; [|done]. unfold bounds_ordered. by rewrite Hmin0, Hmax0.
Qed.

(** [transformCloud] returns unless the normal sphere is selected and one of
    [nx], [ny], [nz] has fewer values than the cloud has points. *)
Lemma transformCloud_returns (info : CloudInfo.t) (s : State) :
  let cloud := reprojected transformPointCloud s (CloudInfo.message_ info) in
  let point_count := length (PointCloud.pts cloud) in
  channel_color_idx_ s <> NormalSphere
  \/ Forall (fun chan => is_normal_name (ChannelFloat32.name chan) = true ->
                         covers point_count chan) (PointCloud.chan cloud) ->
  exists r, transformCloud transformPointCloud robotToOgre info s = Returns r.
Proof.
  unfold transformCloud, reprojected. cbv zeta.
  set (s0 := match transformPointCloud _ _ with
             | Some _ => s
             | None => emit _ s
             end).
  set (cloud := match transformPointCloud _ _ with
                | Some t => t
                | None => CloudInfo.message_ info
                end).
  assert (channel_color_idx_ s0 = channel_color_idx_ s) as Hidx0.
  { subst s0. by destruct (transformPointCloud _ _). }
  unfold PointCloud.get_pts_size.
  set (point_count := length (PointCloud.pts cloud)).
  intros Hread.
  destruct (check_channels_returns point_count (PointCloud.chan cloud) false s0)
    as [[[[valid chans] use] s1] Hcheck].
  rewrite Hcheck. simpl.
  pose proof (check_channels_spec _ _ _ _ _ _ _ _ Hcheck)
    as (Hvalid & Hshape & _ & _ & Huse).
  set (cloud' := PointCloud.mk (PointCloud.frame_id cloud)
                   (PointCloud.pts cloud) chans).
  set (warned := if use && _ then _ else _).
  assert (warned.1 = true -> use = true) as Hwarned.
  { subst warned. destruct (use && _); simpl; [done|auto]. }
  destruct warned as [use2 s2]. simpl in Hwarned.
  destruct (coordinate_loop_returns cloud' use2
              (getROSCloudChannelIndex cloud' "nx")
              (getROSCloudChannelIndex cloud' "ny")
              (getROSCloudChannelIndex cloud' "nz")
              (max_color_ s2) point_count) as [points Hpoints]; [done| |].
  { intros Hnormals idx Hwhich.
    assert (use2 = true) as Huse2.
    { by destruct use2. }
    destruct (Huse (Hwarned Huse2)) as [Hfalse | Hsphere]; [done|].
    destruct Hread as [Hne | Hcovers]; [congruence|].
    assert (exists name, is_normal_name name = true
                         /\ idx = getROSCloudChannelIndex cloud' name
                         /\ idx <> -1) as (name & Hname & -> & Hfound).
    { rewrite Huse2 in Hnormals. simpl in Hnormals.
      apply andb_prop in Hnormals as [Hnormals Hz].
      apply andb_prop in Hnormals as [Hx Hy].
      apply negb_true_iff, Z.eqb_neq in Hx, Hy, Hz.
      destruct Hwhich as [-> | [-> | ->]];
        [exists "nx"%string | exists "ny"%string | exists "nz"%string];
        by repeat split. }
    destruct (getROSCloudChannelIndex_spec cloud' name)
      as [Hnone | (chan' & Hchan' & Hn)]; [done|].
    exists chan'. split; [done|]. simpl in Hchan'.
    destruct (Forall2_lookup_r _ _ _ _ _ Hshape Hchan')
      as (chan & Hchan & Hsame).
    destruct Hsame as [Hsn Hsl].
    pose proof (Forall_lookup_1 _ _ _ _ Hcovers Hchan) as Hc.
    unfold covers in *. rewrite Hsl. apply Hc. by rewrite <- Hsn, Hn. }
  rewrite Hpoints. simpl.
  apply coordinate_loop_spec in Hpoints as [Hlen _].
  destruct (color_channels_returns point_count chans 0
              valid s2 (max_intensity_ s2 - min_intensity_ s2)%Q points)
    as [points' Hcolor]; [done| |].
  { intros k chan' Hk. simpl in Hk. simpl.
    destruct (Forall2_lookup_r _ _ _ _ _ Hshape Hk) as (chan & Hchan & Hsame).
    rewrite Hvalid, list_lookup_fmap, Hchan. simpl.
    unfold well_formed. destruct Hsame as [_ ->]. done. }
  rewrite Hcolor. simpl. eauto.
Qed.

(** The bounds a cloud is coloured with meet when, under automatic bounds
    and the intensity selection, its intensity channels are constant. *)
Lemma transformCloud_constant (info info' : CloudInfo.t) (s s' : State)
    (v : float) :
  let cloud := reprojected transformPointCloud s (CloudInfo.message_ info) in
  let point_count := length (PointCloud.pts cloud) in
  auto_compute_intensity_bounds_ s = true ->
  channel_color_idx_ s = Intensity ->
  (-999999 <= v)%Q -> (0 < point_count)%nat ->
  Exists (fun chan => intensity_source point_count chan = true)
    (PointCloud.chan cloud) ->
  Forall (fun chan => intensity_source point_count chan = true ->
                      constant_channel v chan) (PointCloud.chan cloud) ->
  transformCloud transformPointCloud robotToOgre info s = Returns (info', s') ->
  (max_intensity_ s' == min_intensity_ s')%Q.
Proof.
  unfold transformCloud, reprojected. cbv zeta.
  set (s0 := match transformPointCloud _ _ with
             | Some _ => s
             | None => emit _ s
             end).
  set (cloud := match transformPointCloud _ _ with
                | Some t => t
                | None => CloudInfo.message_ info
                end).
  assert (auto_compute_intensity_bounds_ s0 = auto_compute_intensity_bounds_ s
          /\ channel_color_idx_ s0 = channel_color_idx_ s) as (Hauto0 & Hidx0).
  { subst s0. by destruct (transformPointCloud _ _). }
  unfold PointCloud.get_pts_size.
  intros Hauto Hidx Hv Hn Hsome Hconst H.
  bind_inv H. destruct a as [[[valid chans] use] s1].
  rewrite <- Hauto0 in Hauto. rewrite <- Hidx0 in Hidx.
  pose proof (check_channels_constant v _ _ _ _ _ _ _ _ Hv Hn Hauto Hidx Hconst
                Ha (or_intror Hsome)) as [Hmin Hmax].
  set (warned := if use && _ then _ else _) in H.
  assert (min_intensity_ warned.2 = min_intensity_ s1
          /\ max_intensity_ warned.2 = max_intensity_ s1) as (Hmin2 & Hmax2).
  { subst warned. by destruct (use && _). }
  destruct warned as [use2 s2]. simpl in Hmin2, Hmax2.
  bind_inv H. bind_inv H. injection H as <- <-.
  simpl. rewrite Hmin2, Hmax2, Hmin, Hmax. reflexivity.
Qed.

(** ** Messages *)

(** What a returning [addMessage] has done: one cloud appended, after the
    buffer and the renderer were emptied if the decay time is zero. *)
Lemma addMessage_spec (cloud : PointCloud.t) (s s' : State) :
  addMessage transformPointCloud robotToOgre cloud s = Returns s' ->
  exists info points,
    clouds_ s' = kept_clouds s ++ [info]
    /\ OgrePointCloud.points (cloud_ s') = kept_points s ++ points
    /\ length points = CloudInfo.num_points_ info
    /\ CloudInfo.num_points_ info
       = length (PointCloud.pts (reprojected transformPointCloud s cloud))
    /\ PointCloud.pts (CloudInfo.message_ info)
       = PointCloud.pts (reprojected transformPointCloud s cloud)
    /\ (CloudInfo.time_ info == 0)%Q
    /\ point_decay_time_ s' = point_decay_time_ s
    /\ new_cloud_ s' = true
    /\ (bounds_ordered s -> (0 < CloudInfo.num_points_ info)%nat ->
        bounds_ordered s').
Proof.
  unfold addMessage, processMessage. intros H. bind_inv H.
  destruct a as [info s1]. injection H as <-.
  apply transformCloud_spec in Ha. simpl in Ha.
  destruct Ha as ((Hn & Ht & Hpts & _) & (Hc & Hd & _) & (points & Hlen & Hr & _)
                  & Hord).
  exists info, points. unfold kept_clouds. rewrite <- Hd, <- Hc.
  repeat split; try done.
  - by destruct (float_eq (point_decay_time_ s1) 0).
  - by destruct (float_eq (point_decay_time_ s1) 0).
  - congruence.
  - by rewrite Ht.
  - by destruct (float_eq (point_decay_time_ s1) 0).
  - intros Hb Hpos. rewrite Hn in Hpos.
    assert (bounds_ordered s1) as Hb1 by auto.
    by destruct (float_eq (point_decay_time_ s1) 0).
Qed.

(** [addMessage] returns unless the normal sphere is selected and one of
    [nx], [ny], [nz] has fewer values than the cloud has points. *)
Lemma addMessage_returns (cloud : PointCloud.t) (s : State) :
  let ingested := reprojected transformPointCloud s cloud in
  channel_color_idx_ s <> NormalSphere
  \/ Forall (fun chan => is_normal_name (ChannelFloat32.name chan) = true ->
                         covers (length (PointCloud.pts ingested)) chan)
       (PointCloud.chan ingested) ->
  exists s', addMessage transformPointCloud robotToOgre cloud s = Returns s'.
Proof.
  intros ingested Hread. unfold addMessage, processMessage.
  destruct (transformCloud_returns (CloudInfo.mk cloud 0 0) s Hread)
    as [[info s1] Hr].
  rewrite Hr. simpl. eauto.
Qed.

(** Since the bounds are moved by [addMessage] only over a cloud that has
    points, they stay ordered. *)
Lemma addMessage_keeps_bounds_ordered (cloud : PointCloud.t) (s s' : State) :
  bounds_ordered s ->
  (0 < length (PointCloud.pts (reprojected transformPointCloud s cloud)))%nat ->
  addMessage transformPointCloud robotToOgre cloud s = Returns s' ->
  bounds_ordered s'.
Proof.
  intros Hb Hpos H. apply addMessage_spec in H.
  destruct H as (info & points & _ & _ & _ & Hn & _ & _ & _ & _ & Hord).
  apply Hord; [done|]. by rewrite Hn.
Qed.

(** ** Calls *)

Lemma call_spec (c : Call) (s s' : State) :
  call transformPointCloud robotToOgre c s = Returns s' ->
  match c with
  | CallAddMessage cloud =>
      addMessage transformPointCloud robotToOgre cloud s = Returns s'
  | CallUpdate dt => update dt s = Returns s'
  | CallReset | CallFixedFrameChanged | CallOnDisable => s' = reset s
  | CallSetDecayTime time =>
      clouds_ s' = clouds_ s
      /\ OgrePointCloud.points (cloud_ s') = OgrePointCloud.points (cloud_ s)
      /\ point_decay_time_ s' = time
  | _ =>
      clouds_ s' = clouds_ s
      /\ OgrePointCloud.points (cloud_ s') = OgrePointCloud.points (cloud_ s)
      /\ point_decay_time_ s' = point_decay_time_ s
  end.
Proof.
  destruct c; simpl; intros H; try done; try (by injection H as <-);
    try (injection H as <-; unfold_setters; simpl;
         repeat match goal with
                | |- context [if ?b then _ else _] => destruct b; simpl
                end; done).
  - unfold setStyle in H. bind_inv H. injection H as <-.
    unfold_setters. simpl. by destruct (non_null s style_property_).
  - unfold setChannelColorIndex in H. bind_inv H. by injection H as <-.
Qed.

(** ** The renderer and the buffer *)

Lemma buffer_total_app (a b : list CloudInfo.t) :
  buffer_total (a ++ b) = (buffer_total a + buffer_total b)%nat.
Proof. apply sum_list_with_app. Qed.

Lemma buffer_total_add_time (dt : float) (clouds : list CloudInfo.t) :
  buffer_total (map (add_time dt) clouds) = buffer_total clouds.
Proof.
  unfold buffer_total. induction clouds as [|info rest IH]; [done|].
  simpl. by rewrite IH.
Qed.

Lemma kept_counts_aligned (s : State) :
  counts_aligned s -> length (kept_points s) = buffer_total (kept_clouds s).
Proof.
  unfold counts_aligned, renderer_total, kept_points, kept_clouds.
  by destruct (float_eq (point_decay_time_ s) 0).
Qed.

Lemma addMessage_keeps_counts_aligned (cloud : PointCloud.t) (s s' : State) :
  counts_aligned s ->
  addMessage transformPointCloud robotToOgre cloud s = Returns s' ->
  counts_aligned s'.
Proof.
  intros Hal H. apply addMessage_spec in H.
  destruct H as (info & points & Hc & Hr & Hlen & _).
  unfold counts_aligned, renderer_total. rewrite Hc, Hr.
  rewrite length_app, buffer_total_app, (kept_counts_aligned s Hal), Hlen.
  unfold buffer_total. simpl. lia.
Qed.

Lemma update_keeps_counts_aligned (dt : float) (s s' : State) :
  counts_aligned s -> update dt s = Returns s' -> counts_aligned s'.
Proof.
  intros Hal H.
  destruct (update_buffers dt s)
    as (evicted & kept & Happ & _ & _ & _ & Hrun).
  destruct (Hrun s' H) as (Hc & Hr & _).
  unfold counts_aligned, renderer_total in *. rewrite Hc, Hr, length_drop, Hal.
  rewrite <- (buffer_total_add_time dt), Happ, buffer_total_app. lia.
Qed.

Lemma call_keeps_counts_aligned (c : Call) (s s' : State) :
  counts_aligned s ->
  call transformPointCloud robotToOgre c s = Returns s' ->
  counts_aligned s'.
Proof.
  intros Hal H. apply call_spec in H.
  destruct c;
    try (destruct H as (Hc & Hr & _);
         unfold counts_aligned, renderer_total in *; by rewrite Hc, Hr);
    try (by subst s').
  - by apply (update_keeps_counts_aligned dt s).
  - by apply (addMessage_keeps_counts_aligned cloud s).
Qed.

Lemma run_keeps_counts_aligned (calls : list Call) :
  forall s s' : State,
    counts_aligned s ->
    run transformPointCloud robotToOgre calls s = Returns s' ->
    counts_aligned s'.
Proof.
  induction calls as [|c rest IH]; intros s s' Hal H.
  - simpl in H. by injection H as <-.
  - simpl in H. bind_inv H. apply (IH a s'); [|done].
    by apply (call_keeps_counts_aligned c s).
Qed.

(** The display of the samples is the constructed one, with its
    properties created. *)
Lemma ready_is_constructed :
  (s ← PointCloudBase "cloud" "map"; Returns (createProperties s))
  = Returns Sample.ready.
Proof. vm_compute. reflexivity. Qed.

(** The constructor returns, with an empty buffer and an empty renderer. *)
Lemma PointCloudBase_returns (name fixed_frame : string) :
  exists s, PointCloudBase name fixed_frame = Returns s
            /\ clouds_ s = [] /\ OgrePointCloud.points (cloud_ s) = [].
Proof. eexists. split; [vm_compute; reflexivity|]. split; reflexivity. Qed.

(** C2.  The constructor leaves the buffer and the renderer empty, and from
    a state in which the renderer holds as many points as the buffered clouds
    recorded, every call leads to such a state.  [addMessage] appends one
    cloud to the buffer and exactly its points to the renderer, after
    emptying both when the decay time is zero; [update] removes a prefix of
    the buffer and exactly as many leading points of the renderer as that
    prefix recorded; [reset], [onDisable] and [fixedFrameChanged] empty
    both. *)
Theorem renderer_total_matches_buffer (s : State)
    (Haligned : counts_aligned s) :
  (forall cloud s',
     addMessage transformPointCloud robotToOgre cloud s = Returns s' ->
     counts_aligned s'
     /\ exists info points,
          clouds_ s' = kept_clouds s ++ [info]
          /\ OgrePointCloud.points (cloud_ s') = kept_points s ++ points
          /\ length points = CloudInfo.num_points_ info)
  /\ (forall dt s',
        update dt s = Returns s' ->
        counts_aligned s'
        /\ exists evicted,
             map (add_time dt) (clouds_ s) = evicted ++ clouds_ s'
             /\ OgrePointCloud.points (cloud_ s')
                = drop (buffer_total evicted)
                    (OgrePointCloud.points (cloud_ s)))
  /\ (counts_aligned (reset s) /\ clouds_ (reset s) = []
      /\ OgrePointCloud.points (cloud_ (reset s)) = [])
  /\ (counts_aligned (onDisable s) /\ clouds_ (onDisable s) = []
      /\ OgrePointCloud.points (cloud_ (onDisable s)) = [])
  /\ (counts_aligned (fixedFrameChanged s)
      /\ clouds_ (fixedFrameChanged s) = []
      /\ OgrePointCloud.points (cloud_ (fixedFrameChanged s)) = [])
  /\ (forall calls s',
        run transformPointCloud robotToOgre calls s = Returns s' ->
        counts_aligned s')
  /\ (forall name fixed_frame,
        exists s0, PointCloudBase name fixed_frame = Returns s0
                   /\ counts_aligned s0).
Proof.
  split; [|split; [|split; [|split; [|split; [|split]]]]]; try done.
  - intros cloud s' H. split.
    + by apply (addMessage_keeps_counts_aligned cloud s).
    + apply addMessage_spec in H.
      destruct H as (info & points & Hc & Hr & Hlen & _). eauto.
  - intros dt s' H. split.
    + by apply (update_keeps_counts_aligned dt s).
    + destruct (update_buffers dt s)
        as (evicted & kept & Happ & _ & _ & _ & Hrun).
      destruct (Hrun s' H) as (Hc & Hr & _). exists evicted.
      by rewrite Hc.
  - intros calls s' H. by apply (run_keeps_counts_aligned calls s).
  - intros name fixed_frame.
    destruct (PointCloudBase_returns name fixed_frame) as (s0 & Hs0 & Hc & Hr).
    exists s0. split; [exact Hs0|].
    unfold counts_aligned, renderer_total. by rewrite Hc, Hr.
Qed.

(** ** A decay time of zero *)

Lemma update_keeps_length_at_zero (dt : float) (s s' : State) :
  (point_decay_time_ s == 0)%Q ->
  update dt s = Returns s' ->
  length (clouds_ s') = length (clouds_ s)
  /\ point_decay_time_ s' = point_decay_time_ s.
Proof.
  intros Hzero H.
  destruct (update_buffers dt s)
    as (evicted & kept & Happ & Hpos & _ & _ & Hrun).
  destruct (Hrun s' H) as (Hc & _ & Hd). split; [|done].
  destruct evicted as [|info evicted].
  - simpl in Happ. rewrite Hc, <- Happ. apply length_map.
  - exfalso. assert (0 < point_decay_time_ s)%Q by (by apply Hpos). lra.
Qed.

Lemma addMessage_at_zero (cloud : PointCloud.t) (s s' : State) :
  (point_decay_time_ s == 0)%Q ->
  addMessage transformPointCloud robotToOgre cloud s = Returns s' ->
  exists info points,
    clouds_ s' = [info]
    /\ OgrePointCloud.points (cloud_ s') = points
    /\ length points = CloudInfo.num_points_ info
    /\ PointCloud.pts (CloudInfo.message_ info)
       = PointCloud.pts (reprojected transformPointCloud s cloud)
    /\ point_decay_time_ s' = point_decay_time_ s.
Proof.
  intros Hzero H. apply addMessage_spec in H.
  destruct H as (info & points & Hc & Hr & Hlen & _ & Hpts & _ & Hd & _).
  apply float_eq_true in Hzero.
  unfold kept_clouds, kept_points in *. rewrite Hzero in Hc, Hr.
  exists info, points. by repeat split.
Qed.

Lemma call_keeps_latest (c : Call) (s s' : State) :
  keeps_latest c ->
  (point_decay_time_ s == 0)%Q ->
  length (clouds_ s) = 1%nat ->
  call transformPointCloud robotToOgre c s = Returns s' ->
  (point_decay_time_ s' == 0)%Q /\ length (clouds_ s') = 1%nat.
Proof.
  intros [Hclear Htime] Hzero Hone H. apply call_spec in H.
  destruct c; try discriminate;
    try (destruct H as (Hc & _ & Hd); by rewrite Hc, Hd).
  - destruct (update_keeps_length_at_zero dt s s' Hzero H) as [Hl Hd].
    by rewrite Hl, Hd.
  - destruct (addMessage_at_zero cloud s s' Hzero H)
      as (info & points & Hc & _ & _ & _ & Hd).
    by rewrite Hc, Hd.
Qed.

Lemma run_keeps_latest (calls : list Call) :
  forall s s' : State,
    Forall keeps_latest calls ->
    (point_decay_time_ s == 0)%Q ->
    length (clouds_ s) = 1%nat ->
    run transformPointCloud robotToOgre calls s = Returns s' ->
    (point_decay_time_ s' == 0)%Q /\ length (clouds_ s') = 1%nat.
Proof.
  induction calls as [|c rest IH]; intros s s' Hall Hzero Hone H.
  - simpl in H. by injection H as <-.
  - simpl in H. bind_inv H. inversion Hall as [|? ? Hc Hrest]; subst.
    destruct (call_keeps_latest c s a Hc Hzero Hone Ha) as [Hz1 Ho1].
    by apply (IH a s').
Qed.

(** C4, as the code has it.  An [addMessage] under a decay time of zero
    empties the buffer and the renderer before it appends the new cloud,
    so it leaves exactly that cloud in the buffer and exactly its points
    in the renderer; and the buffer keeps holding exactly one cloud as long
    as the calls that follow neither clear the buffer nor set a decay time
    other than zero. *)
Theorem decay_zero_keeps_latest_only (cloud : PointCloud.t)
    (calls : list Call) (s s1 s2 : State) :
  (point_decay_time_ s == 0)%Q ->
  addMessage transformPointCloud robotToOgre cloud s = Returns s1 ->
  Forall keeps_latest calls ->
  run transformPointCloud robotToOgre calls s1 = Returns s2 ->
  (exists info points,
     clouds_ s1 = [info]
     /\ OgrePointCloud.points (cloud_ s1) = points
     /\ length points = CloudInfo.num_points_ info
     /\ PointCloud.pts (CloudInfo.message_ info)
        = PointCloud.pts (reprojected transformPointCloud s cloud))
  /\ length (clouds_ s2) = 1%nat
  /\ (point_decay_time_ s2 == 0)%Q.
Proof.
  intros Hzero Hadd Hcalls Hrun.
  destruct (addMessage_at_zero cloud s s1 Hzero Hadd)
    as (info & points & Hc & Hr & Hlen & Hpts & Hd).
  split; [by exists info, points|].
  destruct (run_keeps_latest calls s1 s2 Hcalls) as [Hz Ho]; try done.
  - by rewrite Hd.
  - by rewrite Hc.
Qed.

(** ** Colours *)

(** C6.  With [diff = max_intensity - min_intensity], the intensity
    colorizer mixes the colour the point has with [min_color] in the
    proportion [t], where [t] is [(val - min_intensity) / diff] clamped to
    [0, 1] when [diff > 0] and [1] when [diff <= 0]; the position is left
    alone.  So, when a cloud is ingested under the intensity or the
    curvature selection and the bounds it is coloured with have met, every
    point it adds to the renderer has the colour [max_color]; under
    automatic bounds and the intensity selection the bounds do meet for a
    cloud, with at least one point, whose well-formed intensity channels
    all hold one and the same value (not below [-999999]). *)
Theorem intensity_colorizer_interpolates :
  (forall (val : float) (point : Point.t) (min_color : Color.t)
          (min_intensity max_intensity : float),
      let diff := (max_intensity - min_intensity)%Q in
      let t := if Qlt_le_dec 0 diff
               then clamp01 ((val - min_intensity) / diff)%Q else 1%Q in
      let point' := transformIntensity val point min_color min_intensity
                      max_intensity diff in
      (Point.r_ point' == Point.r_ point * t + Color.r_ min_color * (1 - t))%Q
      /\ (Point.g_ point' == Point.g_ point * t + Color.g_ min_color * (1 - t))%Q
      /\ (Point.b_ point' == Point.b_ point * t + Color.b_ min_color * (1 - t))%Q
      /\ Point.x_ point' = Point.x_ point
      /\ Point.y_ point' = Point.y_ point
      /\ Point.z_ point' = Point.z_ point)
  /\ (forall (info info' : CloudInfo.t) (s s' : State),
        channel_color_idx_ s = Intensity \/ channel_color_idx_ s = Curvature ->
        transformCloud transformPointCloud robotToOgre info s
        = Returns (info', s') ->
        (max_intensity_ s' == min_intensity_ s')%Q ->
        exists points,
          OgrePointCloud.points (cloud_ s') = kept_points s ++ points
          /\ length points = CloudInfo.num_points_ info'
          /\ Forall (has_color (max_color_ s)) points)
  /\ (forall (info info' : CloudInfo.t) (s s' : State) (v : float),
        let cloud :=
          reprojected transformPointCloud s (CloudInfo.message_ info) in
        let point_count := length (PointCloud.pts cloud) in
        auto_compute_intensity_bounds_ s = true ->
        channel_color_idx_ s = Intensity ->
        (-999999 <= v)%Q -> (0 < point_count)%nat ->
        Exists (fun chan => intensity_source point_count chan = true)
          (PointCloud.chan cloud) ->
        Forall (fun chan => intensity_source point_count chan = true ->
                            constant_channel v chan) (PointCloud.chan cloud) ->
        transformCloud transformPointCloud robotToOgre info s
        = Returns (info', s') ->
        exists points,
          OgrePointCloud.points (cloud_ s') = kept_points s ++ points
          /\ length points = CloudInfo.num_points_ info'
          /\ Forall (has_color (max_color_ s)) points).
Proof.
  assert (forall (info info' : CloudInfo.t) (s s' : State),
            channel_color_idx_ s = Intensity \/ channel_color_idx_ s = Curvature ->
            transformCloud transformPointCloud robotToOgre info s
            = Returns (info', s') ->
            (max_intensity_ s' == min_intensity_ s')%Q ->
            exists points,
              OgrePointCloud.points (cloud_ s') = kept_points s ++ points
              /\ length points = CloudInfo.num_points_ info'
              /\ Forall (has_color (max_color_ s)) points) as Hmet.
  { intros info info' s s' Hidx H Hflat.
    apply transformCloud_spec in H.
    destruct H as ((Hn & _) & _ & (points & Hlen & Hr & Hcol) & _).
    exists points. split; [done|]. split; [congruence|].
    apply Hcol; [done|]. lra. }
  split; [|split; [exact Hmet|]].
  - intros val point min_color min_intensity max_intensity diff t point'.
    assert (std_min 1 (std_max 0 (if float_gt diff 0
                                  then (val - min_intensity) / diff
                                  else 1)) == t)%Q as Ht.
    { subst t. unfold float_gt, float_lt.
      destruct (Qlt_le_dec 0 diff); [apply std_min_max_clamp01|reflexivity]. }
    subst point'. unfold transformIntensity. simpl.
    repeat split; try done; rewrite Ht; reflexivity.
  - intros info info' s s' v cloud point_count Hauto Hidx Hv Hn Hsome Hconst H.
    apply (Hmet info info' s s'); [by left|done|].
    by apply (transformCloud_constant info info' s s' v).
Qed.

End IngestProperties.

(** ** The order of the intensity bounds *)

Lemma update_keeps_bounds_ordered (dt : float) (s s' : State) :
  bounds_ordered s -> update dt s = Returns s' -> bounds_ordered s'.
Proof.
  intros Hb H. apply update_Returns in H. destruct H as (s1 & Hs1 & ->).
  apply update_channels_frame in Hs1. destruct Hs1 as (_ & _ & _ & Hmin & Hmax).
  destruct (update_decay_frame (update_times dt (update_bounds s)))
    as (_ & _ & _ & _ & Hmin' & Hmax').
  unfold bounds_ordered. simpl. rewrite Hmin, Hmax, Hmin', Hmax'.
  by apply update_bounds_ordered.
Qed.

(** The tick after an automatic change of the bounds puts them in order,
    whatever they were. *)
Lemma update_restores_bounds_order (dt : float) (s s' : State) :
  intensity_bounds_changed_ s = true ->
  update dt s = Returns s' -> bounds_ordered s'.
Proof.
  intros Hflag H. apply update_Returns in H. destruct H as (s1 & Hs1 & ->).
  apply update_channels_frame in Hs1. destruct Hs1 as (_ & _ & _ & Hmin & Hmax).
  destruct (update_decay_frame (update_times dt (update_bounds s)))
    as (_ & _ & _ & _ & Hmin' & Hmax').
  unfold bounds_ordered. simpl. rewrite Hmin, Hmax, Hmin', Hmax'.
  by apply update_bounds_restores_order.
Qed.

Section BoundsOrder.

Variable transformPointCloud : string -> PointCloud.t -> option PointCloud.t.
Variable robotToOgre : Vector3.t -> Vector3.t.

(** Every call keeps the bounds ordered, [addMessage] as long as the cloud
    it ingests has a point. *)
Lemma call_keeps_bounds_ordered (c : Call) (s s' : State) :
  bounds_ordered s ->
  (forall cloud, c = CallAddMessage cloud ->
     (0 < length (PointCloud.pts
                    (reprojected transformPointCloud s cloud)))%nat) ->
  call transformPointCloud robotToOgre c s = Returns s' ->
  bounds_ordered s'.
Proof.
  intros Hb Hpoints H.
  destruct c; simpl in H;
    try (injection H as <-; unfold bounds_ordered in *; unfold_setters;
         simpl;
         repeat match goal with
                | |- context [if ?b then _ else _] => destruct b; simpl
                end; done).
  - unfold setStyle in H. bind_inv H. injection H as <-.
    unfold bounds_ordered in *. unfold_setters. simpl.
    by destruct (non_null s style_property_).
  - injection H as <-. apply setMinIntensity_ordered.
  - injection H as <-. apply setMaxIntensity_ordered.
  - unfold setChannelColorIndex in H. bind_inv H. by injection H as <-.
  - by apply (update_keeps_bounds_ordered dt s).
  - apply (addMessage_keeps_bounds_ordered transformPointCloud robotToOgre
             cloud s); auto.
Qed.

End BoundsOrder.

(** ** The packed colour *)

(** A pattern below [2^24] denotes that many units of [2^-149]. *)
Lemma float_of_bits_small (w : Z) :
  0 <= w < 2 ^ 24 -> float_of_bits w = (inject_Z (w * 1) / binary32_unit)%Q.
Proof.
  intros Hw. unfold float_of_bits.
  assert (Z.testbit w 31 = false) as ->.
  { destruct (Z.eq_dec w 0) as [->|Hne]; [done|].
    apply Z.bits_above_log2; [lia|].
    assert (Z.log2 w < 24) by (apply Z.log2_lt_pow2; lia). lia. }
  rewrite Z.shiftr_div_pow2 by lia.
  rewrite (Z.land_ones _ 8) by lia.
  change (2 ^ 23 - 1) with (Z.ones 23). rewrite Z.land_ones by lia.
  destruct (Z_lt_le_dec w (2 ^ 23)) as [Hlt|Hge].
  - rewrite (Z.div_small w) by lia. rewrite (Z.mod_small w) by lia.
    simpl. reflexivity.
  - assert (w / 2 ^ 23 = 1) as ->
      by (symmetry; apply Z.div_unique with (r := w - 2 ^ 23); lia).
    assert (w mod 2 ^ 23 = w - 2 ^ 23) as ->
      by (symmetry; apply Z.mod_unique with (q := 1); lia).
    change (1 mod 2 ^ 8) with 1. change (1 =? 0) with false.
    change (2 ^ (Z.max 1 1 - 1)) with 1. cbv iota.
    replace (2 ^ 23 + (w - 2 ^ 23)) with w by lia. reflexivity.
Qed.

Lemma bits_of_float_small (w : Z) :
  0 <= w < 2 ^ 24 -> bits_of_float (inject_Z (w * 1) / binary32_unit)%Q = w.
Proof.
  intros Hw. unfold bits_of_float.
  set (val := (inject_Z (w * 1) / binary32_unit)%Q).
  assert (0 <= val)%Q as Hval.
  { subst val. apply Qle_shift_div_l; [reflexivity|].
    rewrite Qmult_0_l. change 0%Q with (inject_Z 0). rewrite <- Zle_Qle. lia. }
  assert (Qabs val * binary32_unit == inject_Z w)%Q as Hscaled.
  { rewrite Qabs_pos by done. subst val. rewrite Z.mul_1_r. field. discriminate. }
  assert (Qfloor (Qabs val * binary32_unit) = w) as ->
    by (rewrite Hscaled; apply Qfloor_Z).
  assert (Z.log2 w - 23 <= 0) as Hlog.
  { destruct (Z.eq_dec w 0) as [->|Hne]; [done|].
    assert (Z.log2 w < 24) by (apply Z.log2_lt_pow2; lia). lia. }
  rewrite Z.max_l by lia. change (254 <=? 0) with false. cbv iota.
  rewrite Z.shiftr_0_r.
  assert (float_lt val 0 = false) as -> by (by apply float_lt_false).
  lia.
Qed.

Lemma reinterpret_small (w : Z) :
  0 <= w < 2 ^ 24 -> reinterpret_as_int (float_of_bits w) = w.
Proof.
  intros Hw. unfold reinterpret_as_int.
  rewrite float_of_bits_small, bits_of_float_small by done.
  assert ((w <? 2 ^ 31) = true) as -> by (apply Z.ltb_lt; lia). done.
Qed.

Lemma lor_shiftl_low (a b n : Z) :
  0 <= n -> 0 <= b < 2 ^ n -> Z.lor (Z.shiftl a n) b = a * 2 ^ n + b.
Proof.
  intros Hn Hb. rewrite <- Z.shiftl_mul_pow2 by done.
  symmetry. apply Z.add_nocarry_lor.
  apply Z.bits_inj'. intros i Hi.
  rewrite Z.land_spec, Z.bits_0, Z.shiftl_spec by done.
  destruct (Z_lt_le_dec i n) as [Hlt|Hge].
  - rewrite Z.testbit_neg_r by lia. done.
  - rewrite andb_comm.
    destruct (Z.eq_dec b 0) as [->|Hne]; [by rewrite Z.bits_0|].
    rewrite Z.bits_above_log2; [done|lia|].
    assert (Z.log2 b < n) by (apply Z.log2_lt_pow2; lia). lia.
Qed.

Lemma pack_rgb_fields (r g b : Z) :
  0 <= r < 256 -> 0 <= g < 256 -> 0 <= b < 256 ->
  let w := pack_rgb r g b in
  0 <= w < 2 ^ 24
  /\ Z.land (Z.shiftr w 16) 255 = r
  /\ Z.land (Z.shiftr w 8) 255 = g
  /\ Z.land w 255 = b.
Proof.
  intros Hr Hg Hb w.
  assert (w = r * 65536 + g * 256 + b) as ->.
  { subst w. unfold pack_rgb.
    rewrite (lor_shiftl_low g b 8) by lia.
    rewrite (lor_shiftl_low r _ 16) by lia. lia. }
  change 255 with (Z.ones 8). rewrite !Z.land_ones by lia.
  rewrite !Z.shiftr_div_pow2 by lia.
  change (2 ^ 16) with 65536. change (2 ^ 8) with 256.
  change (2 ^ 24) with 16777216.
  repeat split; try lia; Z.div_mod_to_equations; lia.
Qed.

(** C7.  For bytes [r], [g], [b], the float whose bits are [0x00RRGGBB],
    passed through the packed-RGB colorizer, gives the point the colour
    [(r/255, g/255, b/255)] and leaves its position alone; [min_color] and
    the intensity bounds have no part in the result. *)
Theorem transformRGB_unpacks (r g b : Z) (point : Point.t)
    (min_color : Color.t) (min_intensity max_intensity diff_intensity : float) :
  0 <= r < 256 -> 0 <= g < 256 -> 0 <= b < 256 ->
  let val := float_of_bits (pack_rgb r g b) in
  let point' := transformRGB val point min_color min_intensity max_intensity
                  diff_intensity in
  Point.r_ point' = (inject_Z r / 255)%Q
  /\ Point.g_ point' = (inject_Z g / 255)%Q
  /\ Point.b_ point' = (inject_Z b / 255)%Q
  /\ Point.x_ point' = Point.x_ point
  /\ Point.y_ point' = Point.y_ point
  /\ Point.z_ point' = Point.z_ point
  /\ forall (other_color : Color.t) (other_min other_max other_diff : float),
       transformRGB val point other_color other_min other_max other_diff
       = point'.
Proof.
  intros Hr Hg Hb val point'.
  destruct (pack_rgb_fields r g b Hr Hg Hb) as (Hw & Hfr & Hfg & Hfb).
  subst point' val. unfold transformRGB.
  rewrite reinterpret_small by done. simpl.
  rewrite Hfr, Hfg, Hfb. by repeat split.
Qed.

Lemma transformRGB_unpacks_witness :
  (0 <= 255 < 256 /\ 0 <= 128 < 256 /\ 0 <= 0 < 256)
  /\ Point.r_ (transformRGB (float_of_bits (pack_rgb 255 128 0)) Point.zero
                 (Color.mk 0 0 0) 0 4096 4096) = (inject_Z 255 / 255)%Q.
Proof.
  assert (0 <= 255 < 256) as Hr by lia.
  assert (0 <= 128 < 256) as Hg by lia.
  assert (0 <= 0 < 256) as Hb by lia.
  split; [by repeat split|].
  exact (proj1 (transformRGB_unpacks 255 128 0 Point.zero (Color.mk 0 0 0)
                  0 4096 4096 Hr Hg Hb)).
Defined.

(** ** The sample inputs, run *)

Lemma renderer_total_matches_buffer_witness :
  counts_aligned Sample.ready
  /\ exists s',
       addMessage Sample.identity_transform Sample.axes Sample.ramp
         Sample.ready = Returns s'
       /\ counts_aligned s' /\ renderer_total s' = 3%nat.
Proof.
  assert (counts_aligned Sample.ready) as Hal by reflexivity.
  split; [exact Hal|].
  assert (exists s',
            addMessage Sample.identity_transform Sample.axes Sample.ramp
              Sample.ready = Returns s' /\ renderer_total s' = 3%nat)
    as (s' & Hrun & Htotal).
  { eexists. split; [vm_compute; reflexivity|reflexivity]. }
  exists s'. split; [exact Hrun|]. split; [|exact Htotal].
  exact (proj1 (proj1 (renderer_total_matches_buffer
                         Sample.identity_transform Sample.axes
                         Sample.ready Hal) Sample.ramp s' Hrun)).
Defined.

Lemma decay_zero_keeps_latest_only_witness :
  exists s1 s2,
    (point_decay_time_ Sample.ready == 0)%Q
    /\ addMessage Sample.identity_transform Sample.axes Sample.flat
         Sample.ready = Returns s1
    /\ Forall keeps_latest Sample.quiet_calls
    /\ run Sample.identity_transform Sample.axes Sample.quiet_calls s1
       = Returns s2
    /\ length (clouds_ s2) = 1%nat.
Proof.
  assert (point_decay_time_ Sample.ready == 0)%Q as Hzero by reflexivity.
  assert (exists s1,
            addMessage Sample.identity_transform Sample.axes Sample.flat
              Sample.ready = Returns s1) as [s1 Hadd].
  { eexists. vm_compute. reflexivity. }
  assert (Forall keeps_latest Sample.quiet_calls) as Hcalls.
  { repeat constructor. }
  assert (exists s2,
            run Sample.identity_transform Sample.axes Sample.quiet_calls s1
            = Returns s2) as [s2 Hrun].
  { vm_compute in Hadd. injection Hadd as <-. eexists. vm_compute.
    reflexivity. }
  exists s1, s2. repeat split; try done.
  exact (proj1 (proj2 (decay_zero_keeps_latest_only
                         Sample.identity_transform Sample.axes
                         Sample.flat Sample.quiet_calls Sample.ready
                         s1 s2 Hzero Hadd Hcalls Hrun))).
Defined.

(** C4, as the specification words it, fails: two clouds accumulated under a
    positive decay time are both still buffered after the decay time is set
    to zero. *)
Lemma decay_zero_after_accumulating :
  ~ (forall (calls : list Call) (s' : State),
       run Sample.identity_transform Sample.axes calls Sample.ready
       = Returns s' ->
       (point_decay_time_ s' == 0)%Q ->
       received_since_reset calls false = true ->
       length (clouds_ s') = 1%nat).
Proof.
  intros Hclaim.
  assert (exists s',
            run Sample.identity_transform Sample.axes
              Sample.accumulate_then_zero Sample.ready = Returns s'
            /\ (point_decay_time_ s' == 0)%Q
            /\ length (clouds_ s') = 2%nat) as (s' & Hrun & Hzero & Htwo).
  { eexists. split; [vm_compute; reflexivity|]. split; reflexivity. }
  specialize (Hclaim Sample.accumulate_then_zero s' Hrun Hzero eq_refl).
  congruence.
Qed.

Lemma intensity_colorizer_interpolates_witness :
  exists info' s',
    transformCloud Sample.identity_transform Sample.axes
      (CloudInfo.mk Sample.flat 0 0) Sample.ready_intensity
    = Returns (info', s')
    /\ Forall (has_color (Color.mk 1 1 1)) (OgrePointCloud.points (cloud_ s')).
Proof.
  assert (exists info' s',
            transformCloud Sample.identity_transform Sample.axes
              (CloudInfo.mk Sample.flat 0 0) Sample.ready_intensity
            = Returns (info', s')) as (info' & s' & Hrun).
  { eexists _, _. vm_compute. reflexivity. }
  exists info', s'. split; [exact Hrun|].
  assert (-999999 <= 7)%Q as Hv by (by vm_compute).
  assert (0 < 2)%nat as Hn by lia.
  assert (Exists (fun chan => intensity_source 2 chan = true)
            (PointCloud.chan Sample.flat)) as Hsome.
  { apply Exists_cons_hd. reflexivity. }
  assert (Forall (fun chan => intensity_source 2 chan = true ->
                              constant_channel 7 chan)
            (PointCloud.chan Sample.flat)) as Hconst.
  { repeat constructor. }
  destruct (proj2 (proj2 (intensity_colorizer_interpolates
                            Sample.identity_transform Sample.axes))
              (CloudInfo.mk Sample.flat 0 0) info'
              Sample.ready_intensity s' 7%Q eq_refl eq_refl Hv Hn Hsome
              Hconst Hrun)
    as (points & Hpoints & _ & Hcolor).
  rewrite Hpoints. exact Hcolor.
Defined.

Lemma update_ages_then_evicts_head_witness :
  exists s s' evicted,
    run Sample.identity_transform Sample.axes Sample.two_clouds Sample.ready
    = Returns s
    /\ update (9/20) s = Returns s'
    /\ map (add_time (9/20)) (clouds_ s) = evicted ++ clouds_ s'
    /\ buffer_total evicted = 2%nat
    /\ length (clouds_ s') = 1%nat
    /\ renderer_total s' = 3%nat.
Proof.
  assert (exists s,
            run Sample.identity_transform Sample.axes Sample.two_clouds
              Sample.ready = Returns s) as [s Hs].
  { eexists. vm_compute. reflexivity. }
  assert (exists s', update (9/20) s = Returns s'
                     /\ length (clouds_ s') = 1%nat
                     /\ renderer_total s' = 3%nat
                     /\ renderer_total s = 5%nat) as (s' & Hs' & Hone & Hthree & Hfive).
  { vm_compute in Hs. injection Hs as <-. eexists.
    split; [vm_compute; reflexivity|]. repeat split. }
  destruct (update_ages_then_evicts_head (9/20) s)
    as (evicted & kept & Happ & _ & _ & _ & Hrun & _).
  destruct (Hrun s' Hs') as [Hkept Hpoints].
  exists s, s', evicted.
  split; [exact Hs|]. split; [exact Hs'|].
  split; [rewrite Hkept; exact Happ|].
  split; [|split; [exact Hone|exact Hthree]].
  unfold renderer_total in Hthree, Hfive.
  rewrite Hpoints, length_drop, Hfive in Hthree. clear - Hthree. lia.
Defined.

(** C1 at the input that breaks it.  With automatic bounds and the intensity
    channel selected, a cloud without points whose intensity channel has no
    values is well-formed; ingesting it leaves the bounds at the values the
    search starts from, the minimum above the maximum. *)
Theorem empty_cloud_inverts_bounds :
  bounds_ordered Sample.ready_intensity
  /\ exists s',
       addMessage Sample.identity_transform Sample.axes
         Sample.empty_cloud Sample.ready_intensity = Returns s'
       /\ min_intensity_ s' = 999999%Q
       /\ max_intensity_ s' = (-999999)%Q
       /\ ~ bounds_ordered s'.
Proof.
  split; [by vm_compute|].
  eexists. split; [vm_compute; reflexivity|].
  split; [reflexivity|]. split; [reflexivity|].
  unfold bounds_ordered. simpl. intros H. by vm_compute in H.
Qed.

(** C10 at the input that breaks it.  The normal sphere is selected and
    [nx], [ny], [nz] are all present, but [nx] has no value for the one point
    of the cloud: the first iteration of the loop over the points reads
    [nx.vals[0]] out of range. *)
Theorem normal_sphere_reads_out_of_range :
  channel_color_idx_ Sample.ready_normals = NormalSphere
  /\ getROSCloudChannelIndex Sample.short_normals "nx" = 0
  /\ getROSCloudChannelIndex Sample.short_normals "ny" = 1
  /\ getROSCloudChannelIndex Sample.short_normals "nz" = 2
  /\ PointCloud.get_pts_size Sample.short_normals = 1%nat
  /\ (exists nx, PointCloud.chan Sample.short_normals !! 0%nat = Some nx
                 /\ length (ChannelFloat32.vals nx) = 0%nat)
  /\ coordinate_body Sample.axes Sample.short_normals true 0 1 2
       (max_color_ Sample.ready_normals) 0 [Point.zero]
     = UndefinedBehaviour
  /\ transformCloud Sample.identity_transform Sample.axes
       (CloudInfo.mk Sample.short_normals 0 0) Sample.ready_normals
     = UndefinedBehaviour.
Proof.
  repeat split; try reflexivity.
  eexists. split; reflexivity.
Qed.

(** C5 at the input that breaks it.  The malformed channel [nx] of
    [short_normals] is reported, but under the normal sphere the cloud is
    not buffered: [addMessage] runs into the read out of range. *)
Theorem short_normal_channel_stops_addMessage :
  well_formed (PointCloud.get_pts_size Sample.short_normals)
    (ChannelFloat32.mk "nx" []) = false
  /\ addMessage Sample.identity_transform Sample.axes
       Sample.short_normals Sample.ready_normals
     = UndefinedBehaviour.
Proof. split; reflexivity. Qed.

(** * The pipeline in closed form *)

(** ** The loop over the values of a channel, exactly *)

(** State setters written twice. *)
Lemma set_bounds_twice (m m' x x' : float) (s : State) :
  set_max_intensity_ x' (set_min_intensity_ m' (set_max_intensity_ x
    (set_min_intensity_ m s)))
  = set_max_intensity_ x' (set_min_intensity_ m' s).
Proof. reflexivity. Qed.

(** The loop over the values of a well-formed channel caps every value and
    folds the bounds. *)
Lemma bounds_loop_from (rest : list float) :
  forall (seen : list float) (m x : float) (s : State),
    for_loop (length rest) (length seen) bounds_body
      (seen ++ rest, set_max_intensity_ x (set_min_intensity_ m s))
    = Returns (seen ++ map cap rest,
               set_max_intensity_ (high_bound rest x)
                 (set_min_intensity_ (low_bound rest m) s)).
Proof.
  induction rest as [|v rest IH]; intros seen m x s; [done|].
  simpl. unfold bounds_body at 1. unfold vec_at.
  rewrite lookup_app_r by lia. rewrite Nat.sub_diag. simpl.
  rewrite set_bounds_twice.
  replace (<[length seen:=std_min v 4096]> (seen ++ v :: rest))
    with ((seen ++ [cap v]) ++ rest).
  2: { rewrite insert_app_r_alt by lia. rewrite Nat.sub_diag. simpl.
       by rewrite <- app_assoc. }
  replace (S (length seen)) with (length (seen ++ [cap v]))
    by (rewrite length_app; simpl; lia).
  rewrite IH. by rewrite <- app_assoc.
Qed.

Lemma compute_intensity_bounds_exact (point_count : nat)
    (chan : ChannelFloat32.t) (s : State) :
  length (ChannelFloat32.vals chan) = point_count ->
  compute_intensity_bounds point_count chan s
  = Returns (ChannelFloat32.mk (ChannelFloat32.name chan)
               (map cap (ChannelFloat32.vals chan)),
             set_intensity_bounds_changed_ true
               (set_max_intensity_ (high_bound (ChannelFloat32.vals chan) (-999999))
                  (set_min_intensity_ (low_bound (ChannelFloat32.vals chan) 999999)
                     s))).
Proof.
  intros <-. unfold compute_intensity_bounds.
  pose proof (bounds_loop_from (ChannelFloat32.vals chan) [] 999999 (-999999) s)
    as H.
  simpl in H. rewrite H. reflexivity.
Qed.

(** ** The first loop over the channels, exactly *)

Lemma is_source_same (s t : State) (point_count : nat) (chan : ChannelFloat32.t) :
  auto_compute_intensity_bounds_ t = auto_compute_intensity_bounds_ s ->
  channel_color_idx_ t = channel_color_idx_ s ->
  is_source t point_count chan = is_source s point_count chan.
Proof. unfold is_source. by intros -> ->. Qed.

Lemma check_channel_exact (point_count : nat) (chan : ChannelFloat32.t)
    (use : bool) (s : State) :
  check_channel point_count chan use s
  = Returns (well_formed point_count chan,
             checked_channel s point_count chan,
             use || wants_normals s [chan],
             checked_state s point_count [chan]).
Proof.
  unfold check_channel, checked_channel, checked_state, wants_normals,
    size_errors, checked_bounds, is_source, well_formed.
  simpl.
  destruct (Nat.eqb (length (ChannelFloat32.vals chan)) point_count) eqn:Esize.
  - apply Nat.eqb_eq in Esize.
    assert (channel_color_idx_ s = Intensity \/ channel_color_idx_ s = Curvature
            \/ channel_color_idx_ s = NormalSphere
            \/ ((channel_color_idx_ s =? Intensity) = false
                /\ (channel_color_idx_ s =? Curvature) = false
                /\ (channel_color_idx_ s =? NormalSphere) = false))
      as [Hi | [Hi | [Hi | (Hi1 & Hi2 & Hi3)]]].
    { destruct (channel_color_idx_ s =? Intensity) eqn:E1;
        [apply Z.eqb_eq in E1; auto|].
      destruct (channel_color_idx_ s =? Curvature) eqn:E2;
        [apply Z.eqb_eq in E2; auto|].
      destruct (channel_color_idx_ s =? NormalSphere) eqn:E3;
        [apply Z.eqb_eq in E3; auto|]. auto 10. }
    all: rewrite ?Hi, ?Hi1, ?Hi2, ?Hi3; simpl;
      destruct (auto_compute_intensity_bounds_ s),
        (is_intensity_name (ChannelFloat32.name chan)) eqn:En1,
        (is_curvature_name (ChannelFloat32.name chan)) eqn:En2,
        (String.eqb (ChannelFloat32.name chan) "nx") eqn:En3;
      simpl;
      rewrite ?compute_intensity_bounds_exact by done; simpl;
      rewrite ?orb_false_r, ?orb_true_r;
      try (repeat f_equal; try done; destruct s; unfold with_bounds; simpl;
           by rewrite ?app_nil_r).
  - simpl. rewrite !andb_false_r. simpl.
    destruct (channel_color_idx_ s =? NormalSphere),
      (String.eqb (ChannelFloat32.name chan) "nx");
      simpl; rewrite ?orb_false_r, ?orb_true_r;
      repeat f_equal; try done; destruct s; unfold with_bounds; simpl;
      by rewrite ?app_nil_r.
Qed.

Lemma checked_state_fields (s : State) (point_count : nat)
    (chans : list ChannelFloat32.t) :
  let s' := checked_state s point_count chans in
  same_settings s s'
  /\ trace_ s' = trace_ s ++ concat (map (size_errors s point_count) chans)
  /\ (min_intensity_ s', max_intensity_ s', intensity_bounds_changed_ s')
     = fold_left (fun bounds chan => checked_bounds s point_count chan bounds)
         chans
         (min_intensity_ s, max_intensity_ s, intensity_bounds_changed_ s).
Proof.
  unfold checked_state, with_bounds. simpl.
  split; [by repeat split|]. split; [done|].
  by destruct (fold_left _ _ _) as [[m x] b].
Qed.

Lemma checked_state_cons (s : State) (point_count : nat)
    (chan : ChannelFloat32.t) (rest : list ChannelFloat32.t) :
  checked_state (checked_state s point_count [chan]) point_count rest
  = checked_state s point_count (chan :: rest).
Proof.
  set (s1 := checked_state s point_count [chan]).
  destruct (checked_state_fields s point_count [chan])
    as (Hset & Htrace & Hbounds). fold s1 in Hset, Htrace, Hbounds.
  assert (forall c, is_source s1 point_count c = is_source s point_count c)
    as Hsrc.
  { intros c. apply is_source_same; by destruct Hset as (_&_&_&?&?&_). }
  assert (name_ s1 = name_ s) as Hname by (by destruct Hset as (_&_&_&_&_&_&_&?&_)).
  unfold checked_state at 1.
  assert (forall b, 
            fold_left (fun bounds c => checked_bounds s1 point_count c bounds) rest b
            = fold_left (fun bounds c => checked_bounds s point_count c bounds) rest b)
    as Hfold.
  { induction rest as [|c rest IH]; intros b; [done|]. simpl.
    rewrite IH. unfold checked_bounds. by rewrite Hsrc. }
  assert (map (size_errors s1 point_count) rest
          = map (size_errors s point_count) rest) as Hmap.
  { apply map_ext. intros c. unfold size_errors. by rewrite Hname. }
  rewrite Hfold, Hmap, Hbounds, Htrace. simpl.
  unfold checked_state. simpl. rewrite app_nil_r, <- app_assoc.
  subst s1. unfold checked_state, with_bounds. simpl.
  by destruct s.
Qed.

Lemma check_channels_exact (point_count : nat) (chans : list ChannelFloat32.t) :
  forall (use : bool) (s : State),
    check_channels point_count chans use s
    = Returns (map (well_formed point_count) chans,
               map (checked_channel s point_count) chans,
               use || wants_normals s chans,
               checked_state s point_count chans).
Proof.
  induction chans as [|chan rest IH]; intros use s.
  - simpl. unfold wants_normals, checked_state, with_bounds. simpl.
    rewrite andb_false_r, orb_false_r. repeat f_equal.
    destruct s; simpl. by rewrite app_nil_r.
  - simpl. rewrite check_channel_exact. simpl. rewrite IH. simpl.
    destruct (checked_state_fields s point_count [chan]) as (Hset & _).
    assert (map (checked_channel (checked_state s point_count [chan]) point_count)
              rest = map (checked_channel s point_count) rest) as ->.
    { apply map_ext. intros c. unfold checked_channel.
      rewrite (is_source_same s); [done| |]; by destruct Hset as (_&_&_&?&?&_). }
    rewrite checked_state_cons.
    assert (wants_normals (checked_state s point_count [chan]) rest
            = wants_normals s rest) as ->.
    { unfold wants_normals. by destruct Hset as (_&_&_&->&_). }
    assert (use || wants_normals s [chan] || wants_normals s rest
            = use || wants_normals s (chan :: rest)) as ->; [|done].
    unfold wants_normals. simpl.
    destruct use, (channel_color_idx_ s =? NormalSphere),
      (String.eqb (ChannelFloat32.name chan) "nx"); done.
Qed.

(** ** The second loop over the channels, exactly *)

Lemma color_body_step (chan : ChannelFloat32.t) (type : ChannelType)
    (s : State) (diff : float) (i : nat) (points : list Point.t)
    (p : Point.t) (v : float) :
  points !! i = Some p ->
  ChannelFloat32.vals chan !! i = Some v ->
  color_body chan type s diff i points
  = Returns (<[i := colorize type s diff v p]> points).
Proof.
  intros Hp Hv. unfold color_body, vec_at. rewrite Hp. simpl. by rewrite Hv.
Qed.

Lemma color_loop_from (chan : ChannelFloat32.t) (type : ChannelType)
    (s : State) (diff : float) (rest_p : list Point.t) :
  forall (seen_p : list Point.t) (seen_v rest_v : list float),
    ChannelFloat32.vals chan = seen_v ++ rest_v ->
    length seen_v = length seen_p ->
    length rest_v = length rest_p ->
    for_loop (length rest_p) (length seen_p) (color_body chan type s diff)
      (seen_p ++ rest_p)
    = Returns (seen_p ++ zip_with (colorize type s diff) rest_v rest_p).
Proof.
  induction rest_p as [|p rest_p IH]; intros seen_p seen_v rest_v Hv Hs Hr.
  - destruct rest_v; [|done]. done.
  - destruct rest_v as [|v rest_v]; [done|]. simpl in Hr.
    simpl. rewrite (color_body_step chan type s diff _ _ p v).
    2: { rewrite lookup_app_r by lia. by rewrite Nat.sub_diag. }
    2: { rewrite Hv, lookup_app_r by lia. by rewrite Hs, Nat.sub_diag. }
    simpl.
    replace (<[length seen_p:=_]> (seen_p ++ p :: rest_p))
      with ((seen_p ++ [colorize type s diff v p]) ++ rest_p).
    2: { rewrite insert_app_r_alt by lia. rewrite Nat.sub_diag. simpl.
         by rewrite <- app_assoc. }
    replace (S (length seen_p))
      with (length (seen_p ++ [colorize type s diff v p]))
      by (rewrite length_app; simpl; lia).
    rewrite (IH _ (seen_v ++ [v]) rest_v).
    + by rewrite <- app_assoc.
    + by rewrite <- app_assoc.
    + rewrite !length_app. simpl. lia.
    + lia.
Qed.

Lemma color_channel_exact (point_count : nat) (chan : ChannelFloat32.t)
    (index : nat) (valid_channels : list bool) (s : State) (diff : float)
    (points : list Point.t) :
  valid_channels !! index = Some (well_formed point_count chan) ->
  length points = point_count ->
  color_channel point_count chan index valid_channels s diff points
  = Returns (paint_channel s diff point_count points chan).
Proof.
  intros Hvalid Hlen. unfold color_channel, paint_channel, painter, vec_at.
  rewrite Hvalid. simpl.
  destruct (well_formed point_count chan) eqn:Ewf; simpl; [|done].
  destruct (channel_type _) as [type|]; [|done].
  destruct (colors_points _ _); [|done].
  apply Nat.eqb_eq in Ewf.
  pose proof (color_loop_from chan type s diff points [] []
                (ChannelFloat32.vals chan) eq_refl eq_refl) as H.
  simpl in H. rewrite Hlen in H. apply H. lia.
Qed.

Lemma paint_channel_length (s : State) (diff : float) (point_count : nat)
    (points : list Point.t) (chan : ChannelFloat32.t) :
  length points = point_count ->
  length (paint_channel s diff point_count points chan) = point_count.
Proof.
  intros Hlen. unfold paint_channel, painter.
  destruct (well_formed point_count chan) eqn:Ewf; [|done].
  destruct (channel_type _); [|done]. destruct (colors_points _ _); [|done].
  apply Nat.eqb_eq in Ewf. rewrite length_zip_with. lia.
Qed.

Lemma color_channels_exact (point_count : nat) (chans : list ChannelFloat32.t) :
  forall (index : nat) (valid_channels : list bool) (s : State) (diff : float)
         (points : list Point.t),
    (forall k chan, chans !! k = Some chan ->
       valid_channels !! (index + k)%nat = Some (well_formed point_count chan)) ->
    length points = point_count ->
    color_channels point_count chans index valid_channels s diff points
    = Returns (fold_left (paint_channel s diff point_count) chans points).
Proof.
  induction chans as [|chan rest IH];
    intros index valid_channels s diff points Hvalid Hlen; [done|].
  simpl. rewrite color_channel_exact; [|  |done].
  - simpl. apply IH.
    + intros k c Hk. replace (S index + k)%nat with (index + S k)%nat by lia.
      by apply Hvalid.
    + by apply paint_channel_length.
  - specialize (Hvalid 0%nat chan eq_refl). by rewrite Nat.add_0_r in Hvalid.
Qed.

Lemma paint_channel_lookup (s : State) (diff : float) (point_count : nat)
    (chan : ChannelFloat32.t) (points : list Point.t) (i : nat) :
  length points = point_count ->
  paint_channel s diff point_count points chan !! i
  = (fun point => paint_point s diff point_count i point chan) <$> points !! i.
Proof.
  intros Hlen. unfold paint_channel, paint_point.
  destruct (painter s point_count chan) as [type|] eqn:Ep.
  - rewrite lookup_zip_with.
    assert (length (ChannelFloat32.vals chan) = point_count) as Hv.
    { unfold painter in Ep.
      destruct (well_formed point_count chan) eqn:Ewf; [|done].
      by apply Nat.eqb_eq in Ewf. }
    destruct (points !! i) as [p|] eqn:Hp.
    + destruct (ChannelFloat32.vals chan !! i) as [v|] eqn:Hvi; [done|].
      apply lookup_lt_Some in Hp. apply lookup_ge_None in Hvi. lia.
    + by destruct (ChannelFloat32.vals chan !! i).
  - by destruct (points !! i).
Qed.

(** Point by point: what the second loop does to a point depends on the
    values the channels hold for that point only. *)
Lemma paint_channels_lookup (s : State) (diff : float) (point_count : nat)
    (chans : list ChannelFloat32.t) :
  forall (points : list Point.t) (i : nat),
    length points = point_count ->
    fold_left (paint_channel s diff point_count) chans points !! i
    = (fun point => fold_left (paint_point s diff point_count i) chans point)
        <$> points !! i.
Proof.
  induction chans as [|chan rest IH]; intros points i Hlen.
  - simpl. by destruct (points !! i).
  - simpl. rewrite IH by (by apply paint_channel_length).
    rewrite paint_channel_lookup by done. by destruct (points !! i).
Qed.

(** ** Finding a channel by name *)

Lemma channel_index_from_named (name : string) (chans : list ChannelFloat32.t) :
  forall index : Z,
    0 <= index ->
    match named name chans with
    | None => channel_index_from chans name index = -1
    | Some chan =>
        index <= channel_index_from chans name index
        /\ chans !! Z.to_nat (channel_index_from chans name index - index)
           = Some chan
    end.
Proof.
  induction chans as [|chan rest IH]; intros index Hindex; [done|].
  unfold named in *. simpl.
  destruct (String.eqb (ChannelFloat32.name chan) name).
  - split; [lia|]. by rewrite Z.sub_diag.
  - specialize (IH (index + 1) ltac:(lia)).
    destruct (find _ rest) as [found|]; [|done].
    destruct IH as [Hle Hfound]. split; [lia|].
    replace (Z.to_nat (channel_index_from rest name (index + 1) - index))
      with (S (Z.to_nat (channel_index_from rest name (index + 1) - (index + 1))))
      by lia.
    done.
Qed.

Lemma getROSCloudChannelIndex_named (cloud : PointCloud.t) (name : string) :
  match named name (PointCloud.chan cloud) with
  | None => getROSCloudChannelIndex cloud name = -1
  | Some chan =>
      0 <= getROSCloudChannelIndex cloud name
      /\ PointCloud.chan cloud !! Z.to_nat (getROSCloudChannelIndex cloud name)
         = Some chan
  end.
Proof.
  pose proof (channel_index_from_named name (PointCloud.chan cloud) 0 ltac:(lia))
    as H.
  unfold getROSCloudChannelIndex.
  destruct (named name _); [|done]. by rewrite Z.sub_0_r in H.
Qed.

Lemma named_name (name : string) (chans : list ChannelFloat32.t)
    (chan : ChannelFloat32.t) :
  named name chans = Some chan -> ChannelFloat32.name chan = name.
Proof.
  intros H. apply find_some in H as [_ H]. by apply String.eqb_eq.
Qed.

Lemma checked_channel_name (s : State) (point_count : nat)
    (chan : ChannelFloat32.t) :
  ChannelFloat32.name (checked_channel s point_count chan)
  = ChannelFloat32.name chan.
Proof. unfold checked_channel. by destruct (is_source _ _ _). Qed.

Lemma checked_channel_length (s : State) (point_count : nat)
    (chan : ChannelFloat32.t) :
  length (ChannelFloat32.vals (checked_channel s point_count chan))
  = length (ChannelFloat32.vals chan).
Proof.
  unfold checked_channel. destruct (is_source _ _ _); [|done].
  simpl. by rewrite length_map.
Qed.

Lemma named_checked (s : State) (point_count : nat) (name : string)
    (chans : list ChannelFloat32.t) :
  named name (map (checked_channel s point_count) chans)
  = checked_channel s point_count <$> named name chans.
Proof.
  unfold named. induction chans as [|chan rest IH]; [done|].
  simpl. rewrite checked_channel_name.
  by destruct (String.eqb (ChannelFloat32.name chan) name).
Qed.

(** The automatic bounds never touch a channel of normals. *)
Lemma checked_channel_normal (s : State) (point_count : nat)
    (chan : ChannelFloat32.t) :
  is_normal_name (ChannelFloat32.name chan) = true ->
  checked_channel s point_count chan = chan.
Proof.
  intros Hname. unfold checked_channel, is_source.
  unfold is_normal_name in Hname.
  assert (is_intensity_name (ChannelFloat32.name chan) = false
          /\ is_curvature_name (ChannelFloat32.name chan) = false) as [-> ->].
  { unfold is_intensity_name, is_curvature_name.
    apply orb_true_iff in Hname as [Hname|Hname];
      [apply orb_true_iff in Hname as [Hname|Hname]|];
      apply String.eqb_eq in Hname; by rewrite Hname. }
  simpl. by rewrite andb_false_r.
Qed.

Lemma wants_normals_named (s : State) (chans : list ChannelFloat32.t) :
  wants_normals s chans
  = (channel_color_idx_ s =? NormalSphere)
    && match named "nx" chans with Some _ => true | None => false end.
Proof.
  unfold wants_normals, named. f_equal.
  induction chans as [|chan rest IH]; [done|]. simpl.
  by destruct (String.eqb (ChannelFloat32.name chan) "nx").
Qed.

(** ** The first loop over the points, exactly *)

Section IngestExactly.

Variable transformPointCloud : string -> PointCloud.t -> option PointCloud.t.
Variable robotToOgre : Vector3.t -> Vector3.t.

Lemma coordinate_loop_from (body : nat -> list Point.t -> Outcome (list Point.t))
    (source : nat -> option Vector3.t) (max_color : Color.t) (count : nat) :
  forall seen : list Point.t,
    (forall i points, (i < length points)%nat ->
       body i points
       = match source i with
         | Some v => Returns (<[i := placed robotToOgre max_color v]> points)
         | None => UndefinedBehaviour
         end) ->
    for_loop count (length seen) body (seen ++ replicate count Point.zero)
    = match mapM source (seq (length seen) count) with
      | Some vs => Returns (seen ++ map (placed robotToOgre max_color) vs)
      | None => UndefinedBehaviour
      end.
Proof.
  induction count as [|count IH]; intros seen Hbody.
  - simpl. by rewrite !app_nil_r.
  - simpl. rewrite Hbody by (rewrite length_app; simpl; lia).
    destruct (source (length seen)) as [v|]; [|done]. simpl.
    replace (<[length seen:=_]> (seen ++ Point.zero :: replicate count Point.zero))
      with ((seen ++ [placed robotToOgre max_color v])
              ++ replicate count Point.zero).
    2: { rewrite insert_app_r_alt by lia. rewrite Nat.sub_diag. simpl.
         by rewrite <- app_assoc. }
    replace (S (length seen))
      with (length (seen ++ [placed robotToOgre max_color v]))
      by (rewrite length_app; simpl; lia).
    rewrite IH by done.
    destruct (mapM source _) as [vs|]; [|done]. simpl.
    by rewrite <- app_assoc.
Qed.

Lemma coordinate_body_exact (s : State) (cloud : PointCloud.t)
    (point_count : nat) (max_color : Color.t) (i : nat) (points : list Point.t) :
  let cloud' :=
    PointCloud.mk (PointCloud.frame_id cloud) (PointCloud.pts cloud)
      (map (checked_channel s point_count) (PointCloud.chan cloud)) in
  let nx_idx := getROSCloudChannelIndex cloud' "nx" in
  let ny_idx := getROSCloudChannelIndex cloud' "ny" in
  let nz_idx := getROSCloudChannelIndex cloud' "nz" in
  let use := wants_normals s (PointCloud.chan cloud) in
  forall use' : bool,
  use' = (if use && ((ny_idx =? -1) || (nz_idx =? -1)) then false else use) ->
  (i < length points)%nat ->
  coordinate_body robotToOgre cloud' use' nx_idx ny_idx nz_idx max_color i points
  = match coordinate_source s cloud i with
    | Some v => Returns (<[i := placed robotToOgre max_color v]> points)
    | None => UndefinedBehaviour
    end.
Proof.
  intros cloud' nx_idx ny_idx nz_idx use use' Huse Hi.
  pose proof (getROSCloudChannelIndex_named cloud' "nx") as Hnx.
  pose proof (getROSCloudChannelIndex_named cloud' "ny") as Hny.
  pose proof (getROSCloudChannelIndex_named cloud' "nz") as Hnz.
  fold nx_idx in Hnx. fold ny_idx in Hny. fold nz_idx in Hnz.
  simpl in Hnx, Hny, Hnz. rewrite named_checked in Hnx, Hny, Hnz.
  assert (exists p0, points !! i = Some p0) as [p0 Hp0]
    by (by apply lookup_lt_is_Some_2).
  unfold coordinate_body, coordinate_source, normal_channels.
  unfold vec_at. rewrite Hp0. simpl.
  subst use' use. rewrite wants_normals_named.
  destruct (channel_color_idx_ s =? NormalSphere); simpl.
  2: { by destruct (PointCloud.pts cloud !! i). }
  destruct (named "nx" (PointCloud.chan cloud)) as [nx|] eqn:Enx; simpl in *.
  2: { by destruct (PointCloud.pts cloud !! i). }
  destruct (named "ny" (PointCloud.chan cloud)) as [ny|] eqn:Eny; simpl in *.
  2: { rewrite Hny. simpl. by destruct (PointCloud.pts cloud !! i). }
  destruct (named "nz" (PointCloud.chan cloud)) as [nz|] eqn:Enz; simpl in *.
  2: { rewrite Hnz. simpl. rewrite orb_true_r. simpl.
       by destruct (PointCloud.pts cloud !! i). }
  destruct Hnx as [Hnx0 Hnx], Hny as [Hny0 Hny], Hnz as [Hnz0 Hnz].
  assert ((nx_idx =? -1) = false) as -> by lia.
  assert ((ny_idx =? -1) = false) as -> by lia.
  assert ((nz_idx =? -1) = false) as -> by lia.
  simpl. rewrite Hnx, Hny, Hnz. simpl.
  rewrite (checked_channel_normal s point_count nx)
    by (unfold is_normal_name; by rewrite (named_name _ _ _ Enx)).
  rewrite (checked_channel_normal s point_count ny)
    by (unfold is_normal_name; by rewrite (named_name _ _ _ Eny)).
  rewrite (checked_channel_normal s point_count nz)
    by (unfold is_normal_name; by rewrite (named_name _ _ _ Enz)).
  destruct (ChannelFloat32.vals nx !! i); [|done]. simpl.
  destruct (ChannelFloat32.vals ny !! i); [|done]. simpl.
  by destruct (ChannelFloat32.vals nz !! i).
Qed.

Lemma checked_state_as_bounds (s : State) (point_count : nat)
    (chans : list ChannelFloat32.t) :
  checked_state s point_count chans
  = set_trace_ (trace_ s ++ concat (map (size_errors s point_count) chans))
      (with_bounds (ingest_bounds s point_count chans) s).
Proof.
  unfold checked_state, ingest_bounds, with_bounds.
  by destruct (fold_left _ _ _) as [[m x] b].
Qed.

Lemma normals_warning_index (s : State) (cloud : PointCloud.t)
    (point_count : nat) :
  let cloud' :=
    PointCloud.mk (PointCloud.frame_id cloud) (PointCloud.pts cloud)
      (map (checked_channel s point_count) (PointCloud.chan cloud)) in
  normals_warning s (PointCloud.chan cloud)
  = if wants_normals s (PointCloud.chan cloud)
       && ((getROSCloudChannelIndex cloud' "ny" =? -1)
           || (getROSCloudChannelIndex cloud' "nz" =? -1))
    then [RosWarnNormals] else [].
Proof.
  intros cloud'.
  pose proof (getROSCloudChannelIndex_named cloud' "ny") as Hny.
  pose proof (getROSCloudChannelIndex_named cloud' "nz") as Hnz.
  simpl in Hny, Hnz. rewrite named_checked in Hny, Hnz.
  unfold normals_warning.
  destruct (wants_normals s (PointCloud.chan cloud)); [|done]. simpl.
  destruct (named "ny" (PointCloud.chan cloud)); simpl in *.
  2: { by rewrite Hny. }
  destruct (named "nz" (PointCloud.chan cloud)); simpl in *.
  2: { rewrite Hnz. by rewrite orb_true_r. }
  destruct Hny as [Hny _], Hnz as [Hnz _].
  assert ((getROSCloudChannelIndex cloud' "ny" =? -1) = false) as -> by lia.
  assert ((getROSCloudChannelIndex cloud' "nz" =? -1) = false) as -> by lia.
  done.
Qed.

Lemma well_formed_checked (s : State) (point_count : nat)
    (chan : ChannelFloat32.t) :
  well_formed point_count (checked_channel s point_count chan)
  = well_formed point_count chan.
Proof. unfold well_formed. by rewrite checked_channel_length. Qed.

Lemma transform_errors_state (s : State) (cloud : PointCloud.t) :
  match transformPointCloud (fixed_frame_ s) cloud with
  | Some _ => s
  | None =>
      emit (RosErrorTransform (name_ s)
              (if String.eqb (PointCloud.frame_id cloud) EmptyString
               then fixed_frame_ s else PointCloud.frame_id cloud)
              (fixed_frame_ s)) s
  end
  = set_trace_ (trace_ s ++ transform_errors transformPointCloud s cloud) s.
Proof.
  unfold transform_errors.
  destruct (transformPointCloud _ _); [|done].
  destruct s; unfold set_trace_; simpl. by rewrite app_nil_r.
Qed.

Lemma transformCloud_exact (info : CloudInfo.t) (s : State) :
  let cloud := CloudInfo.message_ info in
  let s' := ingest_state transformPointCloud s cloud in
  transformCloud transformPointCloud robotToOgre info s
  = match ingest_points transformPointCloud robotToOgre s cloud with
    | Some points =>
        Returns (CloudInfo.mk (ingest_cloud transformPointCloud s cloud)
                   (CloudInfo.time_ info)
                   (length (PointCloud.pts
                              (reprojected transformPointCloud s cloud))),
                 causeRender (set_cloud_ (ingest_renderer s points) s'))
    | None => UndefinedBehaviour
    end.
Proof.
  intros cloud s'. subst s'.
  unfold transformCloud, PointCloud.get_pts_size. cbv zeta. fold cloud.
  rewrite transform_errors_state.
  change (match transformPointCloud (fixed_frame_ s) cloud with
          | Some transformed => transformed
          | None => cloud
          end) with (reprojected transformPointCloud s cloud).
  set (c := reprojected transformPointCloud s cloud).
  set (N := length (PointCloud.pts c)).
  set (T := transform_errors transformPointCloud s cloud).
  rewrite check_channels_exact.
  unfold mbind at 1, Outcome_bind at 1. cbv beta iota.
  change (checked_channel (set_trace_ (trace_ s ++ T) s))
    with (checked_channel s).
  change (wants_normals (set_trace_ (trace_ s ++ T) s)) with (wants_normals s).
  simpl orb.
  set (cloud' := PointCloud.mk (PointCloud.frame_id c) (PointCloud.pts c)
                   (map (checked_channel s N) (PointCloud.chan c))).
  pose proof (normals_warning_index s c N) as Hwarn. fold cloud' in Hwarn.
  cbv zeta in Hwarn.
  set (b := wants_normals s (PointCloud.chan c) && _) in *.
  assert ((if b
           then emit RosWarnNormals
                  (checked_state (set_trace_ (trace_ s ++ T) s) N
                     (PointCloud.chan c))
           else checked_state (set_trace_ (trace_ s ++ T) s) N
                  (PointCloud.chan c))
          = ingest_state transformPointCloud s cloud) as Hstate.
  { unfold ingest_state, ingest_log. fold c N T. rewrite Hwarn.
    rewrite checked_state_as_bounds.
    change (ingest_bounds (set_trace_ (trace_ s ++ T) s))
      with (ingest_bounds s).
    change (size_errors (set_trace_ (trace_ s ++ T) s)) with (size_errors s).
    destruct (ingest_bounds s N (PointCloud.chan c)) as [[m x] f].
    destruct b, s; unfold emit, with_bounds, set_trace_; simpl;
      f_equal; by rewrite <- ?app_assoc, ?app_nil_r. }
  unfold ingest_points. fold c N.
  set (s' := ingest_state transformPointCloud s cloud) in *.
  assert (forall use' : bool,
            use' = (if b then false else wants_normals s (PointCloud.chan c)) ->
            for_loop N 0
              (coordinate_body robotToOgre cloud' use'
                 (getROSCloudChannelIndex cloud' "nx")
                 (getROSCloudChannelIndex cloud' "ny")
                 (getROSCloudChannelIndex cloud' "nz") (max_color_ s))
              (replicate N Point.zero)
            = match mapM (coordinate_source s c) (seq 0 N) with
              | Some sources =>
                  Returns (map (placed robotToOgre (max_color_ s)) sources)
              | None => UndefinedBehaviour
              end) as Hloop.
  { intros use' Huse.
    apply (coordinate_loop_from _ (coordinate_source s c) (max_color_ s) N []).
    intros i points Hi. by apply coordinate_body_exact. }
  assert (forall points : list Point.t,
            length points = N ->
            color_channels N (PointCloud.chan cloud') 0
              (map (well_formed N) (PointCloud.chan c)) s'
              (max_intensity_ s' - min_intensity_ s') points
            = Returns (fold_left
                         (paint_channel s' (max_intensity_ s' - min_intensity_ s')
                            N)
                         (PointCloud.chan cloud') points)) as Hcolor.
  { intros points Hlen. apply color_channels_exact; [|done].
    intros k chan Hk. simpl in Hk. rewrite list_lookup_fmap in Hk.
    simpl. rewrite list_lookup_fmap.
    destruct (PointCloud.chan c !! k) as [chan0|]; [|done].
    simpl in *. injection Hk as <-. by rewrite well_formed_checked. }
  assert (forall sources, mapM (coordinate_source s c) (seq 0 N) = Some sources ->
            length (map (placed robotToOgre (max_color_ s)) sources) = N)
    as Hlength.
  { intros sources Hsources. apply length_mapM in Hsources.
    rewrite length_map, <- Hsources. by rewrite length_seq. }
  destruct b; cbv beta iota; rewrite Hstate;
    change (max_color_ s') with (max_color_ s);
    rewrite (Hloop _ eq_refl);
    (destruct (mapM (coordinate_source s c) (seq 0 N)) as [sources|] eqn:Esrc;
     [|done]);
    unfold mbind at 1, Outcome_bind at 1; cbv beta iota;
    rewrite (Hcolor _ (Hlength _ eq_refl));
    reflexivity.
Qed.

Lemma addMessage_exact (cloud : PointCloud.t) (s : State) :
  addMessage transformPointCloud robotToOgre cloud s
  = match ingest_points transformPointCloud robotToOgre s cloud with
    | Some points =>
        Returns
          (set_new_cloud_ true
             (set_clouds_
                (kept_clouds s
                 ++ [CloudInfo.mk (ingest_cloud transformPointCloud s cloud) 0
                       (length (PointCloud.pts
                                  (reprojected transformPointCloud s cloud)))])
                (causeRender
                   (set_cloud_ (ingest_renderer s points)
                      (ingest_state transformPointCloud s cloud)))))
    | None => UndefinedBehaviour
    end.
Proof.
  unfold addMessage, processMessage. rewrite transformCloud_exact.
  destruct (ingest_points _ _ _ _) as [points|]; [|done].
  unfold mbind, Outcome_bind. cbv beta iota zeta. unfold kept_clouds.
  set (s' := causeRender _).
  assert (point_decay_time_ s' = point_decay_time_ s) as -> by reflexivity.
  assert (clouds_ s' = clouds_ s) as Hclouds by reflexivity.
  clearbody s'.
  destruct (float_eq (point_decay_time_ s) 0); [|rewrite Hclouds];
    by destruct s'.
Qed.

End IngestExactly.

(** ** What a call of [addMessage] does *)

Lemma ingest_state_fields
    (transformPointCloud : string -> PointCloud.t -> option PointCloud.t)
    (s : State) (cloud : PointCloud.t) :
  let ingested := reprojected transformPointCloud s cloud in
  let s' := ingest_state transformPointCloud s cloud in
  same_settings s s'
  /\ trace_ s' = trace_ s ++ ingest_log transformPointCloud s cloud
  /\ (min_intensity_ s', max_intensity_ s', intensity_bounds_changed_ s')
     = ingest_bounds s (length (PointCloud.pts ingested))
         (PointCloud.chan ingested).
Proof.
  unfold ingest_state, with_bounds. simpl.
  split; [by repeat split|]. split; [done|].
  by destruct (ingest_bounds _ _ _) as [[m x] f].
Qed.

Lemma coordinate_sources_found (s : State) (cloud : PointCloud.t) :
  let point_count := length (PointCloud.pts cloud) in
  is_Some (mapM (coordinate_source s cloud) (seq 0 point_count))
  <-> match normal_channels s (PointCloud.chan cloud) with
      | Some (nx, ny, nz) =>
          covers point_count nx /\ covers point_count ny
          /\ covers point_count nz
      | None => True
      end.
Proof.
  intros point_count. rewrite mapM_is_Some, Forall_seq.
  unfold coordinate_source, covers.
  destruct (normal_channels s (PointCloud.chan cloud)) as [[[nx ny] nz]|].
  - split.
    + intros H.
      assert (forall vals : list float,
                (forall i, (0 <= i < 0 + point_count)%nat ->
                           is_Some (vals !! i)) ->
                (point_count <= length vals)%nat) as Hcover.
      { intros vals Hvals.
        destruct (decide (point_count <= length vals)%nat) as [|Hshort];
          [done|].
        destruct (Hvals (length vals) ltac:(lia)) as [v Hv].
        apply lookup_lt_Some in Hv. lia. }
      repeat split; apply Hcover; intros i Hi; specialize (H i Hi);
        simpl in H;
        destruct (ChannelFloat32.vals nx !! i), (ChannelFloat32.vals ny !! i),
          (ChannelFloat32.vals nz !! i); by try destruct H.
    + intros (Hnx & Hny & Hnz) i Hi. simpl.
      destruct (lookup_lt_is_Some_2 (ChannelFloat32.vals nx) i ltac:(lia))
        as [x ->].
      destruct (lookup_lt_is_Some_2 (ChannelFloat32.vals ny) i ltac:(lia))
        as [y ->].
      destruct (lookup_lt_is_Some_2 (ChannelFloat32.vals nz) i ltac:(lia))
        as [z ->].
      done.
  - split; [done|]. intros _ i Hi. simpl.
    destruct (lookup_lt_is_Some_2 (PointCloud.pts cloud) i) as [p ->]; [|done].
    subst point_count. lia.
Qed.

Lemma ingest_renderer_points (s : State) (points : list Point.t) :
  OgrePointCloud.points (ingest_renderer s points) = kept_points s ++ points.
Proof.
  unfold ingest_renderer, kept_points.
  destruct points as [|point points];
    destruct (float_eq (point_decay_time_ s) 0); simpl;
    by rewrite ?app_nil_r.
Qed.

(** A colorizer never moves a point. *)
Lemma position_colorize (type : ChannelType) (s : State) (diff val : float)
    (point : Point.t) :
  position (colorize type s diff val point) = position point.
Proof. by destruct type. Qed.

Lemma position_paint_point (s : State) (diff : float) (point_count i : nat)
    (chans : list ChannelFloat32.t) :
  forall point : Point.t,
    position (fold_left (paint_point s diff point_count i) chans point)
    = position point.
Proof.
  induction chans as [|chan rest IH]; intros point; [done|].
  simpl. rewrite IH. unfold paint_point.
  destruct (painter s point_count chan); [|done].
  destruct (ChannelFloat32.vals chan !! i); [|done].
  apply position_colorize.
Qed.

Lemma position_placed (robotToOgre : Vector3.t -> Vector3.t)
    (max_color : Color.t) (source : Vector3.t) :
  position (placed robotToOgre max_color source) = robotToOgre source.
Proof. unfold position, placed. simpl. by destruct (robotToOgre source). Qed.

Lemma paint_channels_length (s : State) (diff : float) (point_count : nat)
    (chans : list ChannelFloat32.t) :
  forall points : list Point.t,
    length points = point_count ->
    length (fold_left (paint_channel s diff point_count) chans points)
    = point_count.
Proof.
  induction chans as [|chan rest IH]; intros points Hlen; [done|].
  simpl. apply IH. by apply paint_channel_length.
Qed.

Section IngestObserved.

Variable transformPointCloud : string -> PointCloud.t -> option PointCloud.t.
Variable robotToOgre : Vector3.t -> Vector3.t.

(** Everything a returning [addMessage] leaves behind. *)
Lemma addMessage_observed (cloud : PointCloud.t) (s s' : State) :
  addMessage transformPointCloud robotToOgre cloud s = Returns s' ->
  let ingested := reprojected transformPointCloud s cloud in
  let point_count := length (PointCloud.pts ingested) in
  exists points,
    ingest_points transformPointCloud robotToOgre s cloud = Some points
    /\ trace_ s'
       = (trace_ s ++ ingest_log transformPointCloud s cloud) ++ [CauseRender]
    /\ clouds_ s'
       = kept_clouds s
         ++ [CloudInfo.mk (ingest_cloud transformPointCloud s cloud) 0
               point_count]
    /\ OgrePointCloud.points (cloud_ s') = kept_points s ++ points
    /\ (min_intensity_ s', max_intensity_ s', intensity_bounds_changed_ s')
       = ingest_bounds s point_count (PointCloud.chan ingested)
    /\ channel_color_idx_ s' = channel_color_idx_ s
    /\ min_color_ s' = min_color_ s
    /\ max_color_ s' = max_color_ s.
Proof.
  intros Hrun ingested point_count. rewrite addMessage_exact in Hrun.
  destruct (ingest_points transformPointCloud robotToOgre s cloud)
    as [points|]; [|done].
  injection Hrun as <-. exists points.
  destruct (ingest_state_fields transformPointCloud s cloud)
    as (Hsame & Htrace & Hbounds).
  fold ingested point_count in Hbounds.
  set (s1 := ingest_state transformPointCloud s cloud) in *.
  destruct Hsame as (_ & _ & _ & Hidx & _ & Hmin & Hmax & _).
  clearbody s1. simpl.
  rewrite ingest_renderer_points, Htrace. by repeat split.
Qed.

(** The points of a returning [addMessage], one by one. *)
Lemma ingest_points_lookup (cloud : PointCloud.t) (s : State)
    (points : list Point.t) :
  let ingested := reprojected transformPointCloud s cloud in
  let point_count := length (PointCloud.pts ingested) in
  let s' := ingest_state transformPointCloud s cloud in
  ingest_points transformPointCloud robotToOgre s cloud = Some points ->
  length points = point_count
  /\ forall i point,
       points !! i = Some point ->
       exists source,
         coordinate_source s ingested i = Some source
         /\ point
            = fold_left
                (paint_point s' (max_intensity_ s' - min_intensity_ s')%Q
                   point_count i)
                (PointCloud.chan (ingest_cloud transformPointCloud s cloud))
                (placed robotToOgre (max_color_ s) source).
Proof.
  intros ingested point_count s'. unfold ingest_points.
  fold ingested point_count s'.
  destruct (mapM (coordinate_source s ingested) (seq 0 point_count))
    as [sources|] eqn:Esources; [|done].
  intros [= <-].
  assert (length (map (placed robotToOgre (max_color_ s)) sources)
          = point_count) as Hlen.
  { apply length_mapM in Esources.
    rewrite length_map, <- Esources. by rewrite length_seq. }
  split; [by apply paint_channels_length|].
  intros i point Hpoint.
  rewrite paint_channels_lookup in Hpoint by done.
  rewrite list_lookup_fmap in Hpoint.
  destruct (sources !! i) as [source|] eqn:Esource; [|done].
  simpl in Hpoint. injection Hpoint as <-.
  exists source. split; [|done].
  apply mapM_Some_1 in Esources.
  destruct (Forall2_lookup_r _ _ _ _ _ Esources Esource)
    as (j & Hj & Hsource).
  apply lookup_seq in Hj as [-> _]. done.
Qed.

(** X1.  [addMessage] never stops on an assertion, and it returns exactly
    when every point has what its position is read from: always when the
    positions come from [pts]; when they come from the normals (the
    normal sphere is selected and the cloud has channels [nx], [ny] and
    [nz]), exactly when the first channel of each name holds a value for
    every point.  In every other case the call is undefined behaviour. *)
Theorem addMessage_returns_exactly (cloud : PointCloud.t) (s : State) :
  let ingested := reprojected transformPointCloud s cloud in
  let point_count := length (PointCloud.pts ingested) in
  let read_in_range :=
    match normal_channels s (PointCloud.chan ingested) with
    | Some (nx, ny, nz) =>
        covers point_count nx /\ covers point_count ny
        /\ covers point_count nz
    | None => True
    end in
  addMessage transformPointCloud robotToOgre cloud s <> AssertionFailed
  /\ ((exists s', addMessage transformPointCloud robotToOgre cloud s
                  = Returns s') <-> read_in_range)
  /\ (addMessage transformPointCloud robotToOgre cloud s = UndefinedBehaviour
      <-> ~ read_in_range).
Proof.
  intros ingested point_count read_in_range.
  pose proof (coordinate_sources_found s ingested) as Hfound.
  cbv zeta in Hfound. fold point_count in Hfound.
  fold read_in_range in Hfound.
  rewrite addMessage_exact. unfold ingest_points.
  fold ingested point_count.
  destruct (mapM (coordinate_source s ingested) (seq 0 point_count))
    as [sources|].
  - assert read_in_range as Hread by (apply Hfound; eauto).
    split; [done|]. split; [split; eauto|]. split; [done|].
    intros Hnot. by destruct Hnot.
  - assert (~ read_in_range) as Hread.
    { intros Hread. apply Hfound in Hread. by destruct Hread. }
    split; [done|]. split; [|done]. split; [by intros [s' Hs']|done].
Qed.

(** X2.  What a returning [addMessage] logs, in this order: the error of
    the transform service if it threw (with the fixed frame standing in for
    an empty frame id), one size error for every channel whose number of
    values is not the number of points, in the order of the channels, the
    warning about normals if the normal sphere is selected and the cloud
    has [nx] but lacks [ny] or [nz]; then one request to render, and
    nothing else. *)
Theorem addMessage_log (cloud : PointCloud.t) (s s' : State) :
  addMessage transformPointCloud robotToOgre cloud s = Returns s' ->
  new_events s s' = ingest_log transformPointCloud s cloud ++ [CauseRender].
Proof.
  intros Hrun.
  destruct (addMessage_observed cloud s s' Hrun) as (points & _ & Htrace & _).
  apply new_events_app. by rewrite Htrace, <- app_assoc.
Qed.

(** X3.  Every point a returning [addMessage] hands to the renderer sits
    where [robotToOgre] puts what was read for it, from [pts] of the
    reprojected cloud or from the normals: colouring never moves a
    point, and point [i] is placed from the values at [i]. *)
Theorem addMessage_places_points (cloud : PointCloud.t) (s s' : State) :
  addMessage transformPointCloud robotToOgre cloud s = Returns s' ->
  let ingested := reprojected transformPointCloud s cloud in
  exists points,
    OgrePointCloud.points (cloud_ s') = kept_points s ++ points
    /\ length points = length (PointCloud.pts ingested)
    /\ forall i point,
         points !! i = Some point ->
         exists source,
           coordinate_source s ingested i = Some source
           /\ position point = robotToOgre source.
Proof.
  intros Hrun ingested.
  destruct (addMessage_observed cloud s s' Hrun)
    as (points & Hpoints & _ & _ & Hrenderer & _).
  destruct (ingest_points_lookup cloud s points Hpoints) as [Hlen Hlookup].
  exists points. split; [done|]. split; [done|].
  intros i point Hpoint.
  destruct (Hlookup i point Hpoint) as (source & Hsource & ->).
  exists source. split; [done|].
  by rewrite position_paint_point, position_placed.
Qed.

(** X4.  The message a returning [addMessage] leaves in the buffer is the
    reprojected cloud with its frame id and its points as they were, and
    with its channels as they were but for the channels the automatic
    bounds are taken from, whose values above 4096 are replaced by 4096:
    the shared message is changed in place, and in no other way. *)
Theorem addMessage_buffers_capped_cloud (cloud : PointCloud.t) (s s' : State) :
  addMessage transformPointCloud robotToOgre cloud s = Returns s' ->
  let ingested := reprojected transformPointCloud s cloud in
  let point_count := length (PointCloud.pts ingested) in
  clouds_ s'
  = kept_clouds s
    ++ [CloudInfo.mk
          (PointCloud.mk (PointCloud.frame_id ingested)
             (PointCloud.pts ingested)
             (map (checked_channel s point_count) (PointCloud.chan ingested)))
          0 point_count].
Proof.
  intros Hrun ingested point_count.
  by destruct (addMessage_observed cloud s s' Hrun) as (_ & _ & _ & -> & _).
Qed.

End IngestObserved.

(** ** The automatic bounds *)

Lemma cap_below_sentinel (v : float) : (cap v <= 4096)%Q.
Proof. apply std_min_le_r. Qed.

Lemma low_bound_encloses (vals : list float) :
  forall start : float,
    (low_bound vals start <= start)%Q
    /\ Forall (fun v => (low_bound vals start <= cap v)%Q) vals.
Proof.
  unfold low_bound.
  induction vals as [|v vals IH]; intros start; simpl.
  - split; [lra|constructor].
  - destruct (IH (std_min start (cap v))) as [Hstart Hvals].
    pose proof (std_min_le_l start (cap v)).
    pose proof (std_min_le_r start (cap v)).
    split; [lra|]. constructor; [lra|done].
Qed.

Lemma high_bound_encloses (vals : list float) :
  forall start : float,
    (start <= high_bound vals start)%Q
    /\ Forall (fun v => (cap v <= high_bound vals start)%Q) vals.
Proof.
  unfold high_bound.
  induction vals as [|v vals IH]; intros start; simpl.
  - split; [lra|constructor].
  - destruct (IH (std_max start (cap v))) as [Hstart Hvals].
    pose proof (std_max_ge_l start (cap v)).
    pose proof (std_max_ge_r start (cap v)).
    split; [lra|]. constructor; [lra|done].
Qed.

Lemma low_bound_attained (vals : list float) :
  forall start : float,
    low_bound vals start = start
    \/ Exists (fun v => low_bound vals start = cap v) vals.
Proof.
  unfold low_bound.
  induction vals as [|v vals IH]; intros start; simpl; [by left|].
  destruct (IH (std_min start (cap v))) as [H|H].
  - rewrite H. unfold std_min.
    destruct (float_lt (cap v) start); [right; by left|by left].
  - right. by right.
Qed.

Lemma high_bound_attained (vals : list float) :
  forall start : float,
    high_bound vals start = start
    \/ Exists (fun v => high_bound vals start = cap v) vals.
Proof.
  unfold high_bound.
  induction vals as [|v vals IH]; intros start; simpl; [by left|].
  destruct (IH (std_max start (cap v))) as [H|H].
  - rewrite H. unfold std_max.
    destruct (float_lt start (cap v)); [right; by left|by left].
  - right. by right.
Qed.

(** The bounds after the first loop are those of the last channel they are
    taken from. *)
Lemma ingest_bounds_last_source (s : State) (point_count : nat)
    (before after : list ChannelFloat32.t) (source : ChannelFloat32.t) :
  is_source s point_count source = true ->
  Forall (fun chan => is_source s point_count chan = false) after ->
  ingest_bounds s point_count (before ++ source :: after)
  = (low_bound (ChannelFloat32.vals source) 999999,
     high_bound (ChannelFloat32.vals source) (-999999), true).
Proof.
  intros Hsource Hafter. unfold ingest_bounds.
  rewrite fold_left_app. simpl.
  unfold checked_bounds at 2. rewrite Hsource.
  generalize (low_bound (ChannelFloat32.vals source) 999999,
              high_bound (ChannelFloat32.vals source) (-999999), true).
  induction Hafter as [|chan after Hchan Hafter IH]; intros bounds; [done|].
  simpl. unfold checked_bounds at 2. rewrite Hchan. apply IH.
Qed.

Lemma ingest_bounds_no_source (s : State) (point_count : nat)
    (chans : list ChannelFloat32.t) :
  Forall (fun chan => is_source s point_count chan = false) chans ->
  ingest_bounds s point_count chans
  = (min_intensity_ s, max_intensity_ s, intensity_bounds_changed_ s).
Proof.
  intros Hchans. unfold ingest_bounds.
  generalize (min_intensity_ s, max_intensity_ s, intensity_bounds_changed_ s).
  induction Hchans as [|chan chans Hchan Hchans IH]; intros bounds; [done|].
  simpl. unfold checked_bounds at 2. rewrite Hchan. apply IH.
Qed.

Lemma checked_channels_no_source (s : State) (point_count : nat)
    (chans : list ChannelFloat32.t) :
  Forall (fun chan => is_source s point_count chan = false) chans ->
  map (checked_channel s point_count) chans = chans.
Proof.
  intros Hchans.
  induction Hchans as [|chan chans Hchan Hchans IH]; [done|].
  simpl. rewrite IH. unfold checked_channel. by rewrite Hchan.
Qed.

Lemma is_source_manual (s : State) (point_count : nat) (chan : ChannelFloat32.t) :
  auto_compute_intensity_bounds_ s = false
  \/ (channel_color_idx_ s <> Intensity /\ channel_color_idx_ s <> Curvature) ->
  is_source s point_count chan = false.
Proof.
  unfold is_source. intros [->|[Hi Hc]]; [done|].
  assert ((channel_color_idx_ s =? Intensity) = false) as -> by lia.
  assert ((channel_color_idx_ s =? Curvature) = false) as -> by lia.
  by rewrite !andb_false_r.
Qed.

(** ** Colours *)

Lemma painter_checked (s : State) (point_count : nat) (chan : ChannelFloat32.t) :
  painter s point_count (checked_channel s point_count chan)
  = painter s point_count chan.
Proof.
  unfold painter. by rewrite well_formed_checked, checked_channel_name.
Qed.

Lemma painter_same (s t : State) (point_count : nat) (chan : ChannelFloat32.t) :
  channel_color_idx_ t = channel_color_idx_ s ->
  painter t point_count chan = painter s point_count chan.
Proof. unfold painter. by intros ->. Qed.

Lemma paint_points_same (s t : State) (diff : float) (point_count i : nat)
    (chans : list ChannelFloat32.t) :
  channel_color_idx_ t = channel_color_idx_ s ->
  min_color_ t = min_color_ s ->
  min_intensity_ t = min_intensity_ s ->
  max_intensity_ t = max_intensity_ s ->
  forall point : Point.t,
    fold_left (paint_point t diff point_count i) chans point
    = fold_left (paint_point s diff point_count i) chans point.
Proof.
  intros Hidx Hcolor Hmin Hmax.
  induction chans as [|chan rest IH]; intros point; [done|].
  simpl. rewrite IH. f_equal. unfold paint_point, colorize.
  by rewrite (painter_same s t), Hcolor, Hmin, Hmax.
Qed.

Lemma paint_points_unpainted (s t : State) (diff : float) (point_count i : nat)
    (chans : list ChannelFloat32.t) :
  channel_color_idx_ t = channel_color_idx_ s ->
  Forall (fun chan => painter s point_count chan = None) chans ->
  forall point : Point.t,
    fold_left (paint_point t diff point_count i)
      (map (checked_channel s point_count) chans) point
    = point.
Proof.
  intros Hidx Hchans.
  induction Hchans as [|chan rest Hchan Hrest IH]; intros point; [done|].
  simpl. rewrite IH. unfold paint_point.
  by rewrite (painter_same s t), painter_checked, Hchan.
Qed.

(** No channel colours a point while no role is selected, or under the
    normal sphere. *)
Lemma painter_unselected (s : State) (point_count : nat)
    (chan : ChannelFloat32.t) :
  channel_color_idx_ s = -1 \/ channel_color_idx_ s = NormalSphere ->
  painter s point_count chan = None.
Proof.
  intros Hidx. unfold painter, colors_points.
  assert ((channel_color_idx_ s =? Intensity) = false
          /\ (channel_color_idx_ s =? Curvature) = false
          /\ (channel_color_idx_ s =? ColorRGBSpace) = false)
    as (-> & -> & ->).
  { unfold Intensity, Curvature, ColorRGBSpace, NormalSphere in *. lia. }
  simpl. destruct (well_formed point_count chan); [|done].
  by destruct (channel_type (ChannelFloat32.name chan)).
Qed.

Section IngestSettled.

Variable transformPointCloud : string -> PointCloud.t -> option PointCloud.t.
Variable robotToOgre : Vector3.t -> Vector3.t.

(** The points of a returning [addMessage] that no channel colours. *)
Lemma addMessage_unpainted (cloud : PointCloud.t) (s s' : State) :
  let ingested := reprojected transformPointCloud s cloud in
  let point_count := length (PointCloud.pts ingested) in
  Forall (fun chan => painter s point_count chan = None)
    (PointCloud.chan ingested) ->
  addMessage transformPointCloud robotToOgre cloud s = Returns s' ->
  exists points,
    OgrePointCloud.points (cloud_ s') = kept_points s ++ points
    /\ length points = point_count
    /\ forall i point,
         points !! i = Some point ->
         exists source,
           coordinate_source s ingested i = Some source
           /\ point = placed robotToOgre (max_color_ s) source.
Proof.
  intros ingested point_count Hunpainted Hrun.
  destruct (addMessage_observed transformPointCloud robotToOgre cloud s s' Hrun)
    as (points & Hpoints & _ & _ & Hrenderer & _).
  destruct (ingest_points_lookup transformPointCloud robotToOgre cloud s points
              Hpoints) as [Hlen Hlookup].
  exists points. split; [done|]. split; [done|].
  intros i point Hpoint.
  destruct (Hlookup i point Hpoint) as (source & Hsource & ->).
  exists source. split; [done|].
  by apply paint_points_unpainted.
Qed.

(** X5.  Under automatic bounds, a returning [addMessage] takes the bounds
    from the last channel of the selected role that has a value for every
    point, whatever the channels before it held: the lower bound is the
    smallest of its values capped at 4096 and of 999999, the upper bound
    the largest of its capped values and of -999999, every capped value
    lies between the two, and the bounds are flagged as changed. *)
Theorem addMessage_takes_bounds_from_last_source (cloud : PointCloud.t)
    (s s' : State) (before after : list ChannelFloat32.t)
    (source : ChannelFloat32.t) :
  let ingested := reprojected transformPointCloud s cloud in
  let point_count := length (PointCloud.pts ingested) in
  PointCloud.chan ingested = before ++ source :: after ->
  is_source s point_count source = true ->
  Forall (fun chan => is_source s point_count chan = false) after ->
  addMessage transformPointCloud robotToOgre cloud s = Returns s' ->
  min_intensity_ s' = low_bound (ChannelFloat32.vals source) 999999
  /\ max_intensity_ s' = high_bound (ChannelFloat32.vals source) (-999999)
  /\ intensity_bounds_changed_ s' = true
  /\ Forall (fun v => (min_intensity_ s' <= cap v <= max_intensity_ s')%Q)
       (ChannelFloat32.vals source)
  /\ (ChannelFloat32.vals source <> [] ->
      Exists (fun v => min_intensity_ s' = cap v) (ChannelFloat32.vals source))
  /\ (max_intensity_ s' = (-999999)%Q
      \/ Exists (fun v => max_intensity_ s' = cap v)
           (ChannelFloat32.vals source)).
Proof.
  intros ingested point_count Hchans Hsource Hafter Hrun.
  destruct (addMessage_observed transformPointCloud robotToOgre cloud s s' Hrun)
    as (points & _ & _ & _ & _ & Hbounds & _).
  fold ingested point_count in Hbounds.
  rewrite Hchans, ingest_bounds_last_source in Hbounds by done.
  injection Hbounds as -> -> ->.
  split; [done|]. split; [done|]. split; [done|].
  destruct (low_bound_encloses (ChannelFloat32.vals source) 999999)
    as [_ Hlow].
  destruct (high_bound_encloses (ChannelFloat32.vals source) (-999999))
    as [_ Hhigh].
  split.
  { rewrite Forall_forall in Hlow, Hhigh. apply Forall_forall.
    intros v Hv. split; [by apply Hlow|by apply Hhigh]. }
  split; [|apply high_bound_attained].
  intros Hvals.
  destruct (ChannelFloat32.vals source) as [|v vals]; [done|].
  unfold low_bound. simpl.
  assert (std_min 999999 (cap v) = cap v) as ->.
  { unfold std_min.
    destruct (float_lt (cap v) 999999) eqn:E; [done|].
    apply float_lt_false in E. pose proof (cap_below_sentinel v). lra. }
  destruct (low_bound_attained vals (cap v)) as [H|H].
  - left. exact H.
  - right. exact H.
Qed.

(** X6.  With the automatic bounds switched off, or with a selection other
    than intensity or curvature, a returning [addMessage] leaves the
    bounds and their flag as they were and buffers the reprojected cloud
    unchanged. *)
Theorem addMessage_keeps_manual_bounds (cloud : PointCloud.t) (s s' : State) :
  let ingested := reprojected transformPointCloud s cloud in
  auto_compute_intensity_bounds_ s = false
  \/ (channel_color_idx_ s <> Intensity /\ channel_color_idx_ s <> Curvature) ->
  addMessage transformPointCloud robotToOgre cloud s = Returns s' ->
  min_intensity_ s' = min_intensity_ s
  /\ max_intensity_ s' = max_intensity_ s
  /\ intensity_bounds_changed_ s' = intensity_bounds_changed_ s
  /\ clouds_ s'
     = kept_clouds s
       ++ [CloudInfo.mk ingested 0 (length (PointCloud.pts ingested))].
Proof.
  intros ingested Hmanual Hrun.
  destruct (addMessage_observed transformPointCloud robotToOgre cloud s s' Hrun)
    as (points & _ & _ & Hclouds & _ & Hbounds & _).
  fold ingested in Hbounds, Hclouds.
  assert (Forall (fun chan => is_source s (length (PointCloud.pts ingested))
                                chan = false) (PointCloud.chan ingested))
    as Hnone.
  { apply Forall_forall. intros chan _. by apply is_source_manual. }
  rewrite ingest_bounds_no_source in Hbounds by done.
  injection Hbounds as -> -> ->.
  split; [done|]. split; [done|]. split; [done|].
  rewrite Hclouds. unfold ingest_cloud. fold ingested.
  rewrite checked_channels_no_source by done.
  by destruct ingested.
Qed.

(** The points of a returning [addMessage], as the channels colour them. *)
Lemma addMessage_painted (cloud : PointCloud.t)
    (s s' : State) :
  let ingested := reprojected transformPointCloud s cloud in
  let point_count := length (PointCloud.pts ingested) in
  addMessage transformPointCloud robotToOgre cloud s = Returns s' ->
  exists points,
    OgrePointCloud.points (cloud_ s') = kept_points s ++ points
    /\ length points = point_count
    /\ forall i point,
         points !! i = Some point ->
         exists source,
           coordinate_source s ingested i = Some source
           /\ point
              = fold_left
                  (paint_point s' (max_intensity_ s' - min_intensity_ s')%Q
                     point_count i)
                  (map (checked_channel s point_count)
                     (PointCloud.chan ingested))
                  (placed robotToOgre (max_color_ s) source).
Proof.
  intros ingested point_count Hrun.
  destruct (addMessage_observed transformPointCloud robotToOgre cloud s s' Hrun)
    as (points & Hpoints & _ & _ & Hrenderer & Hbounds & Hidx & Hmin & _).
  destruct (ingest_points_lookup transformPointCloud robotToOgre cloud s points
              Hpoints) as [Hlen Hlookup].
  destruct (ingest_state_fields transformPointCloud s cloud)
    as (Hsame & _ & Hbounds1).
  cbv zeta in Hlookup, Hbounds1.
  set (s1 := ingest_state transformPointCloud s cloud) in *.
  destruct Hsame as (_ & _ & _ & Hidx1 & _ & Hmin1 & _).
  clearbody s1.
  pose proof (eq_trans Hbounds1 (eq_sym Hbounds)) as Hboth.
  injection Hboth as Hlow Hhigh _.
  exists points. split; [done|]. split; [done|].
  intros i point Hpoint.
  destruct (Hlookup i point Hpoint) as (source & Hsource & ->).
  exists source. split; [done|].
  rewrite Hlow, Hhigh. symmetry. apply paint_points_same; congruence.
Qed.

(** X7.  The colour of a point depends on the values the channels hold for
    that point only: point [i] of a returning [addMessage] starts at its
    place with the colour [max_color_], and every channel that is well
    formed and matches the selection then transforms it, in the order of
    the channels, by its own value at [i], with the bounds the call leaves
    behind. *)
Theorem addMessage_colours_point_by_point (cloud : PointCloud.t)
    (s s' : State) :
  let ingested := reprojected transformPointCloud s cloud in
  let point_count := length (PointCloud.pts ingested) in
  addMessage transformPointCloud robotToOgre cloud s = Returns s' ->
  exists points,
    OgrePointCloud.points (cloud_ s') = kept_points s ++ points
    /\ forall i point,
         points !! i = Some point ->
         exists source,
           coordinate_source s ingested i = Some source
           /\ point
              = fold_left
                  (paint_point s' (max_intensity_ s' - min_intensity_ s')%Q
                     point_count i)
                  (map (checked_channel s point_count)
                     (PointCloud.chan ingested))
                  (placed robotToOgre (max_color_ s) source).
Proof.
  intros ingested point_count Hrun.
  destruct (addMessage_painted cloud s s' Hrun)
    as (points & Hrenderer & _ & Hlookup).
  by exists points.
Qed.

(** X8.  When no channel of the cloud is both well formed and a match for
    the selection, every point of a returning [addMessage] has exactly
    the colour [max_color_]. *)
Theorem addMessage_unmatched_keeps_max_color (cloud : PointCloud.t)
    (s s' : State) :
  let ingested := reprojected transformPointCloud s cloud in
  let point_count := length (PointCloud.pts ingested) in
  Forall (fun chan => painter s point_count chan = None)
    (PointCloud.chan ingested) ->
  addMessage transformPointCloud robotToOgre cloud s = Returns s' ->
  exists points,
    OgrePointCloud.points (cloud_ s') = kept_points s ++ points
    /\ length points = point_count
    /\ Forall (fun point => color_of point = max_color_ s) points.
Proof.
  intros ingested point_count Hunpainted Hrun.
  destruct (addMessage_unpainted cloud s s' Hunpainted Hrun)
    as (points & Hrenderer & Hlen & Hlookup).
  exists points. split; [done|]. split; [done|].
  apply Forall_lookup_2. intros i point Hpoint.
  destruct (Hlookup i point Hpoint) as (source & _ & ->).
  unfold color_of, placed. simpl. by destruct (max_color_ s).
Qed.

(** X10.  Under the normal sphere, for a cloud with channels [nx], [ny] and
    [nz], point [i] of a returning [addMessage] sits where [robotToOgre]
    puts the values at [i] of the first channel of each name, and has
    exactly the colour [max_color_]; the positions in [pts] are not
    read. *)
Theorem addMessage_normal_sphere (cloud : PointCloud.t) (s s' : State)
    (nx ny nz : ChannelFloat32.t) :
  let ingested := reprojected transformPointCloud s cloud in
  normal_channels s (PointCloud.chan ingested) = Some (nx, ny, nz) ->
  addMessage transformPointCloud robotToOgre cloud s = Returns s' ->
  exists points,
    OgrePointCloud.points (cloud_ s') = kept_points s ++ points
    /\ length points = length (PointCloud.pts ingested)
    /\ forall i point,
         points !! i = Some point ->
         exists x y z,
           ChannelFloat32.vals nx !! i = Some x
           /\ ChannelFloat32.vals ny !! i = Some y
           /\ ChannelFloat32.vals nz !! i = Some z
           /\ point = placed robotToOgre (max_color_ s) (Vector3.mk x y z).
Proof.
  intros ingested Hnormals Hrun.
  assert (channel_color_idx_ s = NormalSphere) as Hidx.
  { unfold normal_channels in Hnormals.
    destruct (channel_color_idx_ s =? NormalSphere) eqn:E; [lia|done]. }
  assert (Forall (fun chan => painter s (length (PointCloud.pts ingested)) chan
                              = None) (PointCloud.chan ingested))
    as Hunpainted.
  { apply Forall_forall. intros chan _. apply painter_unselected. by right. }
  destruct (addMessage_unpainted cloud s s' Hunpainted Hrun)
    as (points & Hrenderer & Hlen & Hlookup).
  exists points. split; [done|]. split; [done|].
  intros i point Hpoint.
  destruct (Hlookup i point Hpoint) as (source & Hsource & ->).
  unfold coordinate_source in Hsource. fold ingested in Hsource.
  rewrite Hnormals in Hsource.
  destruct (ChannelFloat32.vals nx !! i) as [x|]; [|done].
  destruct (ChannelFloat32.vals ny !! i) as [y|]; [|done].
  destruct (ChannelFloat32.vals nz !! i) as [z|]; [|done].
  injection Hsource as <-. by exists x, y, z.
Qed.

End IngestSettled.

(** ** What a call of [update] does *)

Lemma pop_expired_removed (decay : float) (clouds : list CloudInfo.t) :
  forall cloud : OgrePointCloud.t,
    (pop_expired decay clouds cloud true).2 = true.
Proof.
  induction clouds as [|front rest IH]; intros cloud; [done|].
  simpl. by destruct (float_gt (CloudInfo.time_ front) decay).
Qed.

Lemma ticked_fields (dt : float) (s : State) :
  new_cloud_ (ticked dt s) = new_cloud_ s
  /\ non_null (ticked dt s) = non_null s
  /\ channel_color_idx_ (ticked dt s) = channel_color_idx_ s
  /\ point_decay_time_ (ticked dt s) = point_decay_time_ s.
Proof.
  unfold ticked.
  destruct (update_decay_frame (update_times dt (update_bounds s)))
    as (-> & -> & -> & -> & _).
  unfold update_times. simpl.
  by destruct (update_bounds_frame s) as (_ & _ & -> & -> & -> & ->).
Qed.

Lemma update_bounds_trace (s : State) :
  trace_ (update_bounds s) = trace_ s ++ reapplied s.
Proof.
  unfold update_bounds, reapplied.
  destruct (intensity_bounds_changed_ s); [|by rewrite app_nil_r].
  destruct (non_null s min_intensity_property_) eqn:Emin,
    (non_null s max_intensity_property_) eqn:Emax;
    unfold_setters; simpl;
    repeat match goal with
           | |- context [if float_gt ?a ?b then _ else _] =>
               destruct (float_gt a b); simpl
           | |- context [if float_lt ?a ?b then _ else _] =>
               destruct (float_lt a b); simpl
           end;
    rewrite ?Emin, ?Emax; simpl; rewrite ?Emin, ?Emax; simpl;
    by rewrite <- ?app_assoc.
Qed.

Lemma update_decay_trace (s : State) :
  trace_ (update_decay s)
  = trace_ s
    ++ (if float_gt (point_decay_time_ s) 0
           && match clouds_ s with
              | front :: _ =>
                  float_gt (CloudInfo.time_ front) (point_decay_time_ s)
              | [] => false
              end
        then [CauseRender] else []).
Proof.
  unfold update_decay.
  destruct (float_gt (point_decay_time_ s) 0); simpl; [|by rewrite app_nil_r].
  destruct (clouds_ s) as [|front rest]; simpl; [by rewrite app_nil_r|].
  destruct (float_gt (CloudInfo.time_ front) (point_decay_time_ s));
    [|by rewrite app_nil_r].
  pose proof (pop_expired_removed (point_decay_time_ s) rest
                (OgrePointCloud.popPoints (CloudInfo.num_points_ front)
                   (cloud_ s))) as Hremoved.
  destruct (pop_expired _ rest _ true) as [[clouds cloud] removed].
  simpl in Hremoved. by rewrite Hremoved.
Qed.

Lemma ticked_trace (dt : float) (s : State) :
  trace_ (ticked dt s)
  = trace_ s ++ reapplied s ++ (if evicts dt s then [CauseRender] else []).
Proof.
  unfold ticked. rewrite update_decay_trace.
  change (trace_ (update_times dt (update_bounds s)))
    with (trace_ (update_bounds s)).
  change (point_decay_time_ (update_times dt (update_bounds s)))
    with (point_decay_time_ (update_bounds s)).
  change (clouds_ (update_times dt (update_bounds s)))
    with (map (add_time dt) (clouds_ (update_bounds s))).
  rewrite update_bounds_trace.
  destruct (update_bounds_frame s) as (-> & _ & -> & _).
  rewrite <- app_assoc. unfold evicts.
  by destruct (clouds_ s).
Qed.

(** [update], case by case. *)
Lemma update_exact (dt : float) (s : State) :
  update dt s
  = match pending_channels (ticked dt s) with
    | None => Returns (set_new_cloud_ false (ticked dt s))
    | Some chans =>
        if non_null s channel_property_ then
          if first_role (channel_color_idx_ s) chans <? ChannelRenderCount
          then
            Returns
              (set_new_cloud_ false
                 (set_channel_color_idx_
                    (first_role (channel_color_idx_ s) chans)
                    (emit (PropertyChanged channel_property_)
                       (set_channel_options_
                          (omap (fun chan =>
                                   offered_option (ChannelFloat32.name chan))
                             chans)
                          (ticked dt s)))))
          else AssertionFailed
        else UndefinedBehaviour
    end.
Proof.
  unfold update. fold (ticked dt s).
  destruct (ticked_fields dt s) as (Hnew & Hnull & Hidx & _).
  unfold pending_channels.
  destruct (clouds_ (ticked dt s)) as [|front rest] eqn:Hclouds.
  { unfold update_channels. by rewrite Hclouds. }
  destruct (new_cloud_ (ticked dt s)) eqn:Hpending.
  2: { unfold update_channels. by rewrite Hclouds, Hpending. }
  rewrite <- Hnull, <- Hidx.
  destruct (non_null (ticked dt s) channel_property_) eqn:Hproperty.
  - rewrite (update_channels_refresh _ front rest Hclouds Hpending Hproperty).
    unfold setChannelColorIndex, ROS_ASSERT.
    by destruct (first_role _ _ <? ChannelRenderCount).
  - unfold update_channels. rewrite Hclouds, Hpending.
    unfold channel_property_clear, through. by rewrite Hproperty.
Qed.

(** X11.  What a returning [update] asks of its collaborators, in this
    order: when the bounds were flagged as changed, a notification of the
    lower bound (if its property exists), a request to render, a
    notification of the upper bound (if its property exists) and a second
    request to render; one request to render when a cloud was dropped; a
    notification of the channel property when the channels of a pending
    cloud were offered.  A tick that finds no flag and drops no cloud
    requests no render. *)
Theorem update_log (dt : float) (s s' : State) :
  update dt s = Returns s' ->
  new_events s s'
  = reapplied s
    ++ (if evicts dt s then [CauseRender] else [])
    ++ match pending_channels (ticked dt s) with
       | Some _ => [PropertyChanged channel_property_]
       | None => []
       end.
Proof.
  intros Hrun. rewrite update_exact in Hrun.
  apply new_events_app.
  pose proof (ticked_trace dt s) as Htrace.
  destruct (pending_channels (ticked dt s)) as [chans|].
  - destruct (non_null s channel_property_); [|done].
    destruct (first_role _ _ <? ChannelRenderCount); [|done].
    injection Hrun as <-. simpl. rewrite Htrace.
    by rewrite <- !app_assoc.
  - injection Hrun as <-. simpl. rewrite Htrace.
    by rewrite app_nil_r.
Qed.

(** X12.  With a selection below [ChannelRenderCount], [update] never stops
    on an assertion, and it is undefined behaviour exactly when a cloud is
    pending, the buffer still holds a cloud after the expired ones are
    dropped, and the channel property does not exist ([createProperties]
    has not run): the setters test their property pointer, [update]
    does not.  In every other case it returns. *)
Theorem update_outcome (dt : float) (s : State) :
  channel_color_idx_ s < ChannelRenderCount ->
  let crashes :=
    new_cloud_ s = true /\ clouds_ (ticked dt s) <> []
    /\ non_null s channel_property_ = false in
  update dt s <> AssertionFailed
  /\ (update dt s = UndefinedBehaviour <-> crashes)
  /\ ((exists s', update dt s = Returns s') <-> ~ crashes).
Proof.
  intros Hidx crashes. subst crashes. rewrite update_exact.
  destruct (ticked_fields dt s) as (Hnew & _).
  unfold pending_channels. rewrite Hnew.
  destruct (clouds_ (ticked dt s)) as [|front rest].
  { split; [done|]. split; [split; [done|by intros (_ & ? & _)]|].
    split; [by intros _ (_ & ? & _)|eauto]. }
  destruct (new_cloud_ s).
  2: { split; [done|]. split; [split; [done|by intros (? & _)]|].
       split; [by intros _ (? & _)|eauto]. }
  destruct (non_null s channel_property_).
  - pose proof (first_role_bound (channel_color_idx_ s)
                  (PointCloud.chan (CloudInfo.message_ front)) Hidx) as Hrole.
    apply Z.ltb_lt in Hrole. rewrite Hrole.
    split; [done|]. split; [split; [done|by intros (_ & _ & ?)]|].
    split; [by intros _ (_ & _ & ?)|eauto].
  - split; [done|]. split; [done|].
    split; [by intros [s' Hs']|]. intros Hnot. by destruct Hnot.
Qed.

(** ** The selection over sequences of calls *)

Lemma first_role_selected (channel_color_idx : Z)
    (chans : list ChannelFloat32.t) :
  channel_color_idx <> -1 -> first_role channel_color_idx chans
                             = channel_color_idx.
Proof.
  intros Hidx. unfold first_role.
  destruct (channel_color_idx =? -1) eqn:E; [lia|done].
Qed.

Lemma pending_channels_none (dt : float) (s : State) :
  new_cloud_ s = false -> pending_channels (ticked dt s) = None.
Proof.
  intros Hnew. unfold pending_channels.
  destruct (ticked_fields dt s) as (-> & _). rewrite Hnew.
  by destruct (clouds_ (ticked dt s)).
Qed.

Lemma update_selection (dt : float) (s s' : State) :
  update dt s = Returns s' ->
  new_cloud_ s' = false
  /\ channel_color_idx_ s'
     = match pending_channels (ticked dt s) with
       | Some chans => first_role (channel_color_idx_ s) chans
       | None => channel_color_idx_ s
       end.
Proof.
  intros Hrun. rewrite update_exact in Hrun.
  destruct (ticked_fields dt s) as (_ & _ & Hidx & _).
  destruct (pending_channels (ticked dt s)) as [chans|].
  - destruct (non_null s channel_property_); [|done].
    destruct (first_role _ _ <? ChannelRenderCount); [|done].
    by injection Hrun as <-.
  - by injection Hrun as <-.
Qed.

Ltac same_selection H :=
  try match type of H with
      | channel_color_idx_ _ = channel_color_idx_ _ /\ _ =>
          let Hsame := fresh "Hsame" in
          let Hnew := fresh "Hnew" in
          destruct H as [Hsame Hnew]; rewrite ?Hsame, ?Hnew; done
      end.

Section Selection.

Variable transformPointCloud : string -> PointCloud.t -> option PointCloud.t.
Variable robotToOgre : Vector3.t -> Vector3.t.

Lemma call_selection (c : Call) (s s' : State) :
  call transformPointCloud robotToOgre c s = Returns s' ->
  match c with
  | CallSetChannelColorIndex channel_color_idx =>
      channel_color_idx_ s' = channel_color_idx
      /\ channel_color_idx < ChannelRenderCount
      /\ new_cloud_ s' = new_cloud_ s
  | CallUpdate dt => update dt s = Returns s'
  | CallAddMessage cloud =>
      channel_color_idx_ s' = channel_color_idx_ s /\ new_cloud_ s' = true
  | _ =>
      channel_color_idx_ s' = channel_color_idx_ s
      /\ new_cloud_ s' = new_cloud_ s
  end.
Proof.
  intros H.
  destruct c; simpl in H;
    try (injection H as <-; unfold_setters; simpl;
         repeat match goal with
                | |- context [if ?b then _ else _] => destruct b; simpl
                end; done).
  - unfold setStyle in H. bind_inv H. injection H as <-.
    unfold_setters. simpl. by destruct (non_null s style_property_).
  - unfold setChannelColorIndex, ROS_ASSERT in H.
    destruct (channel_color_idx <? ChannelRenderCount) eqn:E; [|done].
    simpl in H. injection H as <-. simpl. split; [done|]. split; [lia|done].
  - done.
  - destruct (addMessage_observed _ _ _ _ _ H)
      as (points & _ & _ & _ & _ & _ & Hidx & _).
    split; [done|].
    by destruct (addMessage_spec _ _ _ _ _ H)
      as (info & points' & _ & _ & _ & _ & _ & _ & _ & Hnew & _).
Qed.

Lemma call_keeps_selection_bound (c : Call) (s s' : State) :
  channel_color_idx_ s < ChannelRenderCount ->
  call transformPointCloud robotToOgre c s = Returns s' ->
  channel_color_idx_ s' < ChannelRenderCount.
Proof.
  intros Hidx H. apply call_selection in H.
  destruct c; same_selection H.
  - by destruct H as (-> & ? & _).
  - apply update_selection in H as [_ ->].
    destruct (pending_channels (ticked dt s)); [|done].
    by apply first_role_bound.
Qed.

Lemma call_no_assertion (c : Call) (s : State) :
  well_called c ->
  channel_color_idx_ s < ChannelRenderCount ->
  call transformPointCloud robotToOgre c s <> AssertionFailed.
Proof.
  intros Hc Hidx. destruct c; simpl in *; try done.
  - unfold setStyle, ROS_ASSERT.
    assert ((style <? StyleCount) = true) as -> by lia. done.
  - unfold setChannelColorIndex, ROS_ASSERT.
    assert ((channel_color_idx <? ChannelRenderCount) = true) as -> by lia.
    done.
  - rewrite update_exact.
    destruct (pending_channels (ticked dt s)) as [chans|]; [|done].
    destruct (non_null s channel_property_); [|done].
    pose proof (first_role_bound (channel_color_idx_ s) chans Hidx) as Hrole.
    apply Z.ltb_lt in Hrole. by rewrite Hrole.
  - rewrite addMessage_exact. by destruct (ingest_points _ _ _ _).
Qed.

(** X13.  From a display whose selection is below [ChannelRenderCount], as
    the constructor leaves it, no sequence of calls stops on an assertion
    unless one of the calls is a [setStyle] with a style that is not
    below [StyleCount] or a [setChannelColorIndex] with an index that is
    not below [ChannelRenderCount]: the assertion of [update] on the
    selection it computed cannot fail, and [addMessage] asserts
    nothing. *)
Theorem run_never_fails_assertion (calls : list Call) :
  forall s : State,
    channel_color_idx_ s < ChannelRenderCount ->
    Forall well_called calls ->
    run transformPointCloud robotToOgre calls s <> AssertionFailed.
Proof.
  induction calls as [|c rest IH]; intros s Hidx Hcalls; [done|].
  inversion Hcalls as [|? ? Hc Hrest]; subst. simpl.
  destruct (call transformPointCloud robotToOgre c s) as [s1| |] eqn:Hcall;
    simpl; [| |done].
  - apply IH; [|done]. by apply (call_keeps_selection_bound c s).
  - by destruct (call_no_assertion c s Hc Hidx).
Qed.

Lemma call_keeps_selection (c : Call) (s s' : State) :
  channel_color_idx_ s <> -1 ->
  keeps_selection c ->
  call transformPointCloud robotToOgre c s = Returns s' ->
  channel_color_idx_ s' = channel_color_idx_ s.
Proof.
  intros Hidx Hc H. apply call_selection in H.
  destruct c; same_selection H; [done|].
  apply update_selection in H as [_ ->].
  destruct (pending_channels (ticked dt s)); [|done].
  by apply first_role_selected.
Qed.

(** X18.  Once a role is selected, only [setChannelColorIndex] changes the
    selection: no tick and no message does, whatever channels the clouds
    that come in have or lack. *)
Theorem selection_is_sticky (calls : list Call) :
  forall s s' : State,
    channel_color_idx_ s <> -1 ->
    Forall keeps_selection calls ->
    run transformPointCloud robotToOgre calls s = Returns s' ->
    channel_color_idx_ s' = channel_color_idx_ s.
Proof.
  induction calls as [|c rest IH]; intros s s' Hidx Hcalls Hrun.
  - simpl in Hrun. by injection Hrun as <-.
  - simpl in Hrun. bind_inv Hrun.
    inversion Hcalls as [|? ? Hc Hrest]; subst.
    pose proof (call_keeps_selection c s a Hidx Hc Ha) as Hsame.
    rewrite <- Hsame. apply IH; [by rewrite Hsame|done|done].
Qed.

Lemma call_before_first_message (c : Call) (s s' : State) :
  channel_color_idx_ s = -1 /\ new_cloud_ s = false ->
  before_first_message c ->
  call transformPointCloud robotToOgre c s = Returns s' ->
  channel_color_idx_ s' = -1 /\ new_cloud_ s' = false.
Proof.
  intros [Hidx Hnew] Hc H. apply call_selection in H.
  destruct c; try done; same_selection H.
  apply update_selection in H as [-> ->].
  by rewrite pending_channels_none.
Qed.

Lemma run_before_first_message (calls : list Call) :
  forall s s' : State,
    channel_color_idx_ s = -1 /\ new_cloud_ s = false ->
    Forall before_first_message calls ->
    run transformPointCloud robotToOgre calls s = Returns s' ->
    channel_color_idx_ s' = -1 /\ new_cloud_ s' = false.
Proof.
  induction calls as [|c rest IH]; intros s s' Hs Hcalls Hrun.
  - simpl in Hrun. by injection Hrun as <-.
  - simpl in Hrun. bind_inv Hrun.
    inversion Hcalls as [|? ? Hc Hrest]; subst.
    apply (IH a s'); [|done|done].
    by apply (call_before_first_message c s).
Qed.

(** X9.  The first cloud a display receives is not coloured by its
    channels: after the constructor and any calls other than [addMessage]
    and [setChannelColorIndex], the selection is still [-1] ([update]
    selects a role only once a cloud is in the buffer), so [addMessage]
    returns, gives every point of the cloud exactly the colour
    [max_color_], and leaves the bounds alone. *)
Theorem first_cloud_is_not_coloured (name fixed_frame : string)
    (calls : list Call) (cloud : PointCloud.t) (s0 s : State) :
  PointCloudBase name fixed_frame = Returns s0 ->
  Forall before_first_message calls ->
  run transformPointCloud robotToOgre calls s0 = Returns s ->
  exists s' points,
    addMessage transformPointCloud robotToOgre cloud s = Returns s'
    /\ OgrePointCloud.points (cloud_ s') = kept_points s ++ points
    /\ length points
       = length (PointCloud.pts (reprojected transformPointCloud s cloud))
    /\ Forall (fun point => color_of point = max_color_ s) points
    /\ min_intensity_ s' = min_intensity_ s
    /\ max_intensity_ s' = max_intensity_ s.
Proof.
  intros Hnew Hcalls Hrun.
  assert (channel_color_idx_ s0 = -1 /\ new_cloud_ s0 = false) as Hs0.
  { vm_compute in Hnew. by injection Hnew as <-. }
  destruct (run_before_first_message calls s0 s Hs0 Hcalls Hrun) as [Hidx _].
  destruct (addMessage_returns transformPointCloud robotToOgre cloud s)
    as [s' Hs'].
  { left. rewrite Hidx. done. }
  assert (Forall (fun chan =>
                    painter s (length (PointCloud.pts
                                 (reprojected transformPointCloud s cloud)))
                      chan = None)
            (PointCloud.chan (reprojected transformPointCloud s cloud)))
    as Hunpainted.
  { apply Forall_forall. intros chan _. apply painter_unselected. by left. }
  destruct (addMessage_unpainted transformPointCloud robotToOgre cloud s s'
              Hunpainted Hs') as (points & Hrenderer & Hlen & Hlookup).
  destruct (addMessage_observed transformPointCloud robotToOgre cloud s s' Hs')
    as (_ & _ & _ & _ & _ & Hbounds & _).
  rewrite ingest_bounds_no_source in Hbounds.
  2: { apply Forall_forall. intros chan _. apply is_source_manual. right.
       rewrite Hidx. done. }
  injection Hbounds as Hlow Hhigh _.
  exists s', points. split; [done|]. split; [done|]. split; [done|].
  split; [|done].
  apply Forall_lookup_2. intros i point Hpoint.
  destruct (Hlookup i point Hpoint) as (source & _ & ->).
  unfold color_of, placed. simpl. by destruct (max_color_ s).
Qed.

End Selection.

(** ** The ages of the buffered clouds *)

Lemma ages_in_order_nonneg (clouds : list CloudInfo.t) :
  ages_in_order clouds ->
  Forall (fun info => (0 <= CloudInfo.time_ info)%Q) clouds.
Proof.
  induction clouds as [|front rest IH]; intros H; [constructor|].
  destruct H as (Hfront & _ & Hrest). constructor; [done|by apply IH].
Qed.

Lemma ages_in_order_app_zero (clouds : list CloudInfo.t) (info : CloudInfo.t) :
  ages_in_order clouds ->
  CloudInfo.time_ info = 0%Q ->
  ages_in_order (clouds ++ [info]).
Proof.
  intros H Hzero. induction clouds as [|front rest IH]; simpl.
  - rewrite Hzero. split; [lra|]. split; [constructor|done].
  - destruct H as (Hfront & Hle & Hrest). split; [done|].
    split; [|by apply IH].
    apply Forall_app. split; [done|].
    constructor; [|constructor]. rewrite Hzero. done.
Qed.

Lemma ages_in_order_aged (dt : float) (clouds : list CloudInfo.t) :
  (0 <= dt)%Q ->
  ages_in_order clouds ->
  ages_in_order (map (add_time dt) clouds).
Proof.
  intros Hdt. induction clouds as [|front rest IH]; intros H; [done|].
  destruct H as (Hfront & Hle & Hrest). simpl.
  split; [lra|]. split; [|by apply IH].
  apply Forall_map. simpl.
  eapply Forall_impl; [exact Hle|]. simpl. intros info Hinfo. lra.
Qed.

Lemma ages_in_order_suffix (evicted kept : list CloudInfo.t) :
  ages_in_order (evicted ++ kept) -> ages_in_order kept.
Proof.
  induction evicted as [|front rest IH]; intros H; [done|].
  destruct H as (_ & _ & Hrest). by apply IH.
Qed.

Lemma ages_in_order_front (front : CloudInfo.t) (rest : list CloudInfo.t) :
  ages_in_order (front :: rest) ->
  Forall (fun info => (0 <= CloudInfo.time_ info <= CloudInfo.time_ front)%Q)
    (front :: rest).
Proof.
  intros H. pose proof (ages_in_order_nonneg _ H) as Hnonneg.
  destruct H as (Hfront & Hle & _).
  inversion Hnonneg as [|? ? _ Hrest]; subst.
  constructor; [split; [done|lra]|].
  rewrite Forall_forall in Hle, Hrest. apply Forall_forall.
  intros info Hin. split; [by apply Hrest|by apply Hle].
Qed.

Section Ages.

Variable transformPointCloud : string -> PointCloud.t -> option PointCloud.t.
Variable robotToOgre : Vector3.t -> Vector3.t.

Lemma update_keeps_ages_in_order (dt : float) (s s' : State) :
  (0 <= dt)%Q ->
  ages_in_order (clouds_ s) ->
  update dt s = Returns s' ->
  ages_in_order (clouds_ s').
Proof.
  intros Hdt Hages Hrun.
  destruct (update_buffers dt s) as (evicted & kept & Happ & _ & _ & _ & Hkept).
  destruct (Hkept s' Hrun) as (-> & _).
  apply (ages_in_order_suffix evicted). rewrite <- Happ.
  by apply ages_in_order_aged.
Qed.

Lemma call_keeps_ages_in_order (c : Call) (s s' : State) :
  forward_tick c ->
  ages_in_order (clouds_ s) ->
  call transformPointCloud robotToOgre c s = Returns s' ->
  ages_in_order (clouds_ s').
Proof.
  intros Hc Hages H.
  destruct c;
    try (apply call_spec in H; destruct H as (-> & _); done);
    try (apply call_spec in H; by subst s').
  - apply call_spec in H. by apply (update_keeps_ages_in_order dt s).
  - apply call_spec in H.
    destruct (addMessage_observed _ _ _ _ _ H) as (_ & _ & _ & -> & _).
    apply ages_in_order_app_zero; [|done].
    unfold kept_clouds. by destruct (float_eq (point_decay_time_ s) 0).
Qed.

(** X14.  The buffer is kept in the order of arrival, oldest cloud first,
    and no cloud has a negative age: every call keeps it so, as long as
    no tick is negative.  The constructor starts with an empty buffer. *)
Theorem run_keeps_ages_in_order (calls : list Call) :
  forall s s' : State,
    ages_in_order (clouds_ s) ->
    Forall forward_tick calls ->
    run transformPointCloud robotToOgre calls s = Returns s' ->
    ages_in_order (clouds_ s').
Proof.
  induction calls as [|c rest IH]; intros s s' Hages Hcalls Hrun.
  - simpl in Hrun. by injection Hrun as <-.
  - simpl in Hrun. bind_inv Hrun.
    inversion Hcalls as [|? ? Hc Hrest]; subst.
    apply (IH a s'); [|done|done].
    by apply (call_keeps_ages_in_order c s).
Qed.

(** X15.  After a returning [update] under a positive decay time, no
    buffered cloud is older than the decay time, although [update] only
    ever compares the age of the front cloud: the buffer is ordered by
    age. *)
Theorem update_leaves_fresh_clouds (dt : float) (s s' : State) :
  ages_in_order (clouds_ s) ->
  (0 <= dt)%Q ->
  (0 < point_decay_time_ s)%Q ->
  update dt s = Returns s' ->
  Forall (fun info =>
            (0 <= CloudInfo.time_ info <= point_decay_time_ s)%Q)
    (clouds_ s').
Proof.
  intros Hages Hdt Hdecay Hrun.
  pose proof (update_keeps_ages_in_order dt s s' Hdt Hages Hrun) as Hages'.
  destruct (update_buffers dt s)
    as (evicted & kept & _ & _ & _ & Hfront & Hkept).
  destruct (Hkept s' Hrun) as (Hclouds & _).
  rewrite Hclouds in *. specialize (Hfront Hdecay).
  destruct kept as [|front rest]; [constructor|].
  eapply Forall_impl; [by apply ages_in_order_front|].
  simpl. intros info [Hlow Hhigh]. split; [done|lra].
Qed.

End Ages.

(** ** The colorizers, once more *)

(** X16.  Between distinct bounds the intensity colorizer leaves a point
    where it is; a value at or below the lower bound gives the point the
    colour [min_color], and a value at or above the upper bound leaves
    the colour the point had. *)
Theorem transformIntensity_endpoints (val : float) (point : Point.t)
    (min_color : Color.t) (min_intensity max_intensity : float) :
  (min_intensity < max_intensity)%Q ->
  let out :=
    transformIntensity val point min_color min_intensity max_intensity
      (max_intensity - min_intensity) in
  position out = position point
  /\ ((val <= min_intensity)%Q -> has_color min_color out)
  /\ ((max_intensity <= val)%Q -> has_color (color_of point) out).
Proof.
  intros Hbounds out. subst out. split; [done|].
  unfold transformIntensity, has_color, color_of. simpl.
  assert (float_gt (max_intensity - min_intensity) 0 = true) as ->.
  { apply float_lt_true. lra. }
  set (q := ((val - min_intensity) / (max_intensity - min_intensity))%Q).
  split.
  - intros Hval.
    assert (q <= 0)%Q as Hq.
    { apply Qle_shift_div_r; lra. }
    assert (std_min 1 (std_max 0 q) == 0)%Q as ->.
    { rewrite std_min_max_clamp01. unfold clamp01.
      destruct (Qlt_le_dec q 0); [done|].
      destruct (Qlt_le_dec 1 q); lra. }
    repeat split; lra.
  - intros Hval.
    assert (1 <= q)%Q as Hq.
    { apply Qle_shift_div_l; lra. }
    assert (std_min 1 (std_max 0 q) == 1)%Q as ->.
    { rewrite std_min_max_clamp01. unfold clamp01.
      destruct (Qlt_le_dec q 0); [lra|].
      destruct (Qlt_le_dec 1 q); lra. }
    repeat split; lra.
Qed.




(** ** One channel for each component *)

Lemma component_written (type : ChannelType) (s : State) (diff val : float)
    (point : Point.t) :
  type = CT_R \/ type = CT_G \/ type = CT_B ->
  component type (colorize type s diff val point) = val.
Proof. by intros [->|[->| ->]]. Qed.

Lemma painter_component (type : ChannelType) (s : State) (point_count : nat)
    (chan : ChannelFloat32.t) :
  channel_color_idx_ s = ColorRGBSpace ->
  type = CT_R \/ type = CT_G \/ type = CT_B ->
  ChannelFloat32.name chan = component_name type ->
  well_formed point_count chan = true ->
  painter s point_count chan = Some type.
Proof.
  intros Hidx Htype Hname Hwf. unfold painter, colors_points.
  rewrite Hwf, Hidx, Hname. by destruct Htype as [->|[->| ->]].
Qed.

Lemma component_kept (type : ChannelType) (s : State) (diff : float)
    (point_count i : nat) (point : Point.t) (chan : ChannelFloat32.t) :
  channel_color_idx_ s = ColorRGBSpace ->
  type = CT_R \/ type = CT_G \/ type = CT_B ->
  (well_formed point_count chan = true ->
   ChannelFloat32.name chan <> component_name type
   /\ ChannelFloat32.name chan <> "rgb"%string) ->
  component type (paint_point s diff point_count i point chan)
  = component type point.
Proof.
  intros Hidx Htype Hother. unfold paint_point, painter.
  destruct (well_formed point_count chan); [|done].
  destruct (Hother eq_refl) as [Hname Hrgb].
  unfold channel_type, colors_points, is_intensity_name, is_curvature_name.
  rewrite Hidx.
  generalize dependent (ChannelFloat32.name chan). intros name Hother Hname Hrgb.
  assert (forall known : string,
            String.eqb name known = true -> name = known) as Hknown.
  { intros known. apply String.eqb_eq. }
  destruct (String.eqb name "intensity") eqn:E1;
    [apply Hknown in E1; by subst name|].
  destruct (String.eqb name "intensities") eqn:E2;
    [apply Hknown in E2; by subst name|].
  destruct (String.eqb name "curvatures") eqn:E3;
    [apply Hknown in E3; by subst name|].
  destruct (String.eqb name "curvature") eqn:E4;
    [apply Hknown in E4; by subst name|].
  destruct (String.eqb name "rgb") eqn:E5; [by apply Hknown in E5|].
  destruct (String.eqb name "r") eqn:E6.
  { apply Hknown in E6. subst name. simpl.
    destruct (ChannelFloat32.vals chan !! i); [|done].
    by destruct Htype as [->|[->| ->]]. }
  destruct (String.eqb name "g") eqn:E7.
  { apply Hknown in E7. subst name. simpl.
    destruct (ChannelFloat32.vals chan !! i); [|done].
    by destruct Htype as [->|[->| ->]]. }
  destruct (String.eqb name "b") eqn:E8.
  { apply Hknown in E8. subst name. simpl.
    destruct (ChannelFloat32.vals chan !! i); [|done].
    by destruct Htype as [->|[->| ->]]. }
  done.
Qed.

Lemma components_kept (type : ChannelType) (s : State) (diff : float)
    (point_count i : nat) (chans : list ChannelFloat32.t) :
  channel_color_idx_ s = ColorRGBSpace ->
  type = CT_R \/ type = CT_G \/ type = CT_B ->
  Forall (fun chan =>
            well_formed point_count chan = true ->
            ChannelFloat32.name chan <> component_name type
            /\ ChannelFloat32.name chan <> "rgb"%string) chans ->
  forall point : Point.t,
    component type (fold_left (paint_point s diff point_count i) chans point)
    = component type point.
Proof.
  intros Hidx Htype Hchans.
  induction Hchans as [|chan rest Hchan Hrest IH]; intros point; [done|].
  simpl. rewrite IH. by apply component_kept.
Qed.

Section Components.

Variable transformPointCloud : string -> PointCloud.t -> option PointCloud.t.
Variable robotToOgre : Vector3.t -> Vector3.t.

(** X19.  Under the colour selection, a cloud may carry its colours in one
    channel for each component: the red component of point [i] is the
    value at [i] of the last well-formed channel named [r], as long as no
    well-formed channel named [rgb] comes after it; likewise for [g] and
    green, and for [b] and blue.  The value is taken as it is, not
    clamped. *)
Theorem addMessage_separate_colour_channels (cloud : PointCloud.t)
    (s s' : State) (type : ChannelType)
    (before after : list ChannelFloat32.t) (chan : ChannelFloat32.t) :
  let ingested := reprojected transformPointCloud s cloud in
  let point_count := length (PointCloud.pts ingested) in
  channel_color_idx_ s = ColorRGBSpace ->
  type = CT_R \/ type = CT_G \/ type = CT_B ->
  PointCloud.chan ingested = before ++ chan :: after ->
  ChannelFloat32.name chan = component_name type ->
  well_formed point_count chan = true ->
  Forall (fun later =>
            well_formed point_count later = true ->
            ChannelFloat32.name later <> component_name type
            /\ ChannelFloat32.name later <> "rgb"%string) after ->
  addMessage transformPointCloud robotToOgre cloud s = Returns s' ->
  exists points,
    OgrePointCloud.points (cloud_ s') = kept_points s ++ points
    /\ length points = point_count
    /\ forall i point,
         points !! i = Some point ->
         ChannelFloat32.vals chan !! i = Some (component type point).
Proof.
  intros ingested point_count Hidx Htype Hchans Hname Hwf Hafter Hrun.
  destruct (addMessage_painted transformPointCloud robotToOgre cloud s s' Hrun)
    as (points & Hrenderer & Hlen & Hlookup).
  destruct (addMessage_observed transformPointCloud robotToOgre cloud s s' Hrun)
    as (_ & _ & _ & _ & _ & _ & Hidx' & _).
  exists points. split; [done|]. split; [done|].
  intros i point Hpoint.
  destruct (Hlookup i point Hpoint) as (source & _ & ->).
  fold ingested point_count.
  rewrite checked_channels_no_source.
  2: { apply Forall_forall. intros c _. apply is_source_manual. right.
       rewrite Hidx. done. }
  rewrite Hchans, fold_left_app. simpl.
  assert (channel_color_idx_ s' = ColorRGBSpace) as Hidx1 by congruence.
  rewrite components_kept by done.
  apply lookup_lt_Some in Hpoint.
  apply Nat.eqb_eq in Hwf.
  destruct (lookup_lt_is_Some_2 (ChannelFloat32.vals chan) i) as [v Hv].
  { rewrite Hwf. subst point_count ingested. by rewrite <- Hlen. }
  unfold paint_point at 1.
  rewrite (painter_component type) by (try done; by apply Nat.eqb_eq).
  rewrite Hv. by rewrite component_written.
Qed.

End Components.

(** ** The settings of the renderer *)

Lemma pop_expired_settings (decay : float) (clouds : list CloudInfo.t) :
  forall (cloud : OgrePointCloud.t) (removed : bool),
    let cloud' := (pop_expired decay clouds cloud removed).1.2 in
    OgrePointCloud.alpha cloud' = OgrePointCloud.alpha cloud
    /\ OgrePointCloud.use_points cloud' = OgrePointCloud.use_points cloud
    /\ OgrePointCloud.billboard_dimensions cloud'
       = OgrePointCloud.billboard_dimensions cloud.
Proof.
  induction clouds as [|front rest IH]; intros cloud removed; [done|].
  simpl. destruct (float_gt (CloudInfo.time_ front) decay); [|done].
  apply (IH (OgrePointCloud.popPoints (CloudInfo.num_points_ front) cloud)).
Qed.

Lemma update_bounds_keeps_renderer_in_sync (s : State) :
  renderer_in_sync s -> renderer_in_sync (update_bounds s).
Proof.
  unfold update_bounds, renderer_in_sync.
  destruct (intensity_bounds_changed_ s); [|done].
  unfold_setters. simpl.
  repeat match goal with
         | |- context [if ?b then _ else _] => destruct b; simpl
         end; done.
Qed.

Lemma update_decay_keeps_renderer_in_sync (s : State) :
  renderer_in_sync s -> renderer_in_sync (update_decay s).
Proof.
  unfold update_decay, renderer_in_sync. intros Hsync.
  destruct (float_gt (point_decay_time_ s) 0); [|done].
  pose proof (pop_expired_settings (point_decay_time_ s) (clouds_ s)
                (cloud_ s) false) as Hsettings.
  destruct (pop_expired _ _ _ _) as [[clouds cloud] removed].
  simpl in Hsettings. destruct Hsettings as (Ha & Hu & Hb).
  destruct removed; simpl; by rewrite Ha, Hu, Hb.
Qed.

Lemma ticked_keeps_renderer_in_sync (dt : float) (s : State) :
  renderer_in_sync s -> renderer_in_sync (ticked dt s).
Proof.
  intros Hsync. unfold ticked.
  apply update_decay_keeps_renderer_in_sync.
  by apply update_bounds_keeps_renderer_in_sync in Hsync.
Qed.

Lemma update_keeps_renderer_in_sync (dt : float) (s s' : State) :
  renderer_in_sync s -> update dt s = Returns s' -> renderer_in_sync s'.
Proof.
  intros Hsync Hrun. rewrite update_exact in Hrun.
  apply (ticked_keeps_renderer_in_sync dt) in Hsync.
  destruct (pending_channels (ticked dt s)) as [chans|].
  - destruct (non_null s channel_property_); [|done].
    destruct (first_role _ _ <? ChannelRenderCount); [|done].
    by injection Hrun as <-.
  - by injection Hrun as <-.
Qed.

Lemma ingest_renderer_settings (s : State) (points : list Point.t) :
  OgrePointCloud.alpha (ingest_renderer s points)
  = OgrePointCloud.alpha (cloud_ s)
  /\ OgrePointCloud.use_points (ingest_renderer s points)
     = OgrePointCloud.use_points (cloud_ s)
  /\ OgrePointCloud.billboard_dimensions (ingest_renderer s points)
     = OgrePointCloud.billboard_dimensions (cloud_ s).
Proof.
  unfold ingest_renderer.
  by destruct points, (float_eq (point_decay_time_ s) 0).
Qed.

Section RendererSettings.

Variable transformPointCloud : string -> PointCloud.t -> option PointCloud.t.
Variable robotToOgre : Vector3.t -> Vector3.t.

Lemma addMessage_keeps_renderer_in_sync (cloud : PointCloud.t) (s s' : State) :
  renderer_in_sync s ->
  addMessage transformPointCloud robotToOgre cloud s = Returns s' ->
  renderer_in_sync s'.
Proof.
  intros Hsync Hrun. rewrite addMessage_exact in Hrun.
  destruct (ingest_points _ _ _ _) as [points|]; [|done].
  injection Hrun as <-.
  destruct (ingest_renderer_settings s points) as (Ha & Hu & Hb).
  unfold renderer_in_sync in *. simpl. by rewrite Ha, Hu, Hb.
Qed.

Lemma call_keeps_renderer_in_sync (c : Call) (s s' : State) :
  renderer_in_sync s ->
  call transformPointCloud robotToOgre c s = Returns s' ->
  renderer_in_sync s'.
Proof.
  intros Hsync H. pose proof Hsync as (Ha & Hu & Hb).
  destruct c; simpl in H;
    try (injection H as <-; unfold renderer_in_sync; unfold_setters;
         simpl;
         repeat match goal with
                | |- context [if ?b then _ else _] => destruct b; simpl
                end; done).
  - unfold setStyle in H. bind_inv H. injection H as <-.
    unfold renderer_in_sync. unfold_setters. simpl.
    destruct (non_null s style_property_); simpl; done.
  - unfold setChannelColorIndex in H. bind_inv H. by injection H as <-.
  - by apply (update_keeps_renderer_in_sync dt s).
  - by apply (addMessage_keeps_renderer_in_sync cloud s).
Qed.

Lemma run_keeps_renderer_in_sync (calls : list Call) :
  forall s s' : State,
    renderer_in_sync s ->
    run transformPointCloud robotToOgre calls s = Returns s' ->
    renderer_in_sync s'.
Proof.
  induction calls as [|c rest IH]; intros s s' Hsync Hrun.
  - simpl in Hrun. by injection Hrun as <-.
  - simpl in Hrun. bind_inv Hrun.
    apply (IH a s'); [|done]. by apply (call_keeps_renderer_in_sync c s).
Qed.

(** X20.  The renderer always shows the settings of the display: after the
    constructor and any sequence of calls, the alpha of the renderer is
    [alpha_], it draws points exactly when the style is [Points], and its
    billboards are [billboard_size_] wide and high.  No call that fills or
    empties the renderer changes these settings. *)
Theorem renderer_stays_in_sync (name fixed_frame : string)
    (calls : list Call) (s0 s : State) :
  PointCloudBase name fixed_frame = Returns s0 ->
  run transformPointCloud robotToOgre calls s0 = Returns s ->
  renderer_in_sync s.
Proof.
  intros Hnew Hrun.
  apply (run_keeps_renderer_in_sync calls s0 s); [|done].
  vm_compute in Hnew. by injection Hnew as <-.
Qed.

End RendererSettings.

(** ** The sample inputs, once more *)

Lemma addMessage_returns_exactly_witness :
  addMessage Sample.identity_transform Sample.axes Sample.short_normals
    Sample.ready_normals = UndefinedBehaviour
  /\ exists s',
       addMessage Sample.identity_transform Sample.axes Scene.with_normals
         Sample.ready_normals = Returns s'.
Proof.
  split.
  - apply (addMessage_returns_exactly Sample.identity_transform Sample.axes
             Sample.short_normals Sample.ready_normals).
    intros (Hnx & _). unfold covers in Hnx. simpl in Hnx. lia.
  - apply (addMessage_returns_exactly Sample.identity_transform Sample.axes
             Scene.with_normals Sample.ready_normals).
    unfold covers. simpl. lia.
Defined.

Lemma addMessage_log_witness :
  exists s',
    addMessage Scene.lost_transform Sample.axes Scene.unframed
      Sample.ready_normals = Returns s'
    /\ new_events Sample.ready_normals s'
       = [RosErrorTransform "cloud" "map" "map";
          RosErrorChannelSize "cloud" 0 1; RosWarnNormals; CauseRender].
Proof.
  assert (exists s',
            addMessage Scene.lost_transform Sample.axes Scene.unframed
              Sample.ready_normals = Returns s') as [s' Hs'].
  { eexists. vm_compute. reflexivity. }
  exists s'. split; [exact Hs'|].
  rewrite (addMessage_log Scene.lost_transform Sample.axes Scene.unframed
             Sample.ready_normals s' Hs').
  vm_compute. reflexivity.
Defined.

Lemma addMessage_places_points_witness :
  exists s' points,
    addMessage Sample.identity_transform Sample.axes Sample.ramp
      Sample.ready_intensity = Returns s'
    /\ OgrePointCloud.points (cloud_ s') = points
    /\ length points = 3%nat
    /\ forall i point,
         points !! i = Some point ->
         exists source,
           coordinate_source Sample.ready_intensity Sample.ramp i = Some source
           /\ position point = Sample.axes source.
Proof.
  assert (exists s',
            addMessage Sample.identity_transform Sample.axes Sample.ramp
              Sample.ready_intensity = Returns s') as [s' Hs'].
  { eexists. vm_compute. reflexivity. }
  destruct (addMessage_places_points Sample.identity_transform Sample.axes
              Sample.ramp Sample.ready_intensity s' Hs')
    as (points & Hrenderer & Hlen & Hplaces).
  exists s', points. split; [exact Hs'|]. split; [exact Hrenderer|].
  split; [exact Hlen|exact Hplaces].
Defined.

Lemma addMessage_buffers_capped_cloud_witness :
  exists s',
    addMessage Sample.identity_transform Sample.axes Scene.two_sources
      Sample.ready_intensity = Returns s'
    /\ clouds_ s'
       = [CloudInfo.mk
            (PointCloud.mk "base" [Point32.mk 0 0 0; Point32.mk 1 0 0]
               [ChannelFloat32.mk "intensity" [4096%Q; 1%Q];
                ChannelFloat32.mk "intensities" [2%Q; 3%Q]])
            0 2].
Proof.
  assert (exists s',
            addMessage Sample.identity_transform Sample.axes Scene.two_sources
              Sample.ready_intensity = Returns s') as [s' Hs'].
  { eexists. vm_compute. reflexivity. }
  exists s'. split; [exact Hs'|].
  rewrite (addMessage_buffers_capped_cloud Sample.identity_transform
             Sample.axes Scene.two_sources Sample.ready_intensity s' Hs').
  vm_compute. reflexivity.
Defined.

Lemma addMessage_takes_bounds_from_last_source_witness :
  exists s',
    addMessage Sample.identity_transform Sample.axes Scene.two_sources
      Sample.ready_intensity = Returns s'
    /\ min_intensity_ s' = 2%Q /\ max_intensity_ s' = 3%Q
    /\ intensity_bounds_changed_ s' = true.
Proof.
  assert (exists s',
            addMessage Sample.identity_transform Sample.axes Scene.two_sources
              Sample.ready_intensity = Returns s') as [s' Hs'].
  { eexists. vm_compute. reflexivity. }
  exists s'. split; [exact Hs'|].
  destruct (addMessage_takes_bounds_from_last_source
              Sample.identity_transform Sample.axes Scene.two_sources
              Sample.ready_intensity s'
              [ChannelFloat32.mk "intensity" [5000%Q; 1%Q]] []
              (ChannelFloat32.mk "intensities" [2%Q; 3%Q])
              eq_refl eq_refl (Forall_nil_2 _) Hs')
    as (Hlow & Hhigh & Hflag & _).
  split; [exact Hlow|]. split; [exact Hhigh|exact Hflag].
Defined.

Lemma addMessage_keeps_manual_bounds_witness :
  exists s',
    addMessage Sample.identity_transform Sample.axes Scene.two_sources
      Scene.ready_manual = Returns s'
    /\ min_intensity_ s' = 0%Q /\ max_intensity_ s' = 4096%Q
    /\ intensity_bounds_changed_ s' = false
    /\ clouds_ s' = [CloudInfo.mk Scene.two_sources 0 2].
Proof.
  assert (exists s',
            addMessage Sample.identity_transform Sample.axes Scene.two_sources
              Scene.ready_manual = Returns s') as [s' Hs'].
  { eexists. vm_compute. reflexivity. }
  exists s'. split; [exact Hs'|].
  exact (addMessage_keeps_manual_bounds Sample.identity_transform Sample.axes
           Scene.two_sources Scene.ready_manual s' (or_introl eq_refl) Hs').
Defined.

Lemma addMessage_colours_point_by_point_witness :
  exists s' points,
    addMessage Sample.identity_transform Sample.axes Sample.ramp
      Sample.ready_intensity = Returns s'
    /\ OgrePointCloud.points (cloud_ s') = points
    /\ forall i point,
         points !! i = Some point ->
         exists source,
           coordinate_source Sample.ready_intensity Sample.ramp i = Some source
           /\ point
              = fold_left
                  (paint_point s' (max_intensity_ s' - min_intensity_ s')%Q
                     3 i)
                  [ChannelFloat32.mk "intensity" [0%Q; 2%Q; 4%Q]]
                  (placed Sample.axes (Color.mk 1 1 1) source).
Proof.
  assert (exists s',
            addMessage Sample.identity_transform Sample.axes Sample.ramp
              Sample.ready_intensity = Returns s') as [s' Hs'].
  { eexists. vm_compute. reflexivity. }
  destruct (addMessage_colours_point_by_point Sample.identity_transform
              Sample.axes Sample.ramp Sample.ready_intensity s' Hs')
    as (points & Hrenderer & Hcolours).
  exists s', points. split; [exact Hs'|]. split; [exact Hrenderer|].
  exact Hcolours.
Defined.

Lemma addMessage_unmatched_keeps_max_color_witness :
  exists s' points,
    addMessage Sample.identity_transform Sample.axes Sample.green_only
      Sample.ready_intensity = Returns s'
    /\ OgrePointCloud.points (cloud_ s') = points
    /\ length points = 1%nat
    /\ Forall (fun point => color_of point = Color.mk 1 1 1) points.
Proof.
  assert (exists s',
            addMessage Sample.identity_transform Sample.axes Sample.green_only
              Sample.ready_intensity = Returns s') as [s' Hs'].
  { eexists. vm_compute. reflexivity. }
  assert (Forall (fun chan => painter Sample.ready_intensity 1 chan = None)
            (PointCloud.chan Sample.green_only)) as Hunmatched.
  { repeat constructor. }
  destruct (addMessage_unmatched_keeps_max_color Sample.identity_transform
              Sample.axes Sample.green_only Sample.ready_intensity s'
              Hunmatched Hs')
    as (points & Hrenderer & Hlen & Hcolour).
  exists s', points. split; [exact Hs'|]. split; [exact Hrenderer|].
  split; [exact Hlen|exact Hcolour].
Defined.

Lemma first_cloud_is_not_coloured_witness :
  exists s0 s s' points,
    PointCloudBase "cloud" "map" = Returns s0
    /\ run Sample.identity_transform Sample.axes Scene.settling s0 = Returns s
    /\ addMessage Sample.identity_transform Sample.axes Sample.ramp s
       = Returns s'
    /\ OgrePointCloud.points (cloud_ s') = kept_points s ++ points
    /\ length points = 3%nat
    /\ Forall (fun point => color_of point = max_color_ s) points.
Proof.
  assert (exists s0, PointCloudBase "cloud" "map" = Returns s0) as [s0 Hs0].
  { eexists. vm_compute. reflexivity. }
  assert (exists s,
            run Sample.identity_transform Sample.axes Scene.settling s0
            = Returns s) as [s Hs].
  { vm_compute in Hs0. injection Hs0 as <-. eexists. vm_compute.
    reflexivity. }
  assert (Forall before_first_message Scene.settling) as Hcalls.
  { repeat constructor. }
  destruct (first_cloud_is_not_coloured Sample.identity_transform Sample.axes
              "cloud" "map" Scene.settling Sample.ramp s0 s Hs0 Hcalls Hs)
    as (s' & points & Hs' & Hrenderer & Hlen & Hcolour & _).
  exists s0, s, s', points.
  split; [exact Hs0|]. split; [exact Hs|]. split; [exact Hs'|].
  split; [exact Hrenderer|]. split; [exact Hlen|exact Hcolour].
Defined.

Lemma addMessage_normal_sphere_witness :
  exists s' points,
    addMessage Sample.identity_transform Sample.axes Scene.with_normals
      Sample.ready_normals = Returns s'
    /\ OgrePointCloud.points (cloud_ s') = points
    /\ length points = 2%nat.
Proof.
  assert (exists s',
            addMessage Sample.identity_transform Sample.axes Scene.with_normals
              Sample.ready_normals = Returns s') as [s' Hs'].
  { eexists. vm_compute. reflexivity. }
  destruct (addMessage_normal_sphere Sample.identity_transform Sample.axes
              Scene.with_normals Sample.ready_normals s'
              (ChannelFloat32.mk "nx" [1%Q; 0%Q])
              (ChannelFloat32.mk "ny" [0%Q; 1%Q])
              (ChannelFloat32.mk "nz" [0%Q; 0%Q]) eq_refl Hs')
    as (points & Hrenderer & Hlen & _).
  exists s', points. split; [exact Hs'|]. split; [exact Hrenderer|exact Hlen].
Defined.

Lemma update_log_witness :
  exists s',
    update 0 Scene.pending_flagged = Returns s'
    /\ new_events Scene.pending_flagged s'
       = [PropertyChanged min_intensity_property_; CauseRender;
          PropertyChanged max_intensity_property_; CauseRender;
          PropertyChanged channel_property_].
Proof.
  assert (exists s', update 0 Scene.pending_flagged = Returns s') as [s' Hs'].
  { eexists. vm_compute. reflexivity. }
  exists s'. split; [exact Hs'|].
  rewrite (update_log 0 Scene.pending_flagged s' Hs').
  vm_compute. reflexivity.
Defined.

Lemma update_outcome_witness :
  update 0 Scene.pending_without_properties = UndefinedBehaviour.
Proof.
  assert (channel_color_idx_ Scene.pending_without_properties
          < ChannelRenderCount) as Hidx by (vm_compute; reflexivity).
  destruct (update_outcome 0 Scene.pending_without_properties Hidx)
    as (_ & Hcrash & _).
  apply Hcrash. split; [reflexivity|]. split; [|reflexivity].
  vm_compute. discriminate.
Defined.

Lemma run_never_fails_assertion_witness :
  channel_color_idx_ Sample.ready < ChannelRenderCount
  /\ Forall well_called Scene.settling
  /\ run Sample.identity_transform Sample.axes Scene.settling Sample.ready
     <> AssertionFailed.
Proof.
  assert (channel_color_idx_ Sample.ready < ChannelRenderCount) as Hidx
    by (vm_compute; reflexivity).
  assert (Forall well_called Scene.settling) as Hcalls
    by (repeat constructor).
  split; [exact Hidx|]. split; [exact Hcalls|].
  exact (run_never_fails_assertion Sample.identity_transform Sample.axes
           Scene.settling Sample.ready Hidx Hcalls).
Defined.

Lemma selection_is_sticky_witness :
  exists s',
    run Sample.identity_transform Sample.axes Scene.other_cloud
      Sample.ready_intensity = Returns s'
    /\ channel_color_idx_ s' = Intensity.
Proof.
  assert (exists s',
            run Sample.identity_transform Sample.axes Scene.other_cloud
              Sample.ready_intensity = Returns s') as [s' Hs'].
  { eexists. vm_compute. reflexivity. }
  exists s'. split; [exact Hs'|].
  assert (channel_color_idx_ Sample.ready_intensity <> -1) as Hidx
    by (vm_compute; discriminate).
  assert (Forall keeps_selection Scene.other_cloud) as Hcalls
    by (repeat constructor).
  exact (selection_is_sticky Sample.identity_transform Sample.axes
           Scene.other_cloud Sample.ready_intensity s' Hidx Hcalls Hs').
Defined.

Lemma run_keeps_ages_in_order_witness :
  exists s',
    run Sample.identity_transform Sample.axes Sample.two_clouds Sample.ready
    = Returns s'
    /\ ages_in_order (clouds_ s').
Proof.
  assert (exists s',
            run Sample.identity_transform Sample.axes Sample.two_clouds
              Sample.ready = Returns s') as [s' Hs'].
  { eexists. vm_compute. reflexivity. }
  exists s'. split; [exact Hs'|].
  assert (ages_in_order (clouds_ Sample.ready)) as Hages by exact I.
  assert (Forall forward_tick Sample.two_clouds) as Hcalls.
  { repeat constructor. simpl. unfold Qle. simpl. lia. }
  exact (run_keeps_ages_in_order Sample.identity_transform Sample.axes
           Sample.two_clouds Sample.ready s' Hages Hcalls Hs').
Defined.

Lemma update_leaves_fresh_clouds_witness :
  exists s',
    update (1/5) Scene.two_ages = Returns s'
    /\ length (clouds_ s') = 1%nat
    /\ Forall (fun info => (0 <= CloudInfo.time_ info <= 1/2)%Q) (clouds_ s').
Proof.
  assert (exists s', update (1/5) Scene.two_ages = Returns s'
                     /\ length (clouds_ s') = 1%nat) as (s' & Hs' & Hone).
  { eexists. split; vm_compute; reflexivity. }
  exists s'. split; [exact Hs'|]. split; [exact Hone|].
  assert (ages_in_order (clouds_ Scene.two_ages)) as Hages.
  { simpl. unfold Qle. simpl.
    repeat first [split | constructor]; simpl; lia. }
  assert (0 <= 1/5)%Q as Hdt by (unfold Qle; simpl; lia).
  assert (0 < point_decay_time_ Scene.two_ages)%Q as Hdecay
    by (unfold Qlt; simpl; lia).
  exact (update_leaves_fresh_clouds (1/5) Scene.two_ages s' Hages Hdt Hdecay
           Hs').
Defined.

Lemma transformIntensity_endpoints_witness :
  has_color (Color.mk 0 0 0)
    (transformIntensity (-1) (Point.mk 0 0 0 1 1 1) (Color.mk 0 0 0) 0 4
       (4 - 0))
  /\ has_color (Color.mk 1 1 1)
       (transformIntensity 5 (Point.mk 0 0 0 1 1 1) (Color.mk 0 0 0) 0 4
          (4 - 0)).
Proof.
  assert (0 < 4)%Q as Hbounds by (unfold Qlt; simpl; lia).
  destruct (transformIntensity_endpoints (-1) (Point.mk 0 0 0 1 1 1)
              (Color.mk 0 0 0) 0 4 Hbounds) as (_ & Hlow & _).
  destruct (transformIntensity_endpoints 5 (Point.mk 0 0 0 1 1 1)
              (Color.mk 0 0 0) 0 4 Hbounds) as (_ & _ & Hhigh).
  split.
  - apply Hlow. unfold Qle. simpl. lia.
  - apply Hhigh. unfold Qle. simpl. lia.
Defined.

Lemma addMessage_separate_colour_channels_witness :
  exists s' points,
    addMessage Sample.identity_transform Sample.axes Scene.separate_colours
      Scene.ready_colours = Returns s'
    /\ OgrePointCloud.points (cloud_ s') = points
    /\ length points = 2%nat
    /\ forall i point,
         points !! i = Some point ->
         [(3/4)%Q; 2%Q] !! i = Some (Point.g_ point).
Proof.
  assert (exists s',
            addMessage Sample.identity_transform Sample.axes
              Scene.separate_colours Scene.ready_colours = Returns s')
    as [s' Hs'].
  { eexists. vm_compute. reflexivity. }
  assert (Forall (fun later =>
                    well_formed 2 later = true ->
                    ChannelFloat32.name later <> component_name CT_G
                    /\ ChannelFloat32.name later <> "rgb"%string)
            [ChannelFloat32.mk "b" [0%Q; 1%Q]]) as Hafter.
  { repeat constructor; discriminate. }
  destruct (addMessage_separate_colour_channels Sample.identity_transform
              Sample.axes Scene.separate_colours Scene.ready_colours s' CT_G
              [ChannelFloat32.mk "r" [(1/4)%Q; (1/2)%Q];
               ChannelFloat32.mk "range" [9%Q; 9%Q]]
              [ChannelFloat32.mk "b" [0%Q; 1%Q]]
              (ChannelFloat32.mk "g" [(3/4)%Q; 2%Q])
              eq_refl (or_intror (or_introl eq_refl)) eq_refl eq_refl eq_refl
              Hafter Hs')
    as (points & Hrenderer & Hlen & Hgreen).
  exists s', points. split; [exact Hs'|]. split; [exact Hrenderer|].
  split; [exact Hlen|exact Hgreen].
Defined.

Lemma renderer_stays_in_sync_witness :
  exists s0 s,
    PointCloudBase "cloud" "map" = Returns s0
    /\ run Sample.identity_transform Sample.axes Scene.settling s0 = Returns s
    /\ renderer_in_sync s.
Proof.
  assert (exists s0, PointCloudBase "cloud" "map" = Returns s0) as [s0 Hs0].
  { eexists. vm_compute. reflexivity. }
  assert (exists s,
            run Sample.identity_transform Sample.axes Scene.settling s0
            = Returns s) as [s Hs].
  { vm_compute in Hs0. injection Hs0 as <-. eexists. vm_compute.
    reflexivity. }
  exists s0, s. split; [exact Hs0|]. split; [exact Hs|].
  exact (renderer_stays_in_sync Sample.identity_transform Sample.axes
           "cloud" "map" Scene.settling s0 s Hs0 Hs).
Defined.

(** ** What the setters ask of their collaborators *)


Section PropertyPointers.

Variable transformPointCloud : string -> PointCloud.t -> option PointCloud.t.
Variable robotToOgre : Vector3.t -> Vector3.t.



End PropertyPointers.



